(** * lighthouse-keeper: the report lifecycle and score aggregation engine

    A shallow embedding of [src/lighthouse-data.mjs] and the properties of
    its identifier codec, statistics engine, cache invalidation, report
    store and retention code.

    Conventions of the embedding:
    - JavaScript strings are [string]s (the identifiers and URLs handled
      here are sequences of code units below 256);
    - JavaScript numbers are idealised as rationals (plus [NaN]); their
      arithmetic is exact;
    - JSON data is a tree ([Json]); JavaScript objects keep their property
      order and are association lists;
    - Firestore, Cloud Storage, memcache and the heap of payload objects are
      the fields of a [World]; every [async] function is a function in a
      state-and-exception monad over [World], and every call to an external
      service may fail. *)

From Stdlib Require Import ZArith QArith String Ascii List Lia Bool.
From Stdlib Require Import DecimalString DecimalZ DecimalPos Permutation Sorted.
From stdpp Require Import gmap strings list fin_maps.

Open Scope string_scope.
Open Scope list_scope.

(** ** Identifier codec *)

(** [url.replace(/\//g, '__')]: every slash becomes two underscores. *)
Fixpoint slugify (url : string) : string :=
  match url with
  | EmptyString => EmptyString
  | String c rest =>
      if Ascii.eqb c "/" then String "_" (String "_" (slugify rest))
      else String c (slugify rest)
  end.

(** [id.replace(/__/g, '/')]: the matches of [__] are found from left to
    right and do not overlap. *)
Fixpoint deslugify (id : string) : string :=
  match id with
  | EmptyString => EmptyString
  | String c rest =>
      match rest with
      | String c' rest' =>
          if Ascii.eqb c "_" && Ascii.eqb c' "_"
          then String "/" (deslugify rest')
          else String c (deslugify rest)
      | EmptyString => String c EmptyString
      end
  end.

(** [s.startsWith(prefix)] *)
Fixpoint startsWith (prefix s : string) : bool :=
  match prefix with
  | EmptyString => true
  | String a prefix' =>
      match s with
      | EmptyString => false
      | String b s' => Ascii.eqb a b && startsWith prefix' s'
      end
  end.

(** [s.includes(sub)] *)
Fixpoint includes (sub s : string) : bool :=
  startsWith sub s ||
  match s with
  | EmptyString => false
  | String _ rest => includes sub rest
  end.

(** ** Numbers *)

(** A JavaScript number: a rational, or [NaN]. The numbers are the finite
    ones and their arithmetic is exact: infinities, overflow and rounding
    are not modelled. *)
Inductive number : Type :=
| Num (q : Q)
| NaN.

Definition nmul (a b : number) : number :=
  match a, b with
  | Num x, Num y => Num (Qred (x * y))
  | _, _ => NaN
  end.

Definition nadd (a b : number) : number :=
  match a, b with
  | Num x, Num y => Num (Qred (x + y))
  | _, _ => NaN
  end.

Definition ndiv (a b : number) : number :=
  match a, b with
  | Num x, Num y => if Qeq_bool y 0 then NaN else Num (Qred (x / y))
  | _, _ => NaN
  end.

Definition of_Z (z : Z) : number := Num (inject_Z z).

(** Decimal digits of an integer, as [Number::toString] prints them. *)
Definition int_digits (z : Z) : string := NilZero.string_of_int (Z.to_int z).

Definition digit (z : Z) : ascii := ascii_of_nat (48 + Z.to_nat z).

(** Long division: the digits after the decimal point. *)
Fixpoint frac_digits (fuel : nat) (r d : Z) : string :=
  match fuel with
  | O => EmptyString
  | S fuel' =>
      if (r =? 0)%Z then EmptyString
      else String (digit (10 * r / d)) (frac_digits fuel' ((10 * r) mod d) d)
  end.

(** [Number::toString]: for an integer, its decimal digits; for a fraction,
    the digits of its decimal expansion (cut after twenty places). Numbers
    that JavaScript prints with an exponent (from [1e21] on, or below
    [1e-6], in magnitude) are not handled. *)
Definition ToString (n : number) : string :=
  match n with
  | NaN => "NaN"
  | Num q =>
      let d := Z.pos (Qden q) in
      let a := Z.abs (Qnum q) in
      (if (Qnum q <? 0)%Z then "-" else "") +:+
      int_digits (a / d) +:+
      (if (a mod d =? 0)%Z then "" else String "." (frac_digits 20 (a mod d) d))
  end.

(** ** Sorting *)

Section Sort.
Context {A : Type} (le : A -> A -> bool).

Fixpoint insert_sorted (x : A) (l : list A) : list A :=
  match l with
  | [] => [x]
  | y :: l' => if le x y then x :: l else y :: insert_sorted x l'
  end.

(** A stable sort: equal elements keep their order. *)
Definition sort_by (l : list A) : list A :=
  foldr insert_sorted [] l.

End Sort.

(** [Array.prototype.sort()] without a comparator orders the elements by
    their string conversions, compared code unit by code unit. *)
Definition default_compare (a b : number) : bool :=
  String.leb (ToString a) (ToString b).

Definition array_sort (numbers : list number) : list number :=
  sort_by default_compare numbers.

(** [numbers[i]] read as a number: a missing element is [undefined], which
    arithmetic turns into [NaN]. *)
Definition at_index (numbers : list number) (i : nat) : number :=
  match numbers !! i with
  | Some n => n
  | None => NaN
  end.

(** ** Statistics engine *)

Definition median (numbers : list number) : number :=
  let numbers := array_sort numbers in
  let len := length numbers in
  if Nat.eqb (len mod 2) 0 then
    ndiv (nadd (at_index numbers (len / 2 - 1)) (at_index numbers (len / 2)))
         (of_Z 2)
  else
    at_index numbers ((len - 1) / 2).

(** The median as the specification words it: the sequence sorted ascending
    by numeric value, then the central value or the mean of the two central
    values. *)
Definition numeric_le (a b : number) : bool :=
  match a, b with
  | Num x, Num y => Qle_bool x y
  | NaN, Num _ => false
  | _, NaN => true
  end.

Definition median_numeric (numbers : list number) : number :=
  let numbers := sort_by numeric_le numbers in
  let len := length numbers in
  if Nat.eqb (len mod 2) 0 then
    ndiv (nadd (at_index numbers (len / 2 - 1)) (at_index numbers (len / 2)))
         (of_Z 2)
  else
    at_index numbers ((len - 1) / 2).

(** ** JSON values and JavaScript objects *)

#[warnings="-register-all"]
Inductive Json : Type :=
| JNull
| JBool (b : bool)
| JNum (q : Q)
| JStr (s : string)
| JArr (items : list Json)
| JObj (fields : list (string * Json)).

(** An object is the list of its own properties, in property order. *)
Section Fields.
Context {V : Type}.

Fixpoint get_field (k : string) (fs : list (string * V)) : option V :=
  match fs with
  | [] => None
  | (k', v) :: fs' => if String.eqb k' k then Some v else get_field k fs'
  end.

(** [delete o.k] *)
Fixpoint del_field (k : string) (fs : list (string * V)) : list (string * V) :=
  match fs with
  | [] => []
  | (k', v) :: fs' =>
      if String.eqb k' k then del_field k fs' else (k', v) :: del_field k fs'
  end.

(** [o.k = v]: an existing property keeps its place, a new one goes last. *)
Fixpoint set_field (k : string) (v : V) (fs : list (string * V))
  : list (string * V) :=
  match fs with
  | [] => [(k, v)]
  | (k', v') :: fs' =>
      if String.eqb k' k then (k', v) :: fs' else (k', v') :: set_field k v fs'
  end.

End Fields.

(** A JavaScript value read out of JSON data: [None] is [undefined]. *)
Definition truthy (v : option Json) : bool :=
  match v with
  | None | Some JNull => false
  | Some (JBool b) => b
  | Some (JNum q) => negb (Qeq_bool q 0)
  | Some (JStr s) => negb (String.eqb s "")
  | Some (JArr _) | Some (JObj _) => true
  end.

(** The string conversion of a template literal. *)
Fixpoint json_to_string (j : Json) : string :=
  match j with
  | JNull => "null"
  | JBool true => "true"
  | JBool false => "false"
  | JNum q => ToString (Num q)
  | JStr s => s
  | JArr items =>
      (fix join (l : list Json) : string :=
         match l with
         | [] => ""
         | x :: l' =>
             (match x with JNull => "" | _ => json_to_string x end) +:+
             (match l' with [] => "" | _ => "," +:+ join l' end)
         end) items
  | JObj _ => "[object Object]"
  end.

(** [`${v}`] *)
Definition to_string (v : option Json) : string :=
  match v with
  | None => "undefined"
  | Some j => json_to_string j
  end.

(** The number conversion of [v * 100]. Category scores are numbers or
    [null]; the conversions of strings, arrays and objects are outside the
    data handled here and are given as [NaN]. *)
Definition to_number (v : option Json) : number :=
  match v with
  | None => NaN
  | Some JNull => Num 0
  | Some (JBool b) => Num (if b then 1 else 0)
  | Some (JNum q) => Num q
  | Some (JStr _) | Some (JArr _) | Some (JObj _) => NaN
  end.

(** ** Dates and Firestore timestamps *)

(** A [Date] is its time value: milliseconds since the epoch. *)
Abbreviation Date := Z (only parsing).

Record Timestamp : Type := mkTimestamp {
  _seconds : Z;
  _nanoseconds : Z
}.

(** What Firestore stores for a [Date] field. *)
Definition Timestamp_fromDate (d : Date) : Timestamp :=
  let seconds := (d / 1000)%Z in
  mkTimestamp seconds ((d - seconds * 1000) * 1000000)%Z.

(** [ts.toDate()] *)
Definition Timestamp_toDate (ts : Timestamp) : Date :=
  (_seconds ts * 1000 + (_nanoseconds ts + 500000) / 1000000)%Z.

(** The order of timestamps in a query. *)
Definition Timestamp_leb (a b : Timestamp) : bool :=
  ((_seconds a <? _seconds b) ||
   ((_seconds a =? _seconds b) && (_nanoseconds a <=? _nanoseconds b)))%Z.

(** ** Records of the report store *)

(** The object [data] that [saveReport] builds and returns. *)
Record RunData : Type := mkRunData {
  lhrSlim : list Json;
  auditedOn : Date;
  crux : option Json
}.

(** A run document as Firestore holds it. *)
Record Doc : Type := mkDoc {
  d_lhrSlim : list Json;
  d_auditedOn : Timestamp;
  d_crux : option Json
}.

(** [collectionRef.add(data)] *)
Definition doc_of_data (data : RunData) : Doc :=
  mkDoc (lhrSlim data) (Timestamp_fromDate (auditedOn data)) (crux data).

(** [ref.update(data)] sets the fields that [data] has and keeps the others. *)
Definition doc_update (data : RunData) (old : Doc) : Doc :=
  mkDoc (lhrSlim data) (Timestamp_fromDate (auditedOn data))
        (match crux data with Some c => Some c | None => d_crux old end).

(** An element of the array that [getReports] returns. *)
Record Report : Type := mkReport {
  r_lhrSlim : list Json;
  r_auditedOn : Date;
  r_crux : option Json;
  r_lhr : option Json
}.

(** A property of the mutable [lhr] object: JSON data, or a [Date]. *)
Inductive FieldVal : Type :=
| FJson (j : Json)
| FDate (d : Date).

Abbreviation LhrObj := (list (string * FieldVal)) (only parsing).

(** The object [json] handed to [saveReport]: [json.lhr] is a reference to
    an object on the heap, [json.crux] is JSON data; either may be missing. *)
Record Payload : Type := mkPayload {
  p_lhr : option nat;
  p_crux : option Json
}.

(** The values kept in memcache. *)
Inductive CacheVal : Type :=
| CUrls (urls : list string)
| CMedians (medians : list (string * number))
| CReports (runs : list Report).

(** The configuration object of [getReports] and [getMedianScoresOfAllUrls];
    a property that the caller left out is [None]. *)
Record Config : Type := mkConfig {
  maxResults : option nat;
  useCache : option bool
}.

Definition MAX_REPORTS : nat := 10.

(** ** Errors, events and the world *)

Record Err : Type := mkErr {
  e_name : string;
  e_message : string
}.

(** [`${err}`], that is [Error.prototype.toString]. *)
Definition err_to_string (e : Err) : string :=
  if String.eqb (e_message e) "" then e_name e
  else if String.eqb (e_name e) "" then e_message e
  else e_name e +:+ ": " +:+ e_message e.

Inductive Res (A : Type) : Type :=
| Ok (a : A)
| Throw (e : Err).
Arguments Ok {A} a.
Arguments Throw {A} e.

Inductive Order : Type :=
| ByAuditedOnDesc
| ByName.

(** The calls to external services, as they are issued. *)
Inductive Event : Type :=
| EvQuery (coll : string) (order : Order) (limit : nat)
| EvAdd (coll : string)
| EvUpdate (coll : string) (idx : nat)
| EvBatchDelete (coll : string) (n : nat)
| EvSetMeta (id : string)
| EvGetCollections
| EvCacheGet (key : string)
| EvCacheSet (key : string)
| EvCacheDelete (key : string)
| EvUpload (file : string)
| EvDownload (file : string)
| EvAudit (url : string).

(** The world: Firestore ([db]: the run documents of each collection;
    [meta]: the [lastViewed] date of each document of the [meta]
    collection), the Cloud Storage bucket, memcache, the heap of [lhr]
    objects, the clock, what the audit API answers for a URL (an error, or
    the [lhr] and [crux] of its response), which external calls fail (by
    their sequence number), and the log of the external calls made. The
    [lastViewed] documents are kept apart from the run collections: a URL
    whose identifier is [meta] is not handled. *)
Record World : Type := mkWorld {
  db : gmap string (list Doc);
  meta : gmap string Date;
  bucket : gmap string Json;
  memcache : gmap string CacheVal;
  heap : list LhrObj;
  clock : Date;
  api : string -> Res (option LhrObj * option Json);
  faulty : nat -> bool;
  log : list Event
}.

Definition set_db (f : gmap string (list Doc) -> gmap string (list Doc))
  (w : World) : World :=
  mkWorld (f (db w)) (meta w) (bucket w) (memcache w) (heap w) (clock w)
          (api w) (faulty w) (log w).

Definition set_meta (f : gmap string Date -> gmap string Date)
  (w : World) : World :=
  mkWorld (db w) (f (meta w)) (bucket w) (memcache w) (heap w) (clock w)
          (api w) (faulty w) (log w).

Definition set_bucket (f : gmap string Json -> gmap string Json)
  (w : World) : World :=
  mkWorld (db w) (meta w) (f (bucket w)) (memcache w) (heap w) (clock w)
          (api w) (faulty w) (log w).

Definition set_memcache (f : gmap string CacheVal -> gmap string CacheVal)
  (w : World) : World :=
  mkWorld (db w) (meta w) (bucket w) (f (memcache w)) (heap w) (clock w)
          (api w) (faulty w) (log w).

Definition set_heap (f : list LhrObj -> list LhrObj) (w : World) : World :=
  mkWorld (db w) (meta w) (bucket w) (memcache w) (f (heap w)) (clock w)
          (api w) (faulty w) (log w).

Definition set_clock (t : Date) (w : World) : World :=
  mkWorld (db w) (meta w) (bucket w) (memcache w) (heap w) t
          (api w) (faulty w) (log w).

Definition add_event (ev : Event) (w : World) : World :=
  mkWorld (db w) (meta w) (bucket w) (memcache w) (heap w) (clock w)
          (api w) (faulty w) (log w ++ [ev]).

(** The run documents of a collection; a collection without documents and a
    collection that does not exist are the same thing. *)
Definition collection (w : World) (id : string) : list Doc :=
  default [] (db w !! id).

(** ** The monad of asynchronous functions *)

(** An [async] function takes the world to a result (a value, or a thrown
    error) and a new world; effects made before an error stay. *)
Definition M (A : Type) : Type := World -> Res A * World.

Definition ret {A : Type} (a : A) : M A := fun w => (Ok a, w).

Definition throw {A : Type} (e : Err) : M A := fun w => (Throw e, w).

Definition bind {A B : Type} (m : M A) (k : A -> M B) : M B :=
  fun w =>
    match m w with
    | (Ok a, w') => k a w'
    | (Throw e, w') => (Throw e, w')
    end.

Notation "'let*' x ':=' m 'in' k" := (bind m (fun x => k))
  (at level 10, x pattern, m at level 100, k at level 200).

Notation "m ';;' k" := (bind m (fun _ => k))
  (at level 100, k at level 200, right associativity).

(** [try { x = m; on_ok(x) } catch (err) { on_err(err) }] where only [m] is
    inside the [try]. *)
Definition try_catch {A B : Type} (m : M A) (on_ok : A -> M B)
  (on_err : Err -> M B) : M B :=
  fun w =>
    match m w with
    | (Ok a, w') => on_ok a w'
    | (Throw e, w') => on_err e w'
    end.

(** [await Promise.all([m1, m2])]: both calls are issued before either is
    awaited; the first rejection is the one thrown. *)
Definition promise_all2 (m1 m2 : M unit) : M unit :=
  fun w =>
    match m1 w with
    | (r1, w1) =>
        match m2 w1 with
        | (r2, w2) =>
            match r1, r2 with
            | Throw e, _ => (Throw e, w2)
            | Ok _, Throw e => (Throw e, w2)
            | Ok _, Ok _ => (Ok tt, w2)
            end
        end
    end.

Definition TypeError (msg : string) : Err := mkErr "TypeError" msg.
Definition SyntaxError (msg : string) : Err := mkErr "SyntaxError" msg.
Definition Error (msg : string) : Err := mkErr "Error" msg.

(** The error of an external call that fails. *)
Definition StorageError : Err := Error "storage call failed".

(** A call to an external service: it is recorded in the log; whether the
    call with this sequence number fails is the world's to say, and a failed
    call has no effect. *)
Definition io {A : Type} (ev : Event) (f : World -> Res A * World) : M A :=
  fun w =>
    if faulty w (length (log w)) then (Throw StorageError, add_event ev w)
    else f (add_event ev w).

(** [new Date()]: the clock of the world, which stands still during a
    call. *)
Definition new_Date : M Date := fun w => (Ok (clock w), w).

(** *** Firestore *)

(** The documents of a collection, each with its place in it. *)
Fixpoint index_from {A : Type} (k : nat) (l : list A) : list (nat * A) :=
  match l with
  | [] => []
  | x :: l' => (k, x) :: index_from (S k) l'
  end.

(** [orderBy('auditedOn', 'desc')] and [orderBy('__name__')] *)
Definition run_order (o : Order) (docs : list (nat * Doc)) : list (nat * Doc) :=
  match o with
  | ByName => docs
  | ByAuditedOnDesc =>
      sort_by (fun a b => Timestamp_leb (d_auditedOn (snd b)) (d_auditedOn (snd a)))
              (reverse docs)
  end.

(** [db.collection(id).orderBy(..).limit(n).get()]: the documents of the
    snapshot, each with its place in the collection (the collection is kept
    in document-name order, and a place stands for the document reference).
    Ties of [auditedOn] come in descending name order. [limit] rejects a
    limit that is not an integer. *)
Definition query_get (id : string) (o : Order) (limit : option nat)
  : M (list (nat * Doc)) :=
  match limit with
  | None => throw (Error "Argument limit is not a valid integer.")
  | Some n =>
      io (EvQuery id o n) (fun w =>
        (Ok (take n (run_order o (index_from 0 (collection w id)))), w))
  end.

(** [collectionRef.add(data)]: the new document gets a fresh name, taken
    here to come after the existing ones. *)
Definition collection_add (id : string) (data : RunData) : M unit :=
  io (EvAdd id) (fun w =>
    (Ok tt, set_db (insert id (collection w id ++ [doc_of_data data])) w)).

(** [doc.ref.update(data)] *)
Definition ref_update (id : string) (i : nat) (data : RunData) : M unit :=
  io (EvUpdate id i) (fun w =>
    (Ok tt, set_db (insert id (alter (doc_update data) i (collection w id))) w)).

(** [batch.delete(doc.ref)] for each document, then [batch.commit()] *)
Definition batch_delete (id : string) (refs : list nat) : M unit :=
  io (EvBatchDelete id (length refs)) (fun w =>
    (Ok tt,
     set_db (insert id
       (map snd (List.filter (fun p => negb (bool_decide (fst p ∈ refs)))
                             (index_from 0 (collection w id))))) w)).

(** [db.getCollections()]: the ids of the collections that have documents. *)
Definition getCollections : M (list string) :=
  io EvGetCollections (fun w =>
    (Ok (map fst (List.filter (fun p => negb (Nat.eqb (length (snd p)) 0))
                              (map_to_list (db w)))
         ++ (if bool_decide (meta w = ∅) then [] else ["meta"])), w)).

(** [db.doc(`meta/${id}`).set({lastViewed})] *)
Definition meta_set (id : string) (lastViewed : Date) : M unit :=
  io (EvSetMeta id) (fun w => (Ok tt, set_meta (insert id lastViewed) w)).

(** *** Memcache *)

(** Modelled from the spec: [memcache.mjs] is not part of the sources at
    hand; its capability set is [get(key) -> value | absent],
    [set(key, value)] and [delete(key)] over a keyed store, with no eviction
    other than explicit deletion. *)
Definition memcache_get (key : string) : M (option CacheVal) :=
  io (EvCacheGet key) (fun w => (Ok (memcache w !! key), w)).

Definition memcache_set (key : string) (v : CacheVal) : M unit :=
  io (EvCacheSet key) (fun w => (Ok tt, set_memcache (insert key v) w)).

Definition memcache_delete (key : string) : M unit :=
  io (EvCacheDelete key) (fun w => (Ok tt, set_memcache (delete key) w)).

(** *** Cloud Storage *)

(** [bucket.file(name).save(JSON.stringify(..))]; the file is kept as the
    JSON value that [JSON.parse] gives back. *)
Definition file_save (name : string) (content : Json) : M unit :=
  io (EvUpload name) (fun w => (Ok tt, set_bucket (insert name content) w)).

(** [JSON.parse(await bucket.file(name).download())] *)
Definition file_download (name : string) : M Json :=
  io (EvDownload name) (fun w =>
    match bucket w !! name with
    | Some content => (Ok content, w)
    | None => (Throw (Error ("No such object: " +:+ name)), w)
    end).

(** *** The heap of [lhr] objects *)

(** Using [json.lhr] as an object: a [TypeError] when it is [undefined]. *)
Definition lhr_object (lhr : option nat) : M (nat * LhrObj) :=
  fun w =>
    match lhr with
    | Some l =>
        match heap w !! l with
        | Some o => (Ok (l, o), w)
        | None => (Throw (TypeError "Cannot convert undefined or null to object"), w)
        end
    | None => (Throw (TypeError "Cannot convert undefined or null to object"), w)
    end.

(** A change of the object in place: every holder of the reference sees
    it. *)
Definition lhr_modify (l : nat) (f : LhrObj -> LhrObj) : M unit :=
  fun w => (Ok tt, set_heap (alter f l) w).

(** *** The audit API *)

(** [api.audit(url)]: the response is the world's to give; a response with
    an [lhr] gets a new object on the heap. *)
Definition api_audit (url : string) : M Payload :=
  io (EvAudit url) (fun w =>
    match api w url with
    | Throw e => (Throw e, w)
    | Ok (None, crux) => (Ok (mkPayload None crux), w)
    | Ok (Some o, crux) =>
        (Ok (mkPayload (Some (length (heap w))) crux),
         set_heap (fun h => h ++ [o]) w)
    end).

(** *** Property access, iteration *)

(** [v.k] for a JSON value [v]. *)
Definition prop (k : string) (v : Json) : M (option Json) :=
  match v with
  | JNull => throw (TypeError ("Cannot read property '" +:+ k +:+ "' of null"))
  | JObj fs => ret (get_field k fs)
  | _ => ret None
  end.

(** A property of the [lhr] object as a value; of a [Date] only its being an
    object without [code] and [message] matters here. *)
Definition field_value (f : FieldVal) : Json :=
  match f with
  | FJson j => j
  | FDate _ => JObj []
  end.

Fixpoint mapM {A B : Type} (f : A -> M B) (l : list A) : M (list B) :=
  match l with
  | [] => ret []
  | x :: l' => let* y := f x in let* ys := mapM f l' in ret (y :: ys)
  end.

Fixpoint foldM {A B : Type} (f : B -> A -> M B) (b : B) (l : list A) : M B :=
  match l with
  | [] => ret b
  | x :: l' => let* b' := f b x in foldM f b' l'
  end.

(** [Object.values(v)] *)
Definition Object_values (v : Json) : M (list Json) :=
  match v with
  | JObj fs => ret (map snd fs)
  | JArr items => ret items
  | JStr s => ret (map (fun c => JStr (String c "")) (list_ascii_of_string s))
  | JNum _ | JBool _ => ret []
  | JNull => throw (TypeError "Cannot convert undefined or null to object")
  end.

(** [Object.keys(v).length] *)
Definition Object_keys_length (v : option Json) : M nat :=
  match v with
  | None | Some JNull =>
      throw (TypeError "Cannot convert undefined or null to object")
  | Some (JObj fs) => ret (length fs)
  | Some (JArr items) => ret (length items)
  | Some (JStr s) => ret (String.length s)
  | Some (JNum _) | Some (JBool _) => ret 0
  end.

Section Model.

(** [Date.prototype.toISOString], a builtin of the language. *)
Context (toISOString : Date -> string).

(** [JSON.stringify(lhr)], read back by [JSON.parse]: a [Date] is written as
    its ISO string. *)
Definition JSON_stringify (o : LhrObj) : Json :=
  JObj (map (fun kv => (fst kv,
               match snd kv with
               | FJson j => j
               | FDate d => JStr (toISOString d)
               end)) o).

Definition report_file (name : string) : string := "lhrs/" +:+ name +:+ ".json".

(** [uploadReport(lhr, name)] writes the object as it is at the time of the
    call. *)
Definition uploadReport (lhr : nat) (name : string) : M unit :=
  let* o := lhr_object (Some lhr) in
  file_save (report_file name) (JSON_stringify (snd o)).

Definition getFullReport (url : string) : M Json :=
  file_download (report_file (slugify url)).

Definition updateLastViewed (url : string) : M unit :=
  let* now := new_Date in
  meta_set (slugify url) now.

(** [JSON.parse(JSON.stringify(lhr.categories))] *)
Definition clone_categories (o : LhrObj) : M Json :=
  match get_field "categories" o with
  | None => throw (SyntaxError "Unexpected token u in JSON at position 0")
  | Some (FJson j) => ret j
  | Some (FDate d) => ret (JStr (toISOString d))
  end.

(** [cat => { delete cat.auditRefs; return cat; }] *)
Definition strip_auditRefs (cat : Json) : M Json :=
  match cat with
  | JObj fs => ret (JObj (del_field "auditRefs" fs))
  | JNull => throw (TypeError "Cannot convert undefined or null to object")
  | _ => ret cat
  end.

(** [saveReport]: [lhr] is the caller's object, changed in place by
    [delete lhr.i18n] and [lhr.auditedOn = today]; [lastDoc] is
    [querySnapshot.docs[0]]. *)
Definition saveReport (url : string) (json : Payload) (replace : bool)
  : M RunData :=
  let* lhr := lhr_object (p_lhr json) in
  lhr_modify (fst lhr) (del_field "i18n") ;;
  let* categories := clone_categories (snd lhr) in
  let* values := Object_values categories in
  let* lhrSlim := mapM strip_auditRefs values in
  let* today := new_Date in
  let* crux_keys := Object_keys_length (p_crux json) in
  let data :=
    mkRunData lhrSlim today
              (if Nat.eqb crux_keys 0 then None else p_crux json) in
  let* docs := query_get (slugify url) ByAuditedOnDesc (Some 1) in
  let lastDoc := head docs in
  (match lastDoc with
   | None => memcache_delete "getAllSavedUrls"
   | Some _ => ret tt
   end) ;;
  lhr_modify (fst lhr) (set_field "auditedOn" (FDate today)) ;;
  uploadReport (fst lhr) (slugify url) ;;
  (match replace, lastDoc with
   | true, Some doc => ref_update (slugify url) (fst doc) data
   | _, _ => collection_add (slugify url) data
   end) ;;
  updateLastViewed url ;;
  promise_all2
    (memcache_delete ("getReports_" +:+ slugify url))
    (memcache_delete "getMedianScoresOfAllUrls") ;;
  ret data.

(** The value that [runLighthouseAPI] returns: the stored [data], or the
    object [json] (the API response if there is one, else [{}]) with its
    [errors] property set. *)
Inductive ApiResult : Type :=
| Saved (data : RunData)
| WithErrors (json : option Payload) (errors : string).

Definition errors_of (r : ApiResult) : option string :=
  match r with
  | Saved _ => None
  | WithErrors _ errors => Some errors
  end.

(** [v === s] for a string [s] *)
Definition strict_equal_string (v : option Json) (s : string) : bool :=
  match v with
  | Some (JStr s') => String.eqb s' s
  | _ => false
  end.

(** [if (json.lhr.runtimeError && json.lhr.runtimeError.code !== 'NO_ERROR')
    throw new Error(..)] *)
Definition check_runtimeError (json : Payload) : M unit :=
  let* lhr := lhr_object (p_lhr json) in
  let runtimeError := field_value <$> get_field "runtimeError" (snd lhr) in
  if truthy runtimeError then
    let* code := prop "code" (default JNull runtimeError) in
    if strict_equal_string code "NO_ERROR" then ret tt
    else
      let* message := prop "message" (default JNull runtimeError) in
      throw (Error (to_string code +:+ " " +:+ to_string message))
  else ret tt.

(** [replace] is [None] when the caller leaves the argument out. *)
Definition runLighthouseAPI (url : string) (replace : option bool)
  : M ApiResult :=
  let replace := default true replace in
  try_catch (api_audit url)
    (fun json =>
       try_catch (check_runtimeError json ;; saveReport url json replace)
         (fun data => ret (Saved data))
         (fun err => ret (WithErrors (Some json) (err_to_string err))))
    (fun err => ret (WithErrors None (err_to_string err))).

(** The destructuring parameter
    [{maxResults, useCache} = {maxResults: MAX_REPORTS, useCache: true}]:
    the default object stands in only when no argument is given. *)
Definition destructure_config (arg : option Config) : option nat * option bool :=
  match arg with
  | None => (Some MAX_REPORTS, Some true)
  | Some c => (maxResults c, useCache c)
  end.

(** The truth value of a [boolean=] variable; [undefined] is falsy. *)
Definition is_true (b : option bool) : bool := default false b.

(** [if (val && useCache) return val;]: a cached value is an array or an
    object, hence truthy. *)
Definition cache_hit (val : option CacheVal) (useCache : option bool)
  : option CacheVal :=
  if is_true useCache then val else None.

(** [{useCache} = {useCache: true}] *)
Definition getAllSavedUrls (arg : option (option bool)) : M CacheVal :=
  let useCache := match arg with None => Some true | Some c => c end in
  let* val := memcache_get "getAllSavedUrls" in
  match cache_hit val useCache with
  | Some v => ret v
  | None =>
      let* collections := getCollections in
      let urls := sort_by String.leb
        (map deslugify (List.filter (fun id => startsWith "http" id) collections)) in
      memcache_set "getAllSavedUrls" (CUrls urls) ;;
      ret (CUrls urls)
  end.

(** [scores[cat.id]] is created when absent, then [cat.score * 100] is
    pushed. Category ids are taken to be neither integer-like nor names
    that every object inherits. *)
Definition push_score (scores : list (string * list number)) (cat : Json)
  : M (list (string * list number)) :=
  let* id := prop "id" cat in
  let key := to_string id in
  let scores :=
    match get_field key scores with
    | None => set_field key [] scores
    | Some _ => scores
    end in
  let* score := prop "score" cat in
  ret (set_field key
         (default [] (get_field key scores) ++ [nmul (to_number score) (of_Z 100)])
         scores).

(** [maxResults = MAX_REPORTS]: a default parameter, used when the argument
    is [undefined]. *)
Definition getAllScores (url : string) (maxResults : option nat)
  : M (list (string * list number)) :=
  let maxResults := default MAX_REPORTS maxResults in
  let* docs := query_get (slugify url) ByAuditedOnDesc (Some maxResults) in
  let runs := reverse docs in
  foldM (fun scores doc => foldM push_score scores (d_lhrSlim (snd doc)))
        [] runs.

(** [Object.entries(scores).map(([cat, scores]) => medians[cat] =
    median(scores))] *)
Definition medians_of (scores : list (string * list number))
  : list (string * number) :=
  map (fun cs => (fst cs, median (snd cs))) scores.

Definition getMedianScores (url : string) (maxResults : option nat)
  : M (list (string * number)) :=
  let* scores := getAllScores url maxResults in
  ret (medians_of scores).

(** [combinedScores[cat].push(...scores)] for every category of one URL. *)
Definition combine_scores (combinedScores urlScores : list (string * list number))
  : list (string * list number) :=
  foldl (fun combined cs =>
           set_field (fst cs) (default [] (get_field (fst cs) combined) ++ snd cs)
                     combined)
        combinedScores urlScores.

(** [for (const url of urls)] over what [getAllSavedUrls] returned. *)
Definition urls_of (v : CacheVal) : M (list string) :=
  match v with
  | CUrls urls => ret urls
  | CMedians _ => throw (TypeError "urls is not iterable")
  | CReports [] => ret []
  | CReports (_ :: _) => throw (TypeError "url.replace is not a function")
  end.

(** The body of [getMedianScoresOfAllUrls] after the cache check. *)
Definition pooled_medians (maxResults : option nat) (useCache : option bool)
  : M CacheVal :=
  let* saved := getAllSavedUrls None in
  let* urls := urls_of saved in
  let* combinedScores :=
    foldM (fun combined url =>
             let* urlScores := getAllScores url maxResults in
             ret (combine_scores combined urlScores))
          [] urls in
  let medians := medians_of combinedScores in
  (if is_true useCache
   then memcache_set "getMedianScoresOfAllUrls" (CMedians medians)
   else ret tt) ;;
  ret (CMedians medians).

Definition getMedianScoresOfAllUrls (arg : option Config) : M CacheVal :=
  let '(maxResults, useCache) := destructure_config arg in
  let* val := memcache_get "getMedianScoresOfAllUrls" in
  match cache_hit val useCache with
  | Some v => ret v
  | None => pooled_medians maxResults useCache
  end.

(** The callback of [runs.map] in [getReports]. *)
Definition attach_lhr (lhr : Json) (doc : Doc) : M Report :=
  let auditedOn := Timestamp_toDate (d_auditedOn doc) in
  let* stored := prop "auditedOn" lhr in
  ret (mkReport (d_lhrSlim doc) auditedOn (d_crux doc)
         (if strict_equal_string stored (toISOString auditedOn)
          then Some lhr else None)).

(** The body of [getReports] after the cache check. *)
Definition fetch_reports (url : string) (maxResults : option nat)
  (useCache : option bool) : M CacheVal :=
  let* docs := query_get (slugify url) ByAuditedOnDesc maxResults in
  match docs with
  | [] => ret (CReports [])
  | _ :: _ =>
      let runs := reverse (map snd docs) in
      updateLastViewed url ;;
      let* lhr := getFullReport url in
      let* runs := mapM (attach_lhr lhr) runs in
      (if is_true useCache
       then memcache_set ("getReports_" +:+ slugify url) (CReports runs)
       else ret tt) ;;
      ret (CReports runs)
  end.

Definition getReports (url : string) (arg : option Config) : M CacheVal :=
  let '(maxResults, useCache) := destructure_config arg in
  let* val := memcache_get ("getReports_" +:+ slugify url) in
  match cache_hit val useCache with
  | Some v => updateLastViewed url ;; ret v
  | None => fetch_reports url maxResults useCache
  end.

(** [deleteBatch_]: one round per unit of [fuel]; [None] when the rounds are
    used up before the promise settles. The query is the collection id and
    the limit of [collectionRef.orderBy('__name__').limit(batchSize)]. *)
Fixpoint deleteBatch_ (fuel : nat) (query : string * nat) : M (option unit) :=
  match fuel with
  | O => ret None
  | S fuel' =>
      let* snapshot := query_get (fst query) ByName (Some (snd query)) in
      let* numDeleted :=
        if Nat.eqb (length snapshot) 0 then ret 0
        else batch_delete (fst query) (map fst snapshot) ;;
             ret (length snapshot) in
      if Nat.eqb numDeleted 0 then ret (Some tt)
      else deleteBatch_ fuel' query
  end.

Definition deleteReports (fuel : nat) (url : string) : M (option unit) :=
  let batchSize := 20 in
  deleteBatch_ fuel (slugify url, batchSize).

End Model.


(** ** Retention metadata *)

(** A call to the [meta] collection that the log has no event for: it fails
    when the world says the call with the current sequence number does, and
    it is not recorded. *)
Definition meta_call {A : Type} (f : World -> Res A * World) : M A :=
  fun w =>
    if faulty w (length (log w)) then (Throw StorageError, w) else f w.

(** [metaCollection.where('lastViewed', '<', cutoffDate).get()], then
    [doc.id] of every document of the snapshot. A query with an inequality
    filter gives its documents by the filtered field, ties by name. *)
Definition getUrlsLastViewedBefore (cutoffDate : Date) : M (list string) :=
  meta_call (fun w =>
    (Ok (map fst
           (sort_by (fun a b => (snd a <=? snd b)%Z)
              (sort_by (fun a b => String.leb (fst a) (fst b))
                 (List.filter (fun doc => (snd doc <? cutoffDate)%Z)
                              (map_to_list (meta w)))))), w)).

(** [db.collection('meta').doc(slugify(url)).delete()] *)
Definition deleteMetadata (url : string) : M unit :=
  meta_call (fun w => (Ok tt, set_meta (delete (slugify url)) w)).

(** * Definitions used in the statements *)

(** A computation that leaves the world as it is. *)
Definition pure {A : Type} (m : M A) : Prop :=
  forall w r w', m w = (r, w') -> w' = w.

(** No call to an external service fails. *)
Definition no_faults (w : World) : Prop := forall n, faulty w n = false.

(** The document that [saveReport] finds to be the last one of a URL. *)
Definition last_doc (w : World) (id : string) : option (nat * Doc) :=
  head (take 1 (run_order ByAuditedOnDesc (index_from 0 (collection w id)))).

(** The date of a run document, as [getReports] reads it. *)
Definition doc_time (d : Doc) : Date := Timestamp_toDate (d_auditedOn d).

(** An [lhr] object as [JSON.parse] delivers it: no property is a [Date]. *)
Definition json_data (o : LhrObj) : Prop :=
  forall k d, get_field k o <> Some (FDate d).

(** The sizes of the delete batches for [n] documents and batch size [b]:
    full batches, then what remains. *)
Definition batch_sizes (b n : nat) : list nat :=
  replicate (n / b) b ++ (if Nat.eqb (n mod b) 0 then [] else [n mod b]).

Definition batch_size (ev : Event) : option nat :=
  match ev with
  | EvBatchDelete _ n => Some n
  | _ => None
  end.

(** The sizes of the delete batches among the calls issued. *)
Definition delete_batches (evs : list Event) : list nat := omap batch_size evs.

Definition carries_lhr (r : Report) : bool :=
  match r_lhr r with
  | Some _ => true
  | None => false
  end.

(** [getReports] goes to the store: the cache is not to be used, or has no
    entry for the URL. *)
Definition not_cached (url : string) (arg : option Config) (w : World) : Prop :=
  is_true (snd (destructure_config arg)) = false \/
  memcache w !! ("getReports_" +:+ slugify url) = None.

(** [lhr.auditedOn] of a stored full report. *)
Definition stored_auditedOn (lhr : Json) : option Json :=
  match lhr with
  | JObj fs => get_field "auditedOn" fs
  | _ => None
  end.

(** The value of a computation that returned. *)
Definition returned {A : Type} (d : A) (r : Res A * World) : A :=
  match fst r with
  | Ok a => a
  | Throw _ => d
  end.

Section Reach.
Context (toISOString : Date -> string).

(** The stored full report carries the date [t] as its [auditedOn]. *)
Definition stored_at (t : Date) (blob : Json) : Prop :=
  exists fs, blob = JObj fs /\
    get_field "auditedOn" fs = Some (JStr (toISOString t)).

(** The invariant of the report store: for a URL with run documents, the
    full report in the bucket is the one of the run with the latest date,
    and no other run has that date. *)
Definition latest_report_ok (w : World) : Prop :=
  forall id, collection w id <> [] ->
    exists t blob,
      bucket w !! report_file id = Some blob /\ stored_at t blob /\
      (t <= clock w)%Z /\
      Forall (fun d => d_auditedOn d = Timestamp_fromDate (doc_time d) /\
                       (doc_time d <= t)%Z) (collection w id) /\
      length (List.filter (fun d => (doc_time d =? t)%Z) (collection w id)) = 1.

(** The worlds that the report store gets into: from an empty database, by
    calls of [saveReport] that return, each made at a later time than what
    went before, by calls of [deleteReports] that resolve, and by anything
    that leaves the database and the bucket alone. *)
Inductive reachable : World -> Prop :=
| reach_init w :
    db w = ∅ -> reachable w
| reach_frame w w' :
    reachable w -> db w' = db w -> bucket w' = bucket w ->
    (clock w <= clock w')%Z -> reachable w'
| reach_save w t url json replace data w' :
    reachable w -> (clock w < t)%Z ->
    saveReport toISOString url json replace (set_clock t w) = (Ok data, w') ->
    reachable w'
| reach_delete w fuel url w' :
    reachable w ->
    deleteReports fuel url w = (Ok (Some tt), w') ->
    reachable w'.

(** What [attach_lhr] makes of a run document when the stored full report
    has the ISO string [iso] as its [auditedOn]. *)
Definition report_of (lhr : Json) (iso : string) (doc : Doc) : Report :=
  mkReport (d_lhrSlim doc) (doc_time doc) (d_crux doc)
           (if String.eqb iso (toISOString (doc_time doc)) then Some lhr else None).

End Reach.

(** ** Frames and counts *)

(** What the callback [cat => { delete cat.auditRefs; return cat; }] returns
    when it returns. *)
Definition without_auditRefs (cat : Json) : Json :=
  match cat with
  | JObj fs => JObj (del_field "auditRefs" fs)
  | _ => cat
  end.

(** The stores of the world that are outside the process: the database, the
    bucket, memcache, and the log of the calls made to them. *)
Definition same_stores (w w' : World) : Prop :=
  db w' = db w /\ meta w' = meta w /\ bucket w' = bucket w /\
  memcache w' = memcache w /\ log w' = log w.

(** Every run of [m] takes a world to one that is related to it by [R],
    whether it returns or throws. *)
Definition respects {A : Type} (R : World -> World -> Prop) (m : M A) : Prop :=
  forall w r w', m w = (r, w') -> R w w'.

(** The database, the bucket and the payload objects are as they were. *)
Definition same_data (w w' : World) : Prop :=
  db w' = db w /\ bucket w' = bucket w /\ heap w' = heap w.

(** The calls issued on the way from [w] to [w']. *)
Definition issued (w w' : World) : list Event :=
  drop (length (log w)) (log w').

(** [getAllSavedUrls] goes to the database: the cache is not to be used, or
    has no list of URLs. *)
Definition urls_not_cached (arg : option (option bool)) (w : World) : Prop :=
  is_true (match arg with None => Some true | Some c => c end) = false \/
  memcache w !! "getAllSavedUrls" = None.

(** The number of scores in the sequences of all categories. *)
Definition total_scores (scores : list (string * list number)) : nat :=
  list_sum (map (fun cs => length (snd cs)) scores).

(** [cat.score] as a number, for a category read out of a run document. *)
Definition cat_score (cat : Json) : number :=
  match cat with
  | JObj fs => to_number (get_field "score" fs)
  | _ => NaN
  end.

(** A finite number: not [NaN]; there are no other numbers here that are
    not finite. *)
Definition finite (x : number) : Prop :=
  match x with
  | Num _ => True
  | NaN => False
  end.

(** A number from [lo] to [hi]. *)
Definition between (lo hi : Q) (x : number) : Prop :=
  match x with
  | Num q => (lo <= q)%Q /\ (q <= hi)%Q
  | NaN => False
  end.

(** ** Sample data *)

(** A rendering of time values that stands in for [toISOString] where a
    concrete one is needed: the decimal digits of the time value. *)
Definition ms_digits (d : Date) : string := int_digits d.

(** A world with empty stores, a clock at [0], calls that do not fail, and
    an audit API that is out of service. *)
Definition quiet_world : World :=
  mkWorld ∅ ∅ ∅ ∅ [] 0%Z (fun _ => Throw (Error "unavailable"))
          (fun _ => false) [].

Definition sample_category (id : string) (score : Q) : Json :=
  JObj [("id", JStr id); ("title", JStr "Performance"); ("score", JNum score);
        ("auditRefs", JArr [JObj [("id", JStr "first-contentful-paint")]])].

Definition sample_lhr (score : Q) : LhrObj :=
  [("requestedUrl", FJson (JStr "https://example.com/"));
   ("i18n", FJson (JObj [("rendererFormattedStrings", JObj [])]));
   ("categories",
    FJson (JObj [("performance", sample_category "performance" score)]))].

Definition sample_run (score : Q) (t : Date) : Doc :=
  mkDoc [JObj [("id", JStr "performance"); ("title", JStr "Performance");
               ("score", JNum score)]]
        (Timestamp_fromDate t) None.

(** Two URLs: one run with score 0.8 for the first, runs with scores 0.9
    and 1 for the second. *)
Definition two_urls_world : World :=
  Eval vm_compute in
  set_db (fun _ => <["http:____a.example__" := [sample_run (8 # 10) 1000]]>
                   (<["http:____b.example__" :=
                        [sample_run (9 # 10) 2000; sample_run 1 3000]]> ∅))
         quiet_world.

(** A URL with 45 run documents. *)
Definition many_runs_world : World :=
  Eval vm_compute in
  set_db (fun _ => <["http:____a.example__" :=
                       map (fun t => sample_run 1 (Z.of_nat t)) (seq 0 45)]> ∅)
         quiet_world.

(** A heap with three payloads. *)
Definition payload_world : World :=
  set_heap (fun _ => [sample_lhr (8 # 10); sample_lhr (9 # 10); sample_lhr 1])
           quiet_world.

Definition sample_payload (l : nat) : Payload :=
  mkPayload (Some l) (Some (JObj [])).

(** Two saves for one URL, the second at a later time and as a new run. *)
Definition after_first_save : World :=
  Eval vm_compute in
  snd (saveReport ms_digits "http://b.example/" (sample_payload 0) true
         (set_clock 1000 payload_world)).

Definition after_second_save : World :=
  Eval vm_compute in
  snd (saveReport ms_digits "http://b.example/" (sample_payload 1) false
         (set_clock 2000 after_first_save)).

(** The world after [getReports] with no configuration has filled the cache
    for the URL. *)
Definition cached_world : World :=
  Eval vm_compute in
  snd (getReports ms_digits "http://b.example/" None
         (set_clock 3000 after_second_save)).

(** Two saves for one URL within the same millisecond, both as new runs. *)
Definition after_simultaneous_saves : World :=
  Eval vm_compute in
  snd (saveReport ms_digits "http://b.example/" (sample_payload 1) false
         (set_clock 1000 after_first_save)).

(** The store after the first save, at a later time, where the third
    external call from here on fails: for a save with a prior run these
    calls are the query, the upload and the [add]. *)
Definition failing_add_world : World :=
  mkWorld (db after_first_save) (meta after_first_save)
          (bucket after_first_save) (memcache after_first_save)
          (heap after_first_save) 2000%Z (api after_first_save)
          (fun n => Nat.eqb n (length (log after_first_save) + 2))
          (log after_first_save).

(** A save that uploads the full report and then fails to add the run. *)
Definition after_failed_add : World :=
  Eval vm_compute in
  snd (saveReport ms_digits "http://b.example/" (sample_payload 1) false
         failing_add_world).

(** A payload with field data. *)
Definition crux_payload (l : nat) : Payload :=
  mkPayload (Some l) (Some (JObj [("record", JObj [("key", JStr "origin")])])).

(** A first save that carries field data. *)
Definition after_crux_save : World :=
  Eval vm_compute in
  snd (saveReport ms_digits "http://b.example/" (crux_payload 0) true
         (set_clock 1000 payload_world)).

(** The list of URLs is in the cache after [getAllSavedUrls] has run. *)
Definition urls_cached_world : World :=
  Eval vm_compute in snd (getAllSavedUrls None two_urls_world).

(** An audit API that answers with a report which carries a run-time
    error. *)
Definition failed_audit_lhr : LhrObj :=
  [("requestedUrl", FJson (JStr "http://a.example/"));
   ("runtimeError",
    FJson (JObj [("code", JStr "NO_FCP");
                 ("message", JStr "The page did not paint any content.")]));
   ("i18n", FJson (JObj []));
   ("categories", FJson (JObj []))].

Definition failed_audit_world : World :=
  mkWorld (db two_urls_world) ∅ ∅ ∅ [] 5000%Z
          (fun _ => Ok (Some failed_audit_lhr, Some (JObj [])))
          (fun _ => false) [].

(** * Properties *)

(** ** Identifier codec *)

Lemma includes_cons sub c s :
  includes sub (String c s) = false ->
  startsWith sub (String c s) = false /\ includes sub s = false.
Proof.
  simpl includes. intros H. apply orb_false_iff in H. exact H.
Qed.

Lemma deslugify_step c c' s :
  Ascii.eqb c "_" && Ascii.eqb c' "_" = false ->
  deslugify (String c (String c' s)) = String c (deslugify (String c' s)).
Proof. intros H. simpl. rewrite H. reflexivity. Qed.

Lemma deslugify_slugify (u : string) :
  includes "__" u = false -> includes "_/" u = false ->
  deslugify (slugify u) = u.
Proof.
  induction u as [|c rest IH]; [reflexivity|].
  intros H1 H2.
  apply includes_cons in H1 as [P1 I1]. apply includes_cons in H2 as [P2 I2].
  specialize (IH I1 I2).
  cbn [slugify]. destruct (Ascii.eqb_spec c "/") as [->|Hc].
  - cbn. now rewrite IH.
  - destruct rest as [|d rest2]; [reflexivity|].
    assert (E : exists c' s', slugify (String d rest2) = String c' s' /\
                  Ascii.eqb c "_" && Ascii.eqb c' "_" = false).
    { cbn [slugify]. destruct (Ascii.eqb_spec d "/") as [->|Hd].
      - exists "_"%char. eexists. split; [reflexivity|].
        destruct (Ascii.eqb_spec c "_") as [->|]; [|reflexivity].
        cbn in P2. discriminate.
      - exists d, (slugify rest2). split; [reflexivity|].
        destruct (Ascii.eqb_spec c "_") as [->|]; [|reflexivity].
        destruct (Ascii.eqb_spec d "_") as [->|]; [|reflexivity].
        cbn in P1. discriminate. }
    destruct E as (c' & s' & E & Hne).
    rewrite E in *. rewrite (deslugify_step _ _ _ Hne). now rewrite IH.
Qed.

Lemma slugify_injective (u v : string) :
  includes "__" u = false -> includes "_/" u = false ->
  includes "__" v = false -> includes "_/" v = false ->
  slugify u = slugify v -> u = v.
Proof.
  intros Hu1 Hu2 Hv1 Hv2 E.
  rewrite <- (deslugify_slugify u Hu1 Hu2), <- (deslugify_slugify v Hv1 Hv2).
  now rewrite E.
Qed.

Lemma includes2_cons a b c s :
  includes (String a (String b "")) (String c s)
  = Ascii.eqb a c && startsWith (String b "") s
    || includes (String a (String b "")) s.
Proof. reflexivity. Qed.

Lemma startsWith1_cons b d s :
  startsWith (String b "") (String d s) = Ascii.eqb b d.
Proof. cbn [startsWith]. apply andb_true_r. Qed.

(** The two exclusions are needed: a URL that [deslugify] gives back has
    neither [__] nor an underscore right before a slash. *)
Lemma deslugify_slugify_only_if (u : string) :
  deslugify (slugify u) = u ->
  includes "__" u = false /\ includes "_/" u = false.
Proof.
  induction u as [|c rest IH]; [intros _; split; reflexivity|].
  rewrite !includes2_cons.
  cbn [slugify]. destruct (Ascii.eqb_spec c "/") as [->|Hc].
  - cbn [deslugify]. cbn [Ascii.eqb Bool.eqb andb orb].
    intros [= E]. apply IH in E. exact E.
  - destruct rest as [|d rest2].
    + intros _. cbn [startsWith includes]. rewrite !andb_false_r.
      split; reflexivity.
    + rewrite !startsWith1_cons.
      destruct (Ascii.eqb_spec c "_") as [->|Hc'].
      * cbn [slugify].
        destruct (Ascii.eqb_spec d "/") as [->|Hd]; [cbn; discriminate|].
        destruct (Ascii.eqb_spec d "_") as [->|Hd']; [cbn; discriminate|].
        rewrite deslugify_step
          by (destruct (Ascii.eqb_spec d "_"); [contradiction|reflexivity]).
        intros [= E].
        assert (E' : deslugify (slugify (String d rest2)) = String d rest2).
        { cbn [slugify]. destruct (Ascii.eqb_spec d "/"); [contradiction|exact E]. }
        apply IH in E' as [I1 I2]. rewrite I1, I2.
        destruct (Ascii.eqb_spec "_" d); [congruence|].
        destruct (Ascii.eqb_spec "/" d); [congruence|].
        split; reflexivity.
      * remember (slugify (String d rest2)) as t eqn:Et.
        destruct t as [|c' s'].
        { cbn in Et. destruct (Ascii.eqb d "/"); discriminate. }
        rewrite deslugify_step
          by (destruct (Ascii.eqb_spec c "_"); [contradiction|reflexivity]).
        intros [= E]. apply IH in E as [I1 I2]. rewrite I1, I2.
        destruct (Ascii.eqb_spec "_" c); [congruence|].
        split; reflexivity.
Qed.

(** C4 (amended). For URLs that contain neither [__] nor an underscore
    right before a slash, [deslugify] undoes [slugify], and [slugify] maps
    no two of them to the same identifier. *)
Theorem slugify_roundtrip (u v : string) :
  includes "__" u = false -> includes "_/" u = false ->
  includes "__" v = false -> includes "_/" v = false ->
  deslugify (slugify u) = u /\ (slugify u = slugify v -> u = v).
Proof.
  intros Hu1 Hu2 Hv1 Hv2. split.
  - now apply deslugify_slugify.
  - now apply slugify_injective.
Qed.

Lemma slugify_roundtrip_witness :
  includes "__" "https://example.com/a_b/" = false /\
  includes "_/" "https://example.com/a_b/" = false /\
  includes "__" "https://example.com/a_b" = false /\
  includes "_/" "https://example.com/a_b" = false /\
  deslugify (slugify "https://example.com/a_b/") = "https://example.com/a_b/" /\
  (slugify "https://example.com/a_b/" = slugify "https://example.com/a_b" ->
   "https://example.com/a_b/" = "https://example.com/a_b").
Proof.
  repeat (split; [reflexivity|]).
  apply (slugify_roundtrip "https://example.com/a_b/" "https://example.com/a_b");
    reflexivity.
Defined.

(** C4, as the specification has it, fails: two URLs without [__], one with
    an underscore right before a slash, get the same identifier, and
    [deslugify] gives back the other one. *)
Lemma slugify_collision :
  includes "__" "https://example.com/a_/b" = false /\
  includes "__" "https://example.com/a/_b" = false /\
  "https://example.com/a_/b" <> "https://example.com/a/_b" /\
  slugify "https://example.com/a_/b" = slugify "https://example.com/a/_b" /\
  deslugify (slugify "https://example.com/a_/b") = "https://example.com/a/_b" /\
  deslugify (slugify "https://example.com/a_/b") <> "https://example.com/a_/b".
Proof.
  split; [vm_compute; reflexivity|]. split; [vm_compute; reflexivity|].
  split; [apply String.eqb_neq; vm_compute; reflexivity|].
  split; [vm_compute; reflexivity|]. split; [vm_compute; reflexivity|].
  apply String.eqb_neq. vm_compute. reflexivity.
Qed.

(** ** Reasoning about the monad *)

Lemma bind_ok {A B} (m : M A) (k : A -> M B) w b w' :
  bind m k w = (Ok b, w') ->
  exists a w1, m w = (Ok a, w1) /\ k a w1 = (Ok b, w').
Proof.
  unfold bind. destruct (m w) as [[a|e] w1]; [eauto|discriminate].
Qed.

Lemma io_ok {A} ev (f : World -> Res A * World) w a w' :
  io ev f w = (Ok a, w') ->
  faulty w (length (log w)) = false /\ f (add_event ev w) = (Ok a, w').
Proof.
  unfold io. destruct (faulty w (length (log w))); [discriminate|]. auto.
Qed.

Lemma pure_ret {A} (a : A) : pure (ret a).
Proof. intros w r w' H. now inversion H. Qed.

Lemma pure_throw {A} e : pure (@throw A e).
Proof. intros w r w' H. now inversion H. Qed.

Lemma pure_bind {A B} (m : M A) (k : A -> M B) :
  pure m -> (forall a, pure (k a)) -> pure (bind m k).
Proof.
  intros Hm Hk w r w'. unfold bind.
  destruct (m w) as [[a|e] w1] eqn:E; intros H.
  - apply Hk in H. apply Hm in E. congruence.
  - apply Hm in E. congruence.
Qed.

Lemma pure_mapM {A B} (f : A -> M B) l :
  (forall a, pure (f a)) -> pure (mapM f l).
Proof.
  intros Hf. induction l as [|x l IH]; simpl.
  - apply pure_ret.
  - apply pure_bind; [apply Hf|]. intros y.
    apply pure_bind; [exact IH|]. intros ys. apply pure_ret.
Qed.

Lemma pure_foldM {A B} (f : B -> A -> M B) l b :
  (forall b a, pure (f b a)) -> pure (foldM f b l).
Proof.
  intros Hf. revert b. induction l as [|x l IH]; intros b; simpl.
  - apply pure_ret.
  - apply pure_bind; [apply Hf|]. intros b'. apply IH.
Qed.

Create HintDb pure discriminated.
#[export] Hint Resolve pure_ret pure_throw pure_bind pure_mapM pure_foldM : pure.

Lemma pure_prop k v : pure (prop k v).
Proof. destruct v; cbn; auto with pure. Qed.

Lemma pure_Object_values v : pure (Object_values v).
Proof. destruct v; cbn; auto with pure. Qed.

Lemma pure_strip_auditRefs v : pure (strip_auditRefs v).
Proof. destruct v; cbn; auto with pure. Qed.

Lemma pure_Object_keys_length v : pure (Object_keys_length v).
Proof. destruct v as [[]|]; cbn; auto with pure. Qed.

Lemma pure_new_Date : pure new_Date.
Proof. intros w r w' H. now inversion H. Qed.

Lemma pure_lhr_object l : pure (lhr_object l).
Proof.
  intros w r w'. unfold lhr_object.
  destruct l as [l|]; [destruct (heap w !! l)|]; intros H; now inversion H.
Qed.

Lemma lhr_object_ok lhr w l o w' :
  lhr_object lhr w = (Ok (l, o), w') ->
  lhr = Some l /\ heap w !! l = Some o /\ w' = w.
Proof.
  unfold lhr_object. destruct lhr as [l0|]; [|discriminate].
  destruct (heap w !! l0) eqn:E; [|discriminate].
  intros H. inversion H; subst. auto.
Qed.

Lemma new_Date_ok w t w' : new_Date w = (Ok t, w') -> t = clock w /\ w' = w.
Proof. intros H. inversion H. auto. Qed.

Lemma pure_clone_categories toISOString o :
  pure (clone_categories toISOString o).
Proof.
  unfold clone_categories.
  destruct (get_field "categories" o) as [[]|]; auto with pure.
Qed.

#[export] Hint Resolve pure_prop pure_Object_values pure_strip_auditRefs
  pure_Object_keys_length pure_new_Date pure_lhr_object
  pure_clone_categories : pure.

(** [bind_pure H x]: in [H : (let* x := m in k) w = (Ok b, w')] with [m]
    pure, names the value of [m] and goes on with [k] in the same world. *)
Ltac bind_pure H x :=
  let w1 := fresh "w" in
  let Hx := fresh "H" in
  apply bind_ok in H as (x & w1 & Hx & H);
  match type of Hx with
  | ?m _ = _ =>
      let P := fresh "P" in
      assert (P : pure m) by auto with pure;
      apply P in Hx; clear P; subst w1
  end.

Lemma query_get_ok id o limit w docs w' :
  query_get id o limit w = (Ok docs, w') ->
  exists n, limit = Some n /\
    docs = take n (run_order o (index_from 0 (collection w id))) /\
    w' = add_event (EvQuery id o n) w.
Proof.
  unfold query_get. destruct limit as [n|]; [|discriminate].
  intros H. apply io_ok in H as [_ H]. inversion H. eauto.
Qed.

Lemma memcache_delete_ok key w u w' :
  memcache_delete key w = (Ok u, w') ->
  w' = set_memcache (delete key) (add_event (EvCacheDelete key) w).
Proof. intros H. apply io_ok in H as [_ H]. now inversion H. Qed.

Lemma memcache_set_ok key v w u w' :
  memcache_set key v w = (Ok u, w') ->
  w' = set_memcache (insert key v) (add_event (EvCacheSet key) w).
Proof. intros H. apply io_ok in H as [_ H]. now inversion H. Qed.

Lemma memcache_get_ok key w v w' :
  memcache_get key w = (Ok v, w') ->
  v = memcache w !! key /\ w' = add_event (EvCacheGet key) w.
Proof. intros H. apply io_ok in H as [_ H]. now inversion H. Qed.

Lemma file_save_ok name content w u w' :
  file_save name content w = (Ok u, w') ->
  w' = set_bucket (insert name content) (add_event (EvUpload name) w).
Proof. intros H. apply io_ok in H as [_ H]. now inversion H. Qed.

Lemma file_download_ok name w content w' :
  file_download name w = (Ok content, w') ->
  bucket w !! name = Some content /\ w' = add_event (EvDownload name) w.
Proof.
  intros H. apply io_ok in H as [_ H]. cbn in H.
  destruct (bucket w !! name); inversion H; auto.
Qed.

Lemma collection_add_ok id data w u w' :
  collection_add id data w = (Ok u, w') ->
  w' = set_db (insert id (collection w id ++ [doc_of_data data]))
              (add_event (EvAdd id) w).
Proof. intros H. apply io_ok in H as [_ H]. now inversion H. Qed.

Lemma ref_update_ok id i data w u w' :
  ref_update id i data w = (Ok u, w') ->
  w' = set_db (insert id (alter (doc_update data) i (collection w id)))
              (add_event (EvUpdate id i) w).
Proof. intros H. apply io_ok in H as [_ H]. now inversion H. Qed.

Lemma batch_delete_ok id refs w u w' :
  batch_delete id refs w = (Ok u, w') ->
  w' = set_db (insert id
         (map snd (List.filter (fun p => negb (bool_decide (fst p ∈ refs)))
                               (index_from 0 (collection w id)))))
         (add_event (EvBatchDelete id (length refs)) w).
Proof. intros H. apply io_ok in H as [_ H]. now inversion H. Qed.

Lemma meta_set_ok id t w u w' :
  meta_set id t w = (Ok u, w') ->
  w' = set_meta (insert id t) (add_event (EvSetMeta id) w).
Proof. intros H. apply io_ok in H as [_ H]. now inversion H. Qed.

Lemma updateLastViewed_ok url w u w' :
  updateLastViewed url w = (Ok u, w') ->
  w' = set_meta (insert (slugify url) (clock w))
                (add_event (EvSetMeta (slugify url)) w).
Proof.
  unfold updateLastViewed. intros H.
  apply bind_ok in H as (t & w1 & Ht & H).
  apply new_Date_ok in Ht as [-> ->]. now apply meta_set_ok in H.
Qed.

Lemma promise_all2_ok m1 m2 w u w' :
  promise_all2 m1 m2 w = (Ok u, w') ->
  exists u1 w1 u2, m1 w = (Ok u1, w1) /\ m2 w1 = (Ok u2, w').
Proof.
  unfold promise_all2.
  destruct (m1 w) as [r1 w1]. destruct (m2 w1) as [r2 w2] eqn:E2.
  destruct r1, r2; intros H; inversion H; subst; eauto.
Qed.

Lemma lhr_modify_ok l f w u w' :
  lhr_modify l f w = (Ok u, w') -> w' = set_heap (alter f l) w.
Proof. intros H. now inversion H. Qed.

Section SaveFacts.
Context (toISOString : Date -> string).

Lemma uploadReport_ok l name w u w' :
  uploadReport toISOString l name w = (Ok u, w') ->
  exists o, heap w !! l = Some o /\
    w' = set_bucket (insert (report_file name) (JSON_stringify toISOString o))
                    (add_event (EvUpload (report_file name)) w).
Proof.
  unfold uploadReport. intros H.
  apply bind_ok in H as ([l' o] & w1 & Ho & H).
  apply lhr_object_ok in Ho as (E & Ho & ->). inversion E; subst l'.
  apply file_save_ok in H. eauto.
Qed.

(** The world after a call of [saveReport] that returns. *)
Lemma saveReport_ok url json replace w data w' :
  saveReport toISOString url json replace w = (Ok data, w') ->
  let id := slugify url in
  exists l o,
    p_lhr json = Some l /\ heap w !! l = Some o /\
    auditedOn data = clock w /\
    db w' = <[id := match replace, last_doc w id with
                   | true, Some doc => alter (doc_update data) (fst doc) (collection w id)
                   | _, _ => collection w id ++ [doc_of_data data]
                   end]> (db w) /\
    memcache w' =
      delete "getMedianScoresOfAllUrls"
        (delete ("getReports_" +:+ id)
           (match last_doc w id with
            | None => delete "getAllSavedUrls" (memcache w)
            | Some _ => memcache w
            end)) /\
    heap w' = alter (set_field "auditedOn" (FDate (clock w))) l
                (alter (del_field "i18n") l (heap w)) /\
    bucket w' =
      <[report_file id :=
          JSON_stringify toISOString
            (set_field "auditedOn" (FDate (clock w)) (del_field "i18n" o))]>
        (bucket w) /\
    meta w' = <[id := clock w]> (meta w) /\
    clock w' = clock w /\
    log w' =
      log w ++
      EvQuery id ByAuditedOnDesc 1 ::
      match last_doc w id with
      | None => [EvCacheDelete "getAllSavedUrls"]
      | Some _ => []
      end ++
      [EvUpload (report_file id);
       match replace, last_doc w id with
       | true, Some doc => EvUpdate id (fst doc)
       | _, _ => EvAdd id
       end;
       EvSetMeta id;
       EvCacheDelete ("getReports_" +:+ id);
       EvCacheDelete "getMedianScoresOfAllUrls"].
Proof.
  intros H id. unfold saveReport in H.
  apply bind_ok in H as ([l o] & w1 & Hl & H).
  apply lhr_object_ok in Hl as (Hl & Ho & ->).
  apply bind_ok in H as (? & w2 & H2 & H). apply lhr_modify_ok in H2. subst w2.
  bind_pure H cats. bind_pure H vals. bind_pure H slim.
  apply bind_ok in H as (today & w6 & H6 & H). apply new_Date_ok in H6 as [-> ->].
  bind_pure H nk.
  apply bind_ok in H as (docs & w8 & H8 & H).
  apply query_get_ok in H8 as (n & En & -> & ->). inversion En; subst n.
  fold id in H. 
  change (head (take 1 (run_order ByAuditedOnDesc (index_from 0
            (collection (set_heap (alter (del_field "i18n") (l, o).1) w) id)))))
    with (last_doc w id) in H.
  cbn [fst snd] in H. clear En.
  apply bind_ok in H as (? & w9 & H9 & H).
  apply bind_ok in H as (? & w10 & H10 & H). apply lhr_modify_ok in H10.
  apply bind_ok in H as (? & w11 & H11 & H).
  apply uploadReport_ok in H11 as (o' & Ho' & H11).
  apply bind_ok in H as (? & w12 & H12 & H).
  apply bind_ok in H as (? & w13 & H13 & H). apply updateLastViewed_ok in H13.
  apply bind_ok in H as (? & w14 & H14 & H).
  apply promise_all2_ok in H14 as (? & w15 & ? & Ha & Hb).
  apply memcache_delete_ok in Ha, Hb.
  inversion H; subst data w'. clear H.
  exists l, o. split; [exact Hl|]. split; [exact Ho|].
  assert (Eo' : o' = set_field "auditedOn" (FDate (clock w)) (del_field "i18n" o)).
  { subst w10. destruct (last_doc w id).
    - inversion H9; subst w9. cbn in Ho'.
      rewrite !list_lookup_alter_eq, Ho in Ho'. cbn in Ho'. congruence.
    - apply memcache_delete_ok in H9. subst w9. cbn in Ho'.
      rewrite !list_lookup_alter_eq, Ho in Ho'. cbn in Ho'. congruence. }
  subst o'.
  destruct (last_doc w id) as [doc|] eqn:Elast.
  - inversion H9; subst w9. clear H9.
    destruct replace.
    + apply ref_update_ok in H12. subst. cbn. rewrite <- !app_assoc.
      repeat split; reflexivity.
    + apply collection_add_ok in H12. subst. cbn. rewrite <- !app_assoc.
      repeat split; reflexivity.
  - apply memcache_delete_ok in H9.
    assert (H12' : w12 = set_db (insert id (collection w11 id ++
        [doc_of_data (mkRunData slim (clock w)
           (if (nk =? 0)%nat then None else p_crux json))]))
        (add_event (EvAdd id) w11)).
    { destruct replace; now apply collection_add_ok in H12. }
    clear H12. subst. cbn. rewrite <- !app_assoc.
    destruct replace; repeat split; reflexivity.
Qed.
End SaveFacts.

(** ** Sorting *)

Section SortFacts.
Context {A : Type} (le : A -> A -> bool).
Hypothesis le_total : forall a b, le a b = true \/ le b a = true.
Hypothesis le_trans : forall a b c, le a b = true -> le b c = true -> le a c = true.

Lemma insert_sorted_Permutation x l : Permutation (insert_sorted le x l) (x :: l).
Proof.
  induction l as [|y l IH]; simpl; [reflexivity|].
  destruct (le x y); [reflexivity|].
  rewrite IH. apply perm_swap.
Qed.

Lemma sort_by_Permutation l : Permutation (sort_by le l) l.
Proof.
  induction l as [|x l IH]; simpl; [reflexivity|].
  unfold sort_by in *. rewrite insert_sorted_Permutation. now constructor.
Qed.

Lemma insert_sorted_StronglySorted x l :
  StronglySorted (fun a b => le a b = true) l ->
  StronglySorted (fun a b => le a b = true) (insert_sorted le x l).
Proof.
  induction 1 as [|y l Hs IH Hy]; simpl.
  - repeat constructor.
  - destruct (le x y) eqn:E.
    + constructor; [now constructor|]. constructor; [exact E|].
      eapply Forall_impl; [exact Hy|]. intros z Hz. cbn in Hz. eauto.
    + constructor; [exact IH|].
      apply (Permutation_Forall (Permutation_sym (insert_sorted_Permutation x l))).
      constructor; [|exact Hy].
      destruct (le_total x y); congruence.
Qed.

Lemma sort_by_StronglySorted l :
  StronglySorted (fun a b => le a b = true) (sort_by le l).
Proof.
  induction l as [|x l IH]; simpl; [constructor|].
  apply insert_sorted_StronglySorted. exact IH.
Qed.

(** The first element of the sorted list comes before every element. *)
Lemma sort_by_head x rest l :
  sort_by le l = x :: rest -> forall y, y ∈ l -> le x y = true.
Proof.
  intros E y Hy.
  pose proof (sort_by_StronglySorted l) as Hs. rewrite E in Hs.
  apply StronglySorted_inv in Hs as [_ Hall].
  rewrite <- (sort_by_Permutation l), E in Hy.
  apply elem_of_cons in Hy as [->|Hy].
  - destruct (le_total x x); assumption.
  - rewrite Forall_forall in Hall. now apply Hall.
Qed.

End SortFacts.

Lemma sort_by_nil {A} (le : A -> A -> bool) l : sort_by le l = [] -> l = [].
Proof.
  intros E. pose proof (sort_by_Permutation le l) as P. rewrite E in P.
  now apply Permutation_nil in P.
Qed.

Lemma Timestamp_leb_total a b :
  Timestamp_leb a b = true \/ Timestamp_leb b a = true.
Proof.
  unfold Timestamp_leb.
  destruct (Z.ltb_spec (_seconds a) (_seconds b)), (Z.ltb_spec (_seconds b) (_seconds a)),
    (Z.eqb_spec (_seconds a) (_seconds b)), (Z.eqb_spec (_seconds b) (_seconds a)),
    (Z.leb_spec (_nanoseconds a) (_nanoseconds b)),
    (Z.leb_spec (_nanoseconds b) (_nanoseconds a)); cbn; auto; lia.
Qed.

Lemma Timestamp_leb_trans a b c :
  Timestamp_leb a b = true -> Timestamp_leb b c = true -> Timestamp_leb a c = true.
Proof.
  unfold Timestamp_leb.
  destruct (Z.ltb_spec (_seconds a) (_seconds b)), (Z.ltb_spec (_seconds b) (_seconds c)),
    (Z.ltb_spec (_seconds a) (_seconds c)),
    (Z.eqb_spec (_seconds a) (_seconds b)), (Z.eqb_spec (_seconds b) (_seconds c)),
    (Z.eqb_spec (_seconds a) (_seconds c)),
    (Z.leb_spec (_nanoseconds a) (_nanoseconds b)),
    (Z.leb_spec (_nanoseconds b) (_nanoseconds c)),
    (Z.leb_spec (_nanoseconds a) (_nanoseconds c)); cbn; auto; try lia; discriminate.
Qed.

(** ** Places in a collection *)

Lemma elem_of_index_from {A} (l : list A) k i x :
  (i, x) ∈ index_from k l <-> k <= i /\ l !! (i - k) = Some x.
Proof.
  revert k. induction l as [|y l IH]; intros k; simpl.
  - rewrite elem_of_nil. split; [tauto|]. intros [_ H]. discriminate.
  - rewrite elem_of_cons, IH. split.
    + intros [E|[Hk Hl]].
      * inversion E; subst. rewrite Nat.sub_diag. split; [lia|reflexivity].
      * split; [lia|]. replace (i - k) with (S (i - S k)) by lia. exact Hl.
    + intros [Hk Hl]. destruct (decide (i = k)) as [->|Hne].
      * left. rewrite Nat.sub_diag in Hl. cbn in Hl. congruence.
      * right. split; [lia|]. replace (i - k) with (S (i - S k)) in Hl by lia.
        exact Hl.
Qed.

Lemma map_snd_index_from {A} (l : list A) k : map snd (index_from k l) = l.
Proof. revert k. induction l; intros k; simpl; [|rewrite IHl]; reflexivity. Qed.

Lemma last_doc_None w id : last_doc w id = None <-> collection w id = [].
Proof.
  unfold last_doc. cbn [run_order].
  set (s := sort_by _ _).
  split.
  - intros H. destruct s as [|x s'] eqn:E; [|discriminate].
    apply sort_by_nil in E.
    destruct (collection w id); [reflexivity|].
    apply (f_equal length) in E. rewrite length_reverse in E. discriminate.
  - intros H. subst s. rewrite H. reflexivity.
Qed.

Lemma last_doc_Some w id i last :
  last_doc w id = Some (i, last) ->
  collection w id !! i = Some last /\
  forall d, d ∈ collection w id ->
    Timestamp_leb (d_auditedOn d) (d_auditedOn last) = true.
Proof.
  unfold last_doc. cbn [run_order].
  set (le := fun a b : nat * Doc =>
               Timestamp_leb (d_auditedOn (snd b)) (d_auditedOn (snd a))).
  destruct (sort_by le _) as [|x s'] eqn:E; [discriminate|].
  cbn. intros H. inversion H; subst x. clear H.
  split.
  - assert (Hin : (i, last) ∈ index_from 0 (collection w id)).
    { rewrite <- reverse_Permutation, <- (sort_by_Permutation le), E. left. }
    apply elem_of_index_from in Hin as [_ Hin]. now rewrite Nat.sub_0_r in Hin.
  - intros d Hd. apply list_elem_of_lookup in Hd as [j Hj].
    apply (sort_by_head le (fun a b => Timestamp_leb_total _ _)
             (fun a b c H1 H2 => Timestamp_leb_trans _ _ _ H2 H1) _ _ _ E (j, d)).
    rewrite reverse_Permutation. apply elem_of_index_from.
    split; [lia|]. now rewrite Nat.sub_0_r.
Qed.

(** ** Properties of objects *)

Section FieldFacts.
Context {V : Type}.
Implicit Types (fs : list (string * V)) (k : string).

Lemma get_field_del_field_eq k fs : get_field k (del_field k fs) = None.
Proof.
  induction fs as [|[k' v] fs IH]; simpl; [reflexivity|].
  destruct (String.eqb k' k) eqn:E; [exact IH|].
  simpl. now rewrite E.
Qed.

Lemma get_field_del_field_ne k k' fs :
  k <> k' -> get_field k' (del_field k fs) = get_field k' fs.
Proof.
  intros Hne. induction fs as [|[k0 v] fs IH]; simpl; [reflexivity|].
  destruct (String.eqb_spec k0 k) as [->|Hk].
  - rewrite IH. destruct (String.eqb_spec k k'); [contradiction|reflexivity].
  - simpl. now rewrite IH.
Qed.

Lemma get_field_set_field_eq k v fs : get_field k (set_field k v fs) = Some v.
Proof.
  induction fs as [|[k' v'] fs IH]; simpl.
  - now rewrite String.eqb_refl.
  - destruct (String.eqb k' k) eqn:E; simpl; now rewrite E.
Qed.

Lemma get_field_set_field_ne k k' v fs :
  k <> k' -> get_field k' (set_field k v fs) = get_field k' fs.
Proof.
  intros Hne. induction fs as [|[k0 v0] fs IH]; simpl.
  - destruct (String.eqb_spec k k'); [contradiction|reflexivity].
  - destruct (String.eqb_spec k0 k) as [->|Hk]; simpl.
    + destruct (String.eqb_spec k k'); [contradiction|reflexivity].
    + now rewrite IH.
Qed.

End FieldFacts.


Lemma collection_insert w w' id docs :
  db w' = <[id := docs]> (db w) -> collection w' id = docs.
Proof. unfold collection. intros ->. now rewrite lookup_insert_eq. Qed.

Lemma collection_insert_ne w w' id id' docs :
  db w' = <[id := docs]> (db w) -> id <> id' ->
  collection w' id' = collection w id'.
Proof. unfold collection. intros -> H. now rewrite lookup_insert_ne. Qed.

Section StoreProperties.
Context (toISOString : Date -> string).


Lemma getReports_key_ne_urls id : "getReports_" +:+ id <> "getAllSavedUrls".
Proof. cbn. discriminate. Qed.

Lemma getReports_key_ne_medians id :
  "getReports_" +:+ id <> "getMedianScoresOfAllUrls".
Proof. cbn. discriminate. Qed.

(** C6. A call of [saveReport] that returns deletes the cache entry of the
    list of URLs exactly when the URL had no run document; with a run
    history that entry is left as it was. The entry of the URL's reports and
    the entry of the medians of all URLs are deleted on every save. *)
Theorem saveReport_cache_invalidation url json replace w data w' :
  saveReport toISOString url json replace w = (Ok data, w') ->
  let id := slugify url in
  let issued := drop (length (log w)) (log w') in
  (EvCacheDelete "getAllSavedUrls" ∈ issued <-> collection w id = []) /\
  (collection w id = [] -> memcache w' !! "getAllSavedUrls" = None) /\
  (collection w id <> [] ->
     memcache w' !! "getAllSavedUrls" = memcache w !! "getAllSavedUrls") /\
  EvCacheDelete ("getReports_" +:+ id) ∈ issued /\
  memcache w' !! ("getReports_" +:+ id) = None /\
  EvCacheDelete "getMedianScoresOfAllUrls" ∈ issued /\
  memcache w' !! "getMedianScoresOfAllUrls" = None.
Proof.
  intros H id issued.
  apply saveReport_ok in H as (l & o & _ & _ & _ & _ & Hc & _ & _ & _ & _ & Hlog).
  fold id in Hc, Hlog.
  assert (Hissued : issued = drop (length (log w)) (log w')) by reflexivity.
  rewrite Hlog, drop_app_length in Hissued. clear Hlog.
  pose proof (getReports_key_ne_urls id) as N1.
  pose proof (getReports_key_ne_medians id) as N2.
  assert (N3 : "getMedianScoresOfAllUrls" <> "getAllSavedUrls") by discriminate.
  destruct (last_doc w id) as [doc|] eqn:E.
  - assert (Hne : collection w id <> []).
    { intros Hnil. apply last_doc_None in Hnil. congruence. }
    rewrite Hissued, Hc. repeat split.
    + intros Hin. exfalso. cbn in Hin.
      repeat (apply elem_of_cons in Hin as [Hin|Hin];
              [destruct replace; try discriminate; inversion Hin; congruence|]).
      now apply elem_of_nil in Hin.
    + intros Hnil. contradiction.
    + intros Hnil. contradiction.
    + intros _. now rewrite lookup_delete_ne, lookup_delete_ne.
    + cbn. set_solver.
    + now rewrite lookup_delete_ne, lookup_delete_eq.
    + cbn. set_solver.
    + now rewrite lookup_delete_eq.
  - assert (Hnil : collection w id = []) by now apply last_doc_None.
    rewrite Hissued, Hc. repeat split.
    + intros _. exact Hnil.
    + intros _. cbn. set_solver.
    + intros _. now rewrite lookup_delete_ne, lookup_delete_ne, lookup_delete_eq.
    + intros Hne. contradiction.
    + cbn. set_solver.
    + now rewrite lookup_delete_ne, lookup_delete_eq.
    + cbn. set_solver.
    + now rewrite lookup_delete_eq.
Qed.

End StoreProperties.

Section ApiProperties.
Context (toISOString : Date -> string).

(** C10. A call of [saveReport] that returns has changed the caller's
    [json.lhr] in place: its [i18n] property is gone, its [auditedOn]
    property is the date of the save, its other properties are as they
    were; an [lhr] that was JSON data is no longer what was passed in. *)
Theorem saveReport_mutates_lhr url json replace w data w' :
  saveReport toISOString url json replace w = (Ok data, w') ->
  exists l before after,
    p_lhr json = Some l /\ heap w !! l = Some before /\
    heap w' !! l = Some after /\
    after = set_field "auditedOn" (FDate (clock w)) (del_field "i18n" before) /\
    get_field "i18n" after = None /\
    get_field "auditedOn" after = Some (FDate (auditedOn data)) /\
    (forall k, k <> "i18n" -> k <> "auditedOn" ->
       get_field k after = get_field k before) /\
    (json_data before -> after <> before).
Proof.
  intros H.
  apply saveReport_ok in H as (l & o & Hl & Ho & Hd & _ & _ & Hh & _).
  exists l, o, (set_field "auditedOn" (FDate (clock w)) (del_field "i18n" o)).
  split; [exact Hl|]. split; [exact Ho|]. split.
  { rewrite Hh, !list_lookup_alter_eq, Ho. reflexivity. }
  split; [reflexivity|]. split.
  { rewrite get_field_set_field_ne by discriminate.
    apply get_field_del_field_eq. }
  split.
  { rewrite Hd. apply get_field_set_field_eq. }
  split.
  { intros k K1 K2. rewrite get_field_set_field_ne by congruence.
    apply get_field_del_field_ne. congruence. }
  intros Hjson E.
  apply (Hjson "auditedOn" (clock w)). rewrite <- E at 1.
  apply get_field_set_field_eq.
Qed.

Lemma err_to_string_Error msg :
  msg <> "" -> err_to_string (Error msg) = "Error: " +:+ msg.
Proof.
  intros H. unfold err_to_string. cbn.
  destruct (String.eqb_spec msg ""); [contradiction|reflexivity].
Qed.

Lemma check_runtimeError_throws json w l o fs code message :
  p_lhr json = Some l -> heap w !! l = Some o ->
  get_field "runtimeError" o = Some (FJson (JObj fs)) ->
  get_field "code" fs = Some (JStr code) -> code <> "NO_ERROR" ->
  get_field "message" fs = Some (JStr message) ->
  check_runtimeError json w = (Throw (Error (code +:+ " " +:+ message)), w).
Proof.
  intros Hl Ho Hr Hc Hne Hm.
  unfold check_runtimeError, bind, lhr_object. rewrite Hl, Ho. cbn.
  rewrite Hr. cbn. rewrite Hc. cbn.
  destruct (String.eqb_spec code "NO_ERROR"); [contradiction|].
  now rewrite Hm.
Qed.

(** C8. [runLighthouseAPI] always returns: when [api.audit] throws, when
    the audit reports a run-time error whose code is not [NO_ERROR], and
    when [saveReport] throws, the value returned carries the string of the
    error in its [errors] property. *)
Theorem runLighthouseAPI_returns url replace w :
  exists r w',
    runLighthouseAPI toISOString url replace w = (Ok r, w') /\
    (forall e w1, api_audit url w = (Throw e, w1) ->
       r = WithErrors None (err_to_string e)) /\
    (forall json w1, api_audit url w = (Ok json, w1) ->
       match (check_runtimeError json ;;
              saveReport toISOString url json (default true replace)) w1 with
       | (Ok data, _) => r = Saved data
       | (Throw e, _) => r = WithErrors (Some json) (err_to_string e)
       end) /\
    (forall json w1 l o fs code message,
       api_audit url w = (Ok json, w1) ->
       p_lhr json = Some l -> heap w1 !! l = Some o ->
       get_field "runtimeError" o = Some (FJson (JObj fs)) ->
       get_field "code" fs = Some (JStr code) -> code <> "NO_ERROR" ->
       get_field "message" fs = Some (JStr message) ->
       errors_of r = Some ("Error: " +:+ code +:+ " " +:+ message)).
Proof.
  unfold runLighthouseAPI, try_catch.
  destruct (api_audit url w) as [[json|e] w1] eqn:Ea.
  - destruct ((check_runtimeError json ;;
               saveReport toISOString url json (default true replace)) w1)
      as [[data|e] w2] eqn:Eb.
    + exists (Saved data), w2. split; [reflexivity|].
      split; [intros ? ? [=]|]. split.
      * intros ? ? [= <- <-]. now rewrite Eb.
      * intros json' w1' l o fs code message [= <- <-] Hl Ho Hr Hc Hne Hm.
        exfalso. unfold bind in Eb.
        rewrite (check_runtimeError_throws _ _ _ _ _ _ _ Hl Ho Hr Hc Hne Hm) in Eb.
        discriminate.
    + exists (WithErrors (Some json) (err_to_string e)), w2.
      split; [reflexivity|]. split; [intros ? ? [=]|]. split.
      * intros ? ? [= <- <-]. now rewrite Eb.
      * intros json' w1' l o fs code message [= <- <-] Hl Ho Hr Hc Hne Hm.
        unfold bind in Eb.
        rewrite (check_runtimeError_throws _ _ _ _ _ _ _ Hl Ho Hr Hc Hne Hm) in Eb.
        inversion Eb; subst.
        cbn [errors_of]. f_equal. apply err_to_string_Error.
        destruct code; discriminate.
  - exists (WithErrors None (err_to_string e)), w1.
    split; [reflexivity|]. split; [intros ? ? [= <- <-]; reflexivity|].
    split; [intros ? ? [=]|]. intros ? ? ? ? ? ? ? [=].
Qed.

End ApiProperties.

(** ** Retention *)

Lemma io_no_fault {A} ev (f : World -> Res A * World) w :
  no_faults w -> io ev f w = f (add_event ev w).
Proof. intros H. unfold io. now rewrite H. Qed.

Lemma map_fst_index_from {A} (l : list A) k :
  map fst (index_from k l) = seq k (length l).
Proof. revert k. induction l; intros k; simpl; [|rewrite IHl]; reflexivity. Qed.

Lemma length_index_from {A} (l : list A) k : length (index_from k l) = length l.
Proof. revert k. induction l; intros k; simpl; [|rewrite IHl]; reflexivity. Qed.

Lemma filter_index_from_ge {A} (l : list A) k m :
  map snd (List.filter (fun p => negb (Nat.ltb (fst p) m)) (index_from k l))
  = drop (m - k) l.
Proof.
  revert k. induction l as [|x l IH]; intros k; simpl.
  - now rewrite drop_nil.
  - destruct (Nat.ltb_spec k m) as [Hlt|Hge]; simpl.
    + rewrite IH. replace (m - k) with (S (m - S k)) by lia. reflexivity.
    + rewrite IH. replace (m - k) with 0 by lia.
      replace (m - S k) with 0 by lia. reflexivity.
Qed.

(** Deleting the documents of a snapshot of the first [b] documents leaves
    the documents after them. *)
Lemma batch_delete_first {A} (l : list A) b :
  map snd (List.filter
             (fun p => negb (bool_decide (fst p ∈ map fst (take b (index_from 0 l)))))
             (index_from 0 l))
  = drop b l.
Proof.
  transitivity
    (map snd (List.filter (fun p => negb (Nat.ltb (fst p) b)) (index_from 0 l)));
    [|rewrite filter_index_from_ge; f_equal; lia].
  f_equal. apply List.filter_ext_in. intros [i x] Hin. cbn [fst]. f_equal.
  apply list_elem_of_In, elem_of_index_from in Hin as [_ Hin].
  rewrite Nat.sub_0_r in Hin. apply lookup_lt_Some in Hin.
  rewrite <- firstn_map, map_fst_index_from.
  change (firstn b (seq 0 (length l))) with (take b (seq 0 (length l))).
  rewrite take_seq.
  destruct (Nat.ltb_spec i b) as [Hlt|Hge].
  - apply bool_decide_eq_true. apply elem_of_seq. lia.
  - apply bool_decide_eq_false. rewrite elem_of_seq. lia.
Qed.

Lemma batch_sizes_0 b : 0 < b -> batch_sizes b 0 = [].
Proof.
  intros Hb. unfold batch_sizes.
  rewrite Nat.Div0.div_0_l, Nat.Div0.mod_0_l. reflexivity.
Qed.

Lemma batch_sizes_step b n :
  0 < b -> 0 < n -> batch_sizes b n = b `min` n :: batch_sizes b (n - b).
Proof.
  intros Hb Hn. unfold batch_sizes.
  destruct (Nat.lt_ge_cases n b) as [Hlt|Hge].
  - rewrite (Nat.div_small n b), (Nat.mod_small n b) by lia.
    replace (n - b) with 0 by lia.
    rewrite Nat.Div0.div_0_l, Nat.Div0.mod_0_l.
    destruct (Nat.eqb_spec n 0); [lia|]. cbn. f_equal. lia.
  - assert (E : n = (n - b) + 1 * b) by lia.
    assert (H1 : n / b = S ((n - b) / b)).
    { rewrite E at 1. rewrite Nat.div_add by lia. lia. }
    assert (H2 : n mod b = (n - b) mod b).
    { rewrite E at 1. now rewrite Nat.Div0.mod_add. }
    rewrite H1, H2. cbn [replicate app]. f_equal. lia.
Qed.

Lemma deleteBatch__resolves fuel id b :
  0 < b ->
  forall w, no_faults w -> length (collection w id) < fuel ->
  exists w' evs,
    deleteBatch_ fuel (id, b) w = (Ok (Some tt), w') /\
    collection w' id = [] /\
    log w' = log w ++ evs /\
    delete_batches evs = batch_sizes b (length (collection w id)) /\
    (collection w id = [] -> db w' = db w /\ evs = [EvQuery id ByName b]).
Proof.
  intros Hb. induction fuel as [|fuel IH]; intros w Hw Hlen; [lia|].
  cbn [deleteBatch_ fst snd]. unfold bind at 1.
  unfold query_get. rewrite (io_no_fault _ _ _ Hw). cbn [run_order].
  set (w1 := add_event (EvQuery id ByName b) w).
  assert (Ec1 : collection w1 id = collection w id) by reflexivity.
  assert (Hw1 : no_faults w1) by exact Hw.
  assert (Hl1 : log w1 = log w ++ [EvQuery id ByName b]) by reflexivity.
  assert (Hd1 : db w1 = db w) by reflexivity.
  clearbody w1. rewrite Ec1.
  destruct (collection w id) as [|d docs] eqn:Ed.
  - exists w1, [EvQuery id ByName b].
    cbn [index_from]. rewrite take_nil.
    split; [reflexivity|]. split; [now rewrite Ec1|]. split; [exact Hl1|].
    split; [now rewrite batch_sizes_0|]. intros _. split; [exact Hd1|reflexivity].
  - set (snapshot := take b (index_from 0 (d :: docs))).
    assert (Hsnap : length snapshot = b `min` length (d :: docs)).
    { unfold snapshot. now rewrite length_take, length_index_from. }
    unfold bind at 1.
    destruct (Nat.eqb_spec (length snapshot) 0) as [E0|_].
    { rewrite Hsnap in E0. cbn in E0. lia. }
    unfold bind at 1. unfold batch_delete.
    rewrite (io_no_fault _ _ _ Hw1).
    set (w2 := set_db _ _).
    unfold ret at 1.
    destruct (Nat.eqb_spec (length snapshot) 0) as [E0|_].
    { rewrite Hsnap in E0. cbn in E0. lia. }
    assert (Ec2 : collection w2 id = drop b (d :: docs)).
    { unfold w2, collection at 1. cbn [db set_db add_event].
      rewrite lookup_insert_eq. cbn [default].
      change (collection (add_event (EvBatchDelete id (length (map fst snapshot))) w1) id)
        with (collection w1 id).
      rewrite Ec1. unfold snapshot. apply batch_delete_first. }
    destruct (IH w2) as (w' & evs & Hrun & Hnil & Hlog & Hsizes & _).
    { exact Hw1. }
    { rewrite Ec2, length_drop. cbn [length] in *. lia. }
    exists w', (EvQuery id ByName b :: EvBatchDelete id (length snapshot) :: evs).
    split; [exact Hrun|]. split; [exact Hnil|]. split.
    { rewrite Hlog. unfold w2. cbn [log set_db add_event]. rewrite Hl1, length_map.
      now rewrite <- !app_assoc. }
    split.
    { change (delete_batches (EvQuery id ByName b
                :: EvBatchDelete id (length snapshot) :: evs))
        with (length snapshot :: delete_batches evs).
      rewrite Hsizes, Ec2, length_drop, Hsnap.
      symmetry. apply batch_sizes_step; cbn; lia. }
    intros [=].
Qed.

(** Whether calls fail or not, [deleteBatch_] settles within one round more
    than there are documents: it resolves or rejects, and does not go on. *)
Lemma deleteBatch__settles fuel id b :
  0 < b ->
  forall w, length (collection w id) < fuel ->
  fst (deleteBatch_ fuel (id, b) w) <> Ok None.
Proof.
  intros Hb. induction fuel as [|fuel IH]; intros w Hlen; [lia|].
  cbn [deleteBatch_ fst snd]. unfold bind at 1, query_get, io.
  destruct (faulty w (length (log w))); [discriminate|].
  cbn [run_order].
  set (w1 := add_event (EvQuery id ByName b) w).
  change (collection w1 id) with (collection w id).
  set (snapshot := take b (index_from 0 (collection w id))).
  assert (Hsnap : length snapshot = b `min` length (collection w id)).
  { unfold snapshot. now rewrite length_take, length_index_from. }
  unfold bind at 1.
  destruct (Nat.eqb_spec (length snapshot) 0) as [E0|Hne].
  - cbn. discriminate.
  - unfold bind at 1, batch_delete, io.
    destruct (faulty w1 (length (log w1))); [discriminate|].
    unfold ret at 1.
    destruct (Nat.eqb_spec (length snapshot) 0) as [|_]; [contradiction|].
    apply IH.
    unfold collection at 1. cbn [db set_db add_event].
    rewrite lookup_insert_eq. cbn [default].
    change (collection (add_event (EvBatchDelete id (length (map fst snapshot))) w1) id)
      with (collection w id).
    unfold snapshot, Datatypes.id. rewrite batch_delete_first, length_drop. lia.
Qed.

(** C9. [deleteReports], given rounds enough for the documents of the URL
    and calls that do not fail, resolves and leaves the URL without run
    documents; the delete batches it issues have twenty documents each but
    for a last smaller one: for 45 documents they are 20, 20 and 5; for a
    URL without documents it resolves after its first query and deletes
    nothing. *)
Theorem deleteReports_batches fuel url w :
  no_faults w ->
  length (collection w (slugify url)) < fuel ->
  exists w',
    deleteReports fuel url w = (Ok (Some tt), w') /\
    collection w' (slugify url) = [] /\
    let issued := drop (length (log w)) (log w') in
    delete_batches issued = batch_sizes 20 (length (collection w (slugify url))) /\
    (length (collection w (slugify url)) = 45 -> delete_batches issued = [20; 20; 5]) /\
    (collection w (slugify url) = [] ->
       db w' = db w /\ issued = [EvQuery (slugify url) ByName 20]).
Proof.
  intros Hw Hlen. unfold deleteReports.
  destruct (deleteBatch__resolves fuel (slugify url) 20 ltac:(lia) w Hw Hlen)
    as (w' & evs & Hrun & Hnil & Hlog & Hsizes & Hzero).
  exists w'. split; [exact Hrun|]. split; [exact Hnil|].
  cbn zeta. rewrite Hlog, drop_app_length.
  split; [exact Hsizes|]. split; [|exact Hzero].
  intros E. rewrite Hsizes, E. reflexivity.
Qed.

(** ** Timestamps *)

Lemma Timestamp_toDate_fromDate t : Timestamp_toDate (Timestamp_fromDate t) = t.
Proof.
  unfold Timestamp_toDate, Timestamp_fromDate. cbn [_seconds _nanoseconds].
  Z.div_mod_to_equations. lia.
Qed.

Lemma doc_time_doc_of_data data : doc_time (doc_of_data data) = auditedOn data.
Proof. apply Timestamp_toDate_fromDate. Qed.

Lemma doc_time_doc_update data old : doc_time (doc_update data old) = auditedOn data.
Proof. apply Timestamp_toDate_fromDate. Qed.

(** ** Counting *)

Lemma filter_none {A} (p : A -> bool) l :
  Forall (fun x => p x = false) l -> List.filter p l = [].
Proof.
  induction 1 as [|x l Hx _ IH]; simpl; [reflexivity|]. now rewrite Hx.
Qed.

Lemma filter_alter_one {A} (p : A -> bool) (f : A -> A) i l x :
  l !! i = Some x -> p (f x) = true ->
  Forall (fun y => p y = false) l ->
  length (List.filter p (alter f i l)) = 1.
Proof.
  revert i. induction l as [|y l IH]; intros i Hi Hp Hall; [discriminate|].
  apply Forall_cons in Hall as [Hy Hall].
  destruct i as [|i]; cbn in *.
  - inversion Hi; subst y. rewrite Hp. cbn. now rewrite (filter_none p l Hall).
  - rewrite Hy. eauto.
Qed.

Lemma Forall_alter_intro {A} (P : A -> Prop) (f : A -> A) i l :
  Forall P l -> (forall x, l !! i = Some x -> P (f x)) -> Forall P (alter f i l).
Proof.
  intros Hall Hf. apply Forall_lookup. intros j y Hj.
  destruct (decide (i = j)) as [<-|Hne].
  - rewrite list_lookup_alter_eq in Hj.
    destruct (l !! i) as [x|] eqn:E; [|discriminate].
    inversion Hj; subst. now apply Hf.
  - rewrite list_lookup_alter_ne in Hj by exact Hne.
    exact (proj1 (Forall_lookup P l) Hall j y Hj).
Qed.

Lemma filter_length_Permutation {A} (p : A -> bool) l l' :
  Permutation l l' -> length (List.filter p l) = length (List.filter p l').
Proof.
  induction 1 as [|x l l' _ IH|x y l|l l' l'' _ IH1 _ IH2]; simpl.
  - reflexivity.
  - destruct (p x); simpl; congruence.
  - destruct (p x), (p y); reflexivity.
  - congruence.
Qed.

Lemma filter_length_map {A B} (p : B -> bool) (g : A -> B) l :
  length (List.filter p (map g l)) = length (List.filter (fun x => p (g x)) l).
Proof.
  induction l as [|x l IH]; simpl; [reflexivity|].
  destruct (p (g x)); simpl; congruence.
Qed.

Lemma filter_length_take {A} (p : A -> bool) n l :
  length (List.filter p (take n l)) <= length (List.filter p l).
Proof.
  revert n. induction l as [|x l IH]; intros [|n]; simpl; try lia.
  specialize (IH n). destruct (p x); simpl; lia.
Qed.

(** ** String facts *)

Lemma list_ascii_of_string_app a b :
  list_ascii_of_string (a +:+ b)
  = list_ascii_of_string a ++ list_ascii_of_string b.
Proof.
  induction a as [|c a IH]; [reflexivity|].
  change (String c a +:+ b) with (String c (a +:+ b)).
  cbn [list_ascii_of_string]. now rewrite IH.
Qed.

Lemma append_inj_middle p s1 s2 t : p +:+ s1 +:+ t = p +:+ s2 +:+ t -> s1 = s2.
Proof.
  intros H. apply (f_equal list_ascii_of_string) in H.
  rewrite !list_ascii_of_string_app in H.
  apply app_inv_head, app_inv_tail in H.
  apply (f_equal string_of_list_ascii) in H.
  now rewrite !string_of_list_ascii_of_string in H.
Qed.

Lemma report_file_inj id id' : report_file id = report_file id' -> id = id'.
Proof. apply append_inj_middle. Qed.

Lemma deleteBatch__frame fuel id b :
  0 < b ->
  forall w w',
    deleteBatch_ fuel (id, b) w = (Ok (Some tt), w') ->
    collection w' id = [] /\
    (forall id', id' <> id -> collection w' id' = collection w id') /\
    bucket w' = bucket w /\ clock w' = clock w.
Proof.
  intros Hb. induction fuel as [|fuel IH]; intros w w' H; [discriminate|].
  cbn [deleteBatch_ fst snd] in H.
  apply bind_ok in H as (snapshot & w1 & Hq & H).
  apply query_get_ok in Hq as (n & [= <-] & Hs & ->). cbn [run_order] in Hs.
  apply bind_ok in H as (numDeleted & w2 & Hn & H).
  destruct (Nat.eqb_spec (length snapshot) 0) as [E0|Hne].
  - inversion Hn; subst numDeleted w2. cbn in H. inversion H; subst w'.
    split; [|auto].
    change (collection (add_event (EvQuery id ByName b) w) id) with (collection w id).
    destruct (collection w id) as [|d docs]; [reflexivity|].
    rewrite Hs in E0. rewrite length_take, length_index_from in E0. cbn in E0. lia.
  - apply bind_ok in Hn as (? & w3 & Hd & Hn).
    apply batch_delete_ok in Hd. inversion Hn; subst numDeleted w2. clear Hn.
    destruct (Nat.eqb_spec (length snapshot) 0) as [|_]; [contradiction|].
    apply IH in H as (Hnil & Hother & Hb' & Hc).
    split; [exact Hnil|]. split; [|subst w3; auto].
    intros id' Hid. rewrite (Hother id' Hid). subst w3.
    unfold collection. cbn. now rewrite lookup_insert_ne.
Qed.

Section ReachFacts.
Context (toISOString : Date -> string).

Lemma get_field_JSON_stringify k o :
  get_field k (map (fun kv : string * FieldVal =>
                      (fst kv, match snd kv with
                               | FJson j => j
                               | FDate d => JStr (toISOString d)
                               end)) o)
  = (fun v => match v with FJson j => j | FDate d => JStr (toISOString d) end)
      <$> get_field k o.
Proof.
  induction o as [|[k' v] o IH]; simpl; [reflexivity|].
  destruct (String.eqb k' k); [reflexivity|exact IH].
Qed.

Lemma stored_at_JSON_stringify t o :
  stored_at toISOString t
    (JSON_stringify toISOString (set_field "auditedOn" (FDate t) o)).
Proof.
  eexists. split; [reflexivity|].
  now rewrite get_field_JSON_stringify, get_field_set_field_eq.
Qed.

Lemma reachable_latest_report_ok w :
  reachable toISOString w -> latest_report_ok toISOString w.
Proof.
  induction 1 as [w Hdb|w w' _ IH Hdb Hb Hc|w t url json replace data w' _ IH Ht Hsave
                  |w fuel url w' _ IH Hdel].
  - intros id Hne. exfalso. apply Hne. unfold collection. now rewrite Hdb, lookup_empty.
  - intros id Hne.
    assert (Ec : collection w' id = collection w id) by (unfold collection; now rewrite Hdb).
    rewrite Ec in *. destruct (IH id Hne) as (t & blob & ? & ? & ? & ? & ?).
    exists t, blob. rewrite Hb. repeat split; try assumption. lia.
  - apply saveReport_ok in Hsave
      as (l & o & _ & _ & Hd & Hdb & _ & _ & Hbucket & _ & Hclock & _).
    cbn [clock set_clock db bucket] in *.
    change (collection (set_clock t w) (slugify url)) with (collection w (slugify url)) in *.
    change (last_doc (set_clock t w) (slugify url)) with (last_doc w (slugify url)) in *.
    intros id Hne.
    destruct (decide (id = slugify url)) as [->|Hid].
    + exists t. eexists. rewrite Hbucket, lookup_insert_eq.
      split; [reflexivity|]. split; [apply stored_at_JSON_stringify|].
      split; [lia|].
      rewrite (collection_insert _ _ _ _ Hdb).
      (* the old documents are older than [t] *)
      assert (Hold : Forall (fun d => d_auditedOn d = Timestamp_fromDate (doc_time d)
                               /\ (doc_time d < t)%Z) (collection w (slugify url))).
      { destruct (collection w (slugify url)) as [|d0 docs0] eqn:Ed; [constructor|].
        destruct (IH (slugify url)) as (t0 & _ & _ & _ & Ht0 & Hall & _).
        { rewrite Ed. discriminate. }
        rewrite Ed in Hall. eapply Forall_impl; [exact Hall|].
        cbn. intros d [? ?]. split; [assumption|lia]. }
      assert (Hnone : Forall (fun d => (doc_time d =? t)%Z = false)
                        (collection w (slugify url))).
      { eapply Forall_impl; [exact Hold|]. cbn. intros d [_ ?]. lia. }
      assert (Hle : Forall (fun d => d_auditedOn d = Timestamp_fromDate (doc_time d)
                               /\ (doc_time d <= t)%Z) (collection w (slugify url))).
      { eapply Forall_impl; [exact Hold|]. cbn. intros d [? ?]. split; [assumption|lia]. }
      assert (Happ :
        Forall (fun d => d_auditedOn d = Timestamp_fromDate (doc_time d) /\
                         (doc_time d <= t)%Z)
               (collection w (slugify url) ++ [doc_of_data data]) /\
        length (List.filter (fun d => (doc_time d =? t)%Z)
                  (collection w (slugify url) ++ [doc_of_data data])) = 1).
      { split.
        - apply Forall_app. split; [exact Hle|]. constructor; [|constructor].
          rewrite doc_time_doc_of_data, Hd. split; [cbn; now rewrite Hd|lia].
        - rewrite List.filter_app, (filter_none _ _ Hnone). cbn.
          rewrite doc_time_doc_of_data, Hd, Z.eqb_refl. reflexivity. }
      destruct replace; [|exact Happ].
      destruct (last_doc w (slugify url)) as [[i last]|] eqn:El; [|exact Happ].
      apply last_doc_Some in El as [Hi _]. cbn [fst]. split.
      * apply Forall_alter_intro; [exact Hle|]. intros x _.
        rewrite doc_time_doc_update, Hd. split; [cbn; now rewrite Hd|lia].
      * apply (filter_alter_one _ _ _ _ last Hi); [|exact Hnone].
        rewrite doc_time_doc_update, Hd. apply Z.eqb_refl.
    + rewrite (collection_insert_ne _ _ _ _ _ Hdb) in * by congruence.
      destruct (IH id Hne) as (t0 & blob & ? & ? & ? & ? & ?).
      exists t0, blob. rewrite Hbucket, lookup_insert_ne.
      * repeat split; try assumption. lia.
      * intros E. apply report_file_inj in E. congruence.
  - unfold deleteReports in Hdel.
    apply deleteBatch__frame in Hdel as (Hnil & Hother & Hb & Hc); [|lia].
    intros id Hne.
    destruct (decide (id = slugify url)) as [->|Hid]; [contradiction|].
    rewrite (Hother id Hid) in *. rewrite Hb, Hc. now apply IH.
Qed.

End ReachFacts.

Lemma Timestamp_leb_fromDate a b :
  Timestamp_leb (Timestamp_fromDate a) (Timestamp_fromDate b) = true -> (a <= b)%Z.
Proof.
  unfold Timestamp_leb, Timestamp_fromDate. cbn [_seconds _nanoseconds].
  intros H. apply orb_true_iff in H as [H|H].
  - apply Z.ltb_lt in H. Z.div_mod_to_equations. lia.
  - apply andb_true_iff in H as [H1 H2].
    apply Z.eqb_eq in H1. apply Z.leb_le in H2. Z.div_mod_to_equations. lia.
Qed.

Lemma mapM_ret {A B} (f : A -> M B) (g : A -> B) l w :
  (forall x w, f x w = (Ok (g x), w)) -> mapM f l w = (Ok (map g l), w).
Proof.
  intros Hf. induction l as [|x l IH]; [reflexivity|].
  cbn [mapM map]. unfold bind. now rewrite Hf, IH.
Qed.

Lemma mapM_ok {A B} (f : A -> M B) (g : A -> B) l w rs w' :
  (forall x w r w', f x w = (Ok r, w') -> r = g x /\ w' = w) ->
  mapM f l w = (Ok rs, w') -> rs = map g l /\ w' = w.
Proof.
  intros Hf. revert rs w'. induction l as [|x l IH]; intros rs w' H.
  - inversion H. auto.
  - cbn [mapM] in H.
    apply bind_ok in H as (y & w1 & Hy & H). apply Hf in Hy as [-> ->].
    apply bind_ok in H as (ys & w2 & Hys & H). apply IH in Hys as [-> ->].
    inversion H. auto.
Qed.

Section AttachFacts.
Context (toISOString : Date -> string).

Lemma attach_lhr_ok lhr doc w r w' :
  attach_lhr toISOString lhr doc w = (Ok r, w') ->
  r = mkReport (d_lhrSlim doc) (doc_time doc) (d_crux doc)
        (if strict_equal_string (stored_auditedOn lhr)
                                (toISOString (doc_time doc))
         then Some lhr else None) /\ w' = w.
Proof.
  unfold attach_lhr. intros H. apply bind_ok in H as (stored & w1 & Hs & H).
  assert (stored = stored_auditedOn lhr /\ w1 = w) as [-> ->].
  { destruct lhr; inversion Hs; auto. }
  inversion H. auto.
Qed.

(** Whatever the store holds, a result of [getReports] that was fetched
    from it gives the full report to the runs whose [auditedOn], as an ISO
    string, is the [auditedOn] of the stored full report, and to no other. *)
Lemma getReports_attaches_matching url arg w runs w' :
  not_cached url arg w ->
  getReports toISOString url arg w = (Ok (CReports runs), w') ->
  runs <> [] ->
  exists lhr,
    bucket w !! report_file (slugify url) = Some lhr /\
    Forall (fun r => r_lhr r =
              if strict_equal_string (stored_auditedOn lhr)
                                     (toISOString (r_auditedOn r))
              then Some lhr else None) runs.
Proof.
  intros Hnc Hget Hne. unfold getReports, not_cached in *.
  destruct (destructure_config arg) as [maxResults useCache]. cbn [snd] in Hnc.
  apply bind_ok in Hget as (val & w1 & Hval & Hget).
  apply memcache_get_ok in Hval as [-> ->].
  assert (Hmiss : cache_hit (memcache w !! ("getReports_" +:+ slugify url)) useCache = None).
  { unfold cache_hit. destruct Hnc as [->| ->]; [reflexivity|].
    now destruct (is_true useCache). }
  rewrite Hmiss in Hget. clear Hmiss Hnc. unfold fetch_reports in Hget.
  apply bind_ok in Hget as (docs & w2 & Hq & Hget).
  destruct docs as [|p ps].
  { inversion Hget; subst. contradiction. }
  apply query_get_ok in Hq as (n & -> & _ & ->).
  apply bind_ok in Hget as (? & w3 & Hv & Hget). apply updateLastViewed_ok in Hv.
  apply bind_ok in Hget as (lhr & w4 & Hl & Hget).
  apply file_download_ok in Hl as [Hl ->]. subst w3. cbn [bucket set_meta add_event] in Hl.
  apply bind_ok in Hget as (runs' & w5 & Hm & Hget).
  apply (mapM_ok _ (fun doc => mkReport (d_lhrSlim doc) (doc_time doc) (d_crux doc)
                      (if strict_equal_string (stored_auditedOn lhr)
                                              (toISOString (doc_time doc))
                       then Some lhr else None))) in Hm as [-> ->];
    [|intros; now apply attach_lhr_ok].
  apply bind_ok in Hget as (? & w6 & _ & Hget). inversion Hget; subst runs.
  exists lhr. split; [exact Hl|].
  apply Forall_fmap, Forall_forall. intros doc _. reflexivity.
Qed.

End AttachFacts.

Section ReportFacts.
Context (toISOString : Date -> string).
Hypothesis toISOString_inj : forall a b, toISOString a = toISOString b -> a = b.

Lemma attach_lhr_stored t lhr doc w :
  stored_at toISOString t lhr ->
  attach_lhr toISOString lhr doc w = (Ok (report_of toISOString lhr (toISOString t) doc), w).
Proof.
  intros (fs & -> & Hf). unfold attach_lhr, bind, prop, ret. now rewrite Hf.
Qed.

Lemma eqb_toISOString a b :
  String.eqb (toISOString a) (toISOString b) = (b =? a)%Z.
Proof.
  destruct (String.eqb_spec (toISOString a) (toISOString b)) as [E|N].
  - apply toISOString_inj in E. subst. now rewrite Z.eqb_refl.
  - destruct (Z.eqb_spec b a); [subst; contradiction|reflexivity].
Qed.

(** Among the newest [n >= 1] of the run documents of a store that keeps
    its invariant, exactly one has the date of the full report. *)
Lemma newest_docs_one_latest (docs : list Doc) t n p ps :
  Forall (fun d => d_auditedOn d = Timestamp_fromDate (doc_time d) /\
                   (doc_time d <= t)%Z) docs ->
  length (List.filter (fun d => (doc_time d =? t)%Z) docs) = 1 ->
  take n (run_order ByAuditedOnDesc (index_from 0 docs)) = p :: ps ->
  length (List.filter (fun d => (doc_time d =? t)%Z) (map snd (p :: ps))) = 1.
Proof.
  intros Hall Hone Htake. cbn [run_order] in Htake.
  set (le := fun a b : nat * Doc =>
               Timestamp_leb (d_auditedOn (snd b)) (d_auditedOn (snd a))) in *.
  set (cnt := fun l : list Doc =>
                length (List.filter (fun d => (doc_time d =? t)%Z) l)) in *.
  change (cnt docs = 1) in Hone. change (cnt (map snd (p :: ps)) = 1).
  pose proof (sort_by_Permutation le (reverse (index_from 0 docs))) as Hperm.
  destruct (sort_by le (reverse (index_from 0 docs))) as [|x rest] eqn:Es.
  { rewrite take_nil in Htake. discriminate. }
  destruct n as [|n]; [discriminate|]. cbn [take] in Htake.
  inversion Htake; subst p ps. clear Htake.
  assert (Hp : Permutation (map snd (x :: rest)) docs).
  { transitivity (map snd (reverse (index_from 0 docs)));
      [apply Permutation_map; exact Hperm|].
    transitivity (map snd (index_from 0 docs));
      [apply Permutation_map, reverse_Permutation|].
    now rewrite map_snd_index_from. }
  assert (Hcnt : cnt (map snd (x :: rest)) = 1).
  { rewrite <- Hone. unfold cnt. now apply filter_length_Permutation. }
  assert (Hx : doc_time (snd x) = t).
  { assert (Hxin : snd x ∈ docs).
    { rewrite <- Hp. cbn [map]. left. }
    rewrite Forall_forall in Hall.
    destruct (Hall _ Hxin) as [Hwx Hlex].
    unfold cnt in Hone.
    destruct (List.filter (fun d => (doc_time d =? t)%Z) docs) as [|d fl] eqn:Ef;
      [discriminate|].
    assert (Hd : In d (List.filter (fun d => (doc_time d =? t)%Z) docs))
      by (rewrite Ef; now left).
    apply List.filter_In in Hd as [Hdin Hdt]. apply Z.eqb_eq in Hdt.
    apply list_elem_of_In in Hdin. destruct (Hall _ Hdin) as [Hwd _].
    apply list_elem_of_lookup in Hdin as [j Hj].
    assert (Hle : le x (j, d) = true).
    { apply (sort_by_head le (fun a b => Timestamp_leb_total _ _)
               (fun a b c H1 H2 => Timestamp_leb_trans _ _ _ H2 H1) _ _ _ Es).
      rewrite reverse_Permutation. apply elem_of_index_from.
      split; [lia|]. now rewrite Nat.sub_0_r. }
    unfold le in Hle. cbn [snd] in Hle. rewrite Hwd, Hwx in Hle.
    apply Timestamp_leb_fromDate in Hle. lia. }
  unfold cnt in *. cbn [map List.filter] in *. rewrite Hx, Z.eqb_refl in *.
  cbn [length] in *.
  pose proof (filter_length_take (fun d => (doc_time d =? t)%Z) n (map snd rest)) as Hle.
  rewrite <- firstn_map. change (@firstn Doc) with (@take Doc). lia.
Qed.

(** C7. In a store reached by saves made at distinct, increasing times,
    and with [toISOString] one-to-one, a result of [getReports] that was
    fetched from the store and is not empty has exactly one run that
    carries the full report: the run whose [auditedOn], as an ISO string,
    is the [auditedOn] of the stored full report; the other runs carry no
    full report. *)
Theorem getReports_attaches_full_report url arg w runs w' :
  reachable toISOString w ->
  not_cached url arg w ->
  getReports toISOString url arg w = (Ok (CReports runs), w') ->
  runs <> [] ->
  exists lhr iso,
    bucket w !! report_file (slugify url) = Some lhr /\
    (exists fs, lhr = JObj fs /\ get_field "auditedOn" fs = Some (JStr iso)) /\
    length (List.filter carries_lhr runs) = 1 /\
    Forall (fun r => r_lhr r =
              if String.eqb (toISOString (r_auditedOn r)) iso
              then Some lhr else None) runs.
Proof.
  intros Hreach Hnc Hget Hne.
  apply reachable_latest_report_ok in Hreach.
  unfold getReports, not_cached in *.
  destruct (destructure_config arg) as [maxResults useCache]. cbn [snd] in Hnc.
  apply bind_ok in Hget as (val & w1 & Hval & Hget).
  apply memcache_get_ok in Hval as [-> ->].
  assert (Hmiss : cache_hit (memcache w !! ("getReports_" +:+ slugify url)) useCache = None).
  { unfold cache_hit. destruct Hnc as [->| ->]; [reflexivity|].
    now destruct (is_true useCache). }
  rewrite Hmiss in Hget. clear Hmiss Hnc. unfold fetch_reports in Hget.
  apply bind_ok in Hget as (docs & w2 & Hq & Hget).
  apply query_get_ok in Hq as (n & -> & Hdocs & ->).
  change (collection (add_event _ w) (slugify url))
    with (collection w (slugify url)) in Hdocs.
  destruct docs as [|p ps].
  { inversion Hget; subst. contradiction. }
  apply bind_ok in Hget as (? & w3 & Hv & Hget). apply updateLastViewed_ok in Hv.
  apply bind_ok in Hget as (lhr & w4 & Hl & Hget).
  apply file_download_ok in Hl as [Hl ->]. subst w3. cbn [bucket set_meta add_event] in Hl.
  destruct (Hreach (slugify url)) as (t & blob & Hb & Hst & _ & Hall & Hone).
  { intros E. rewrite E in Hdocs. cbn in Hdocs. now rewrite take_nil in Hdocs. }
  rewrite Hb in Hl. inversion Hl; subst blob. clear Hl.
  apply bind_ok in Hget as (runs' & w5 & Hm & Hget).
  rewrite (mapM_ret _ (report_of toISOString lhr (toISOString t)))
    in Hm by (intros; now apply attach_lhr_stored).
  inversion Hm; subst runs' w5. clear Hm.
  apply bind_ok in Hget as (? & w6 & _ & Hget). inversion Hget; subst runs. clear Hget.
  exists lhr, (toISOString t). split; [exact Hb|]. split.
  { destruct Hst as (fs & -> & Hf). eauto. }
  split.
  - rewrite filter_length_map.
    rewrite (filter_length_Permutation _ _ _ (reverse_Permutation _)).
    rewrite <- (newest_docs_one_latest _ _ _ _ _ Hall Hone (eq_sym Hdocs)).
    f_equal. apply List.filter_ext. intros d.
    unfold carries_lhr, report_of. cbn [r_lhr].
    rewrite eqb_toISOString. now destruct (doc_time d =? t)%Z.
  - apply Forall_fmap, Forall_forall. intros d _. cbn.
    rewrite (eqb_toISOString (doc_time d) t), (eqb_toISOString t (doc_time d)).
    now rewrite Z.eqb_sym.
Qed.

End ReportFacts.

(** ** Statistics engine *)

Example median_of_comment :
  median (map of_Z [3; 5; 4; 4; 1; 1; 2; 3]%Z) = of_Z 3.
Proof. reflexivity. Qed.

Example median_of_four : median (map of_Z [1; 2; 3; 4]%Z) = Num (5 # 2).
Proof. reflexivity. Qed.

Example median_of_one : median [of_Z 5] = of_Z 5.
Proof. reflexivity. Qed.

(** C2. [median] sorts with [Array.prototype.sort()] and no comparator,
    that is by the decimal strings of the numbers: of 80, 90 and 100 it
    returns 80, where the numeric median is 90. *)
Theorem median_sorts_by_string :
  array_sort (map of_Z [80; 90; 100]%Z) = map of_Z [100; 80; 90]%Z /\
  median (map of_Z [80; 90; 100]%Z) = of_Z 80 /\
  median_numeric (map of_Z [80; 90; 100]%Z) = of_Z 90.
Proof. repeat split; reflexivity. Qed.

Lemma get_field_not_in {V} k (fs : list (string * V)) :
  k ∉ map fst fs -> get_field k fs = None.
Proof.
  induction fs as [|[k' v] fs IH]; [reflexivity|].
  cbn [map fst get_field]. intros Hnin.
  apply not_elem_of_cons in Hnin as [Hne Hnin].
  destruct (String.eqb_spec k' k); [congruence|]. now apply IH.
Qed.

(** Pooling: after the scores of one URL are combined in, the sequence of a
    category is what it was, followed by that URL's sequence for it. *)
Lemma combine_scores_get cat combined urlScores :
  NoDup (map fst urlScores) ->
  get_field cat (combine_scores combined urlScores)
  = match get_field cat urlScores with
    | Some scores => Some (default [] (get_field cat combined) ++ scores)
    | None => get_field cat combined
    end.
Proof.
  unfold combine_scores. revert combined.
  induction urlScores as [|[k s] rest IH]; intros combined Hnd; [reflexivity|].
  cbn [map fst] in Hnd. apply NoDup_cons in Hnd as [Hk Hnd].
  cbn [foldl fst snd get_field]. rewrite (IH _ Hnd).
  destruct (String.eqb_spec k cat) as [->|Hne].
  - rewrite (get_field_not_in _ _ Hk). apply get_field_set_field_eq.
  - rewrite (get_field_set_field_ne _ _ _ _ Hne). reflexivity.
Qed.

(** C1. For two URLs whose performance scores are [80] and [90, 100],
    [getMedianScoresOfAllUrls] pools the scores into [80, 90, 100] and
    returns 80 for the category, where the median of the pool is 90. *)
Theorem pooled_median_sorts_by_string :
  fst (getAllScores "http://a.example/" None two_urls_world)
    = Ok [("performance", [of_Z 80])] /\
  fst (getAllScores "http://b.example/" None two_urls_world)
    = Ok [("performance", [of_Z 90; of_Z 100])] /\
  fst (getMedianScoresOfAllUrls None two_urls_world)
    = Ok (CMedians [("performance", of_Z 80)]) /\
  median_numeric [of_Z 80; of_Z 90; of_Z 100] = of_Z 90.
Proof. repeat split; vm_compute; reflexivity. Qed.

(** C3. A configuration object that leaves [useCache] out is read as
    [useCache] false, and one that leaves [maxResults] out has no
    [maxResults]: the defaults stand in only when no object is passed. With
    [{maxResults: 5, useCache: true}] the cached reports of a URL are
    returned; with [{maxResults: 5}] they are not used, and the store is
    queried. *)
Theorem partial_config_gets_no_defaults :
  destructure_config None = (Some 10, Some true) /\
  destructure_config (Some (mkConfig (Some 5) None)) = (Some 5, None) /\
  destructure_config (Some (mkConfig None (Some true))) = (None, Some true) /\
  (forall toISOString url n w,
     getReports toISOString url (Some (mkConfig n None)) w
     = getReports toISOString url (Some (mkConfig n (Some false))) w) /\
  (forall n w,
     getMedianScoresOfAllUrls (Some (mkConfig n None)) w
     = getMedianScoresOfAllUrls (Some (mkConfig n (Some false))) w) /\
  (exists cached,
     memcache cached_world !! "getReports_http:____b.example__" = Some cached /\
     fst (getReports ms_digits "http://b.example/"
            (Some (mkConfig (Some 5) (Some true))) cached_world) = Ok cached) /\
  drop (length (log cached_world))
       (log (snd (getReports ms_digits "http://b.example/"
                    (Some (mkConfig (Some 5) (Some true))) cached_world)))
    = [EvCacheGet "getReports_http:____b.example__";
       EvSetMeta "http:____b.example__"] /\
  drop (length (log cached_world))
       (log (snd (getReports ms_digits "http://b.example/"
                    (Some (mkConfig (Some 5) None)) cached_world)))
    = [EvCacheGet "getReports_http:____b.example__";
       EvQuery "http:____b.example__" ByAuditedOnDesc 5;
       EvSetMeta "http:____b.example__";
       EvDownload "lhrs/http:____b.example__.json"].
Proof.
  split; [reflexivity|]. split; [reflexivity|]. split; [reflexivity|].
  split; [intros; reflexivity|]. split; [intros; reflexivity|].
  split.
  { exists (default (CReports [])
              (memcache cached_world !! "getReports_http:____b.example__")).
    split; vm_compute; reflexivity. }
  split; vm_compute; reflexivity.
Qed.

(** ** The properties on sample data *)

Lemma ms_digits_inj a b : ms_digits a = ms_digits b -> a = b.
Proof.
  unfold ms_digits, int_digits. intros H.
  apply DecimalZ.to_int_inj.
  assert (Hnn : forall z, Z.to_int z <> Decimal.Pos Decimal.Nil /\
                          Z.to_int z <> Decimal.Neg Decimal.Nil).
  { intros [|p|p]; cbn; split; try discriminate;
      intros E; inversion E as [E']; now apply DecimalPos.Unsigned.to_uint_nonnil in E'. }
  pose proof (NilZero.isi (Z.to_int a) (proj1 (Hnn a)) (proj2 (Hnn a))) as Ha.
  pose proof (NilZero.isi (Z.to_int b) (proj1 (Hnn b)) (proj2 (Hnn b))) as Hb.
  rewrite H in Ha. congruence.
Qed.


Lemma saveReport_cache_invalidation_witness :
  let w := set_clock 1000 payload_world in
  let r := saveReport ms_digits "http://b.example/" (sample_payload 0) true w in
  let data := returned (mkRunData [] 0 None) r in
  r = (Ok data, snd r) /\
  (EvCacheDelete "getAllSavedUrls" ∈ drop (length (log w)) (log (snd r))
   <-> collection w "http:____b.example__" = []).
Proof.
  intros w r data.
  assert (H : r = (Ok data, snd r)) by (vm_compute; reflexivity).
  split; [exact H|].
  exact (proj1 (saveReport_cache_invalidation ms_digits "http://b.example/"
                  (sample_payload 0) true w data (snd r) H)).
Defined.

Lemma saveReport_mutates_lhr_witness :
  let w := set_clock 1000 payload_world in
  let r := saveReport ms_digits "http://b.example/" (sample_payload 0) true w in
  let data := returned (mkRunData [] 0 None) r in
  r = (Ok data, snd r) /\
  exists l before after,
    p_lhr (sample_payload 0) = Some l /\ heap w !! l = Some before /\
    heap (snd r) !! l = Some after /\
    after = set_field "auditedOn" (FDate (clock w)) (del_field "i18n" before) /\
    get_field "i18n" after = None /\
    get_field "auditedOn" after = Some (FDate (auditedOn data)) /\
    (forall k, k <> "i18n" -> k <> "auditedOn" ->
       get_field k after = get_field k before) /\
    (json_data before -> after <> before).
Proof.
  intros w r data.
  assert (H : r = (Ok data, snd r)) by (vm_compute; reflexivity).
  split; [exact H|].
  exact (saveReport_mutates_lhr ms_digits "http://b.example/"
           (sample_payload 0) true w data (snd r) H).
Defined.

Lemma deleteReports_batches_witness :
  no_faults many_runs_world /\
  length (collection many_runs_world (slugify "http://a.example/")) < 50 /\
  exists w',
    deleteReports 50 "http://a.example/" many_runs_world = (Ok (Some tt), w') /\
    collection w' (slugify "http://a.example/") = [] /\
    delete_batches (drop (length (log many_runs_world)) (log w')) = [20; 20; 5].
Proof.
  assert (H1 : no_faults many_runs_world) by (intros n; reflexivity).
  assert (H2 : length (collection many_runs_world (slugify "http://a.example/")) < 50)
    by (vm_compute; lia).
  split; [exact H1|]. split; [exact H2|].
  destruct (deleteReports_batches 50 "http://a.example/" many_runs_world H1 H2)
    as (w' & Hrun & Hnil & _ & H45 & _).
  exists w'. split; [exact Hrun|]. split; [exact Hnil|].
  apply H45. vm_compute. reflexivity.
Defined.

Lemma getReports_attaches_full_report_witness :
  let w := set_clock 3000 after_second_save in
  let r := getReports ms_digits "http://b.example/" None w in
  let runs := match returned (CReports []) r with
              | CReports runs => runs
              | _ => []
              end in
  reachable ms_digits w /\
  not_cached "http://b.example/" None w /\
  r = (Ok (CReports runs), snd r) /\
  runs <> [] /\
  exists lhr iso,
    bucket w !! report_file (slugify "http://b.example/") = Some lhr /\
    (exists fs, lhr = JObj fs /\ get_field "auditedOn" fs = Some (JStr iso)) /\
    length (List.filter carries_lhr runs) = 1 /\
    Forall (fun r => r_lhr r =
              if String.eqb (ms_digits (r_auditedOn r)) iso
              then Some lhr else None) runs.
Proof.
  intros w r runs.
  assert (H0 : reachable ms_digits payload_world).
  { apply reach_init. vm_compute. reflexivity. }
  assert (H1 : reachable ms_digits after_first_save).
  { apply (reach_save ms_digits payload_world 1000
             "http://b.example/" (sample_payload 0) true
             (returned (mkRunData [] 0 None)
                (saveReport ms_digits "http://b.example/" (sample_payload 0) true
                   (set_clock 1000 payload_world)))
             after_first_save H0); [cbn; lia|].
    vm_compute. reflexivity. }
  assert (H2 : reachable ms_digits after_second_save).
  { apply (reach_save ms_digits after_first_save 2000
             "http://b.example/" (sample_payload 1) false
             (returned (mkRunData [] 0 None)
                (saveReport ms_digits "http://b.example/" (sample_payload 1) false
                   (set_clock 2000 after_first_save)))
             after_second_save H1); [vm_compute; reflexivity|].
    vm_compute. reflexivity. }
  assert (H3 : reachable ms_digits w).
  { apply (reach_frame ms_digits after_second_save w H2);
      [vm_compute; reflexivity|vm_compute; reflexivity|vm_compute; discriminate]. }
  assert (H4 : not_cached "http://b.example/" None w).
  { right. vm_compute. reflexivity. }
  assert (H5 : r = (Ok (CReports runs), snd r)) by (vm_compute; reflexivity).
  assert (H6 : runs <> []) by (vm_compute; discriminate).
  split; [exact H3|]. split; [exact H4|]. split; [exact H5|]. split; [exact H6|].
  exact (getReports_attaches_full_report ms_digits ms_digits_inj
           "http://b.example/" None w runs (snd r) H3 H4 H5 H6).
Defined.

(** C7, as the specification has it, fails. After two saves within one
    millisecond both runs have the date of the stored full report, and
    both carry it; after a save whose upload succeeded and whose [add]
    failed, the stored full report has the date of no run, and no run
    carries it. *)
Lemma getReports_payload_on_two_runs_or_none :
  let url := "http://b.example/" in
  let w2 := set_clock 3000 after_simultaneous_saves in
  let r2 := getReports ms_digits url None w2 in
  let runs2 := match returned (CReports []) r2 with
               | CReports runs => runs
               | _ => []
               end in
  let w0 := set_clock 3000 after_failed_add in
  let r0 := getReports ms_digits url None w0 in
  let runs0 := match returned (CReports []) r0 with
               | CReports runs => runs
               | _ => []
               end in
  (not_cached url None w2 /\ r2 = (Ok (CReports runs2), snd r2) /\
   length runs2 = 2 /\ length (List.filter carries_lhr runs2) = 2) /\
  (fst (saveReport ms_digits url (sample_payload 1) false failing_add_world)
   = Throw StorageError /\
   not_cached url None w0 /\ r0 = (Ok (CReports runs0), snd r0) /\
   length runs0 = 1 /\ length (List.filter carries_lhr runs0) = 0).
Proof.
  intros url w2 r2 runs2 w0 r0 runs0. split.
  - split; [right; vm_compute; reflexivity|].
    split; [vm_compute; reflexivity|].
    split; vm_compute; reflexivity.
  - split; [vm_compute; reflexivity|].
    split; [right; vm_compute; reflexivity|].
    split; [vm_compute; reflexivity|].
    split; vm_compute; reflexivity.
Qed.

(** * Further properties *)

(** ** Identifier codec *)

Lemma includes_slash_slugify (u : string) : includes "/" (slugify u) = false.
Proof.
  induction u as [|c rest IH]; [reflexivity|].
  cbn [slugify]. destruct (Ascii.eqb_spec c "/") as [->|Hc].
  - cbn [includes startsWith]. rewrite IH. reflexivity.
  - cbn [includes startsWith]. rewrite IH.
    destruct (Ascii.eqb_spec "/" c); [congruence|reflexivity].
Qed.

Lemma slugify_no_slash_id (id : string) :
  includes "/" id = false -> slugify id = id.
Proof.
  induction id as [|c id IH]; [reflexivity|].
  intros H. apply includes_cons in H as [H1 H2].
  cbn [slugify]. cbn [startsWith] in H1.
  rewrite andb_true_r in H1.
  rewrite Ascii.eqb_sym, H1, IH by exact H2. reflexivity.
Qed.

(** X1. An identifier made by [slugify] has no slash; [slugify] takes an
    identifier to itself exactly when it has no slash; hence [slugify] of
    an identifier that [slugify] made is that identifier, and the
    functions that take a URL reach the same collection when they are
    given its identifier. *)
Theorem slugify_idempotent (u id : string) :
  includes "/" (slugify u) = false /\
  (slugify id = id <-> includes "/" id = false) /\
  slugify (slugify u) = slugify u.
Proof.
  split; [apply includes_slash_slugify|]. split; [split|].
  - intros E. rewrite <- E. apply includes_slash_slugify.
  - apply slugify_no_slash_id.
  - apply slugify_no_slash_id, includes_slash_slugify.
Qed.

Lemma startsWith_http_slugify (u : string) :
  startsWith "http" (slugify u) = startsWith "http" u.
Proof.
  destruct u as [|c1 u]; [reflexivity|].
  cbn [slugify]. destruct (Ascii.eqb_spec c1 "/") as [->|H1]; [reflexivity|].
  cbn [startsWith]. destruct (Ascii.eqb "h" c1); [|reflexivity]. cbn [andb].
  destruct u as [|c2 u]; [reflexivity|].
  cbn [slugify]. destruct (Ascii.eqb_spec c2 "/") as [->|H2]; [reflexivity|].
  cbn [startsWith]. destruct (Ascii.eqb "t" c2); [|reflexivity]. cbn [andb].
  destruct u as [|c3 u]; [reflexivity|].
  cbn [slugify]. destruct (Ascii.eqb_spec c3 "/") as [->|H3]; [reflexivity|].
  cbn [startsWith]. destruct (Ascii.eqb "t" c3); [|reflexivity]. cbn [andb].
  destruct u as [|c4 u]; [reflexivity|].
  cbn [slugify]. destruct (Ascii.eqb_spec c4 "/") as [->|H4]; [reflexivity|].
  cbn [startsWith]. reflexivity.
Qed.

(** ** Statistics engine *)

Lemma String_leb_trans a b c :
  String.leb a b = true -> String.leb b c = true -> String.leb a c = true.
Proof.
  unfold String.leb. revert b c.
  induction a as [|x a IH]; intros [|y b] [|z c]; cbn; try congruence.
  unfold Ascii.compare.
  destruct (N.compare_spec (N_of_ascii x) (N_of_ascii y)) as [Exy|Lxy|Gxy];
    destruct (N.compare_spec (N_of_ascii y) (N_of_ascii z)) as [Eyz|Lyz|Gyz];
    destruct (N.compare_spec (N_of_ascii x) (N_of_ascii z)) as [Exz|Lxz|Gxz];
    try congruence; try lia.
  apply IH.
Qed.

Lemma default_compare_total a b :
  default_compare a b = true \/ default_compare b a = true.
Proof. apply String.leb_total. Qed.

Lemma default_compare_trans a b c :
  default_compare a b = true -> default_compare b c = true ->
  default_compare a c = true.
Proof. apply String_leb_trans. Qed.

Lemma array_sort_Permutation l : Permutation (array_sort l) l.
Proof. apply sort_by_Permutation. Qed.

Lemma at_index_elem (l : list number) i :
  i < length l -> at_index l i ∈ l.
Proof.
  intros Hi. unfold at_index.
  destruct (l !! i) as [x|] eqn:E.
  - apply list_elem_of_lookup. eauto.
  - apply lookup_ge_None in E. lia.
Qed.

Lemma half_bounds n :
  n <> 0 ->
  (n - 1) / 2 < n /\ (n mod 2 = 0 -> n / 2 - 1 < n /\ n / 2 < n).
Proof.
  intros Hn.
  pose proof (Nat.div_mod_eq n 2) as E.
  pose proof (Nat.mod_upper_bound n 2 ltac:(lia)) as B.
  pose proof (Nat.div_mod_eq (n - 1) 2) as E'.
  pose proof (Nat.mod_upper_bound (n - 1) 2 ltac:(lia)) as B'.
  split; [lia|]. intros H0. lia.
Qed.

Lemma median_not_NaN (numbers : list number) :
  numbers <> [] -> Forall (fun x => x <> NaN) numbers -> median numbers <> NaN.
Proof.
  intros Hne Hnum. unfold median.
  pose proof (array_sort_Permutation numbers) as P.
  set (sorted := array_sort numbers) in *.
  assert (Hs : Forall (fun x => x <> NaN) sorted) by (now rewrite P).
  assert (Hn : length sorted <> 0).
  { rewrite P. destruct numbers; [congruence|discriminate]. }
  destruct (half_bounds _ Hn) as [Hodd Heven].
  rewrite Forall_forall in Hs.
  destruct (Nat.eqb_spec (length sorted mod 2) 0) as [E|_].
  - destruct (Heven E) as [H1 H2].
    pose proof (Hs _ (at_index_elem _ _ H1)) as N1.
    pose proof (Hs _ (at_index_elem _ _ H2)) as N2.
    destruct (at_index sorted (length sorted / 2 - 1)) as [a|]; [|congruence].
    destruct (at_index sorted (length sorted / 2)) as [b|]; [|congruence].
    cbn. discriminate.
  - apply Hs, at_index_elem, Hodd.
Qed.

(** X2. [median] of finite numbers is [NaN] exactly for the empty array:
    the sum of two finite numbers is a number, also where it is too large
    to be finite. *)
Theorem median_NaN_iff (numbers : list number) :
  Forall finite numbers ->
  (median numbers = NaN <-> numbers = []).
Proof.
  intros Hnum. split; [|intros ->; reflexivity].
  intros Hm. destruct numbers as [|x l]; [reflexivity|].
  exfalso. revert Hm. apply median_not_NaN; [discriminate|].
  eapply Forall_impl; [exact Hnum|]. intros y Hy ->. exact Hy.
Qed.

Lemma median_NaN_iff_witness :
  Forall finite [of_Z 80; of_Z 90; of_Z 100] /\
  (median [of_Z 80; of_Z 90; of_Z 100] = NaN <->
   [of_Z 80; of_Z 90; of_Z 100] = []).
Proof.
  assert (H : Forall finite [of_Z 80; of_Z 90; of_Z 100])
    by (repeat constructor).
  split; [exact H|]. exact (median_NaN_iff _ H).
Defined.

(** X3. For an array of odd length, [median] returns one of its elements. *)
Theorem median_odd_elem (numbers : list number) :
  length numbers mod 2 <> 0 -> median numbers ∈ numbers.
Proof.
  intros Hodd. unfold median.
  pose proof (array_sort_Permutation numbers) as P.
  set (sorted := array_sort numbers) in *.
  assert (Hl : length sorted = length numbers) by (now rewrite P).
  rewrite Hl. destruct (Nat.eqb_spec (length numbers mod 2) 0) as [E|_];
    [contradiction|].
  apply list_elem_of_In, (Permutation_in _ P), list_elem_of_In.
  apply at_index_elem. rewrite Hl.
  apply half_bounds. intros E. rewrite E in Hodd. now apply Hodd.
Qed.

Lemma median_odd_elem_witness :
  length [of_Z 80; of_Z 90; of_Z 100] mod 2 <> 0 /\
  median [of_Z 80; of_Z 90; of_Z 100] ∈ [of_Z 80; of_Z 90; of_Z 100].
Proof.
  assert (H : length [of_Z 80; of_Z 90; of_Z 100] mod 2 <> 0)
    by (cbn; discriminate).
  split; [exact H|]. exact (median_odd_elem _ H).
Defined.

Lemma append_empty_r (s : string) : s +:+ "" = s.
Proof.
  induction s as [|c s IH]; [reflexivity|].
  change (String c (s +:+ "") = String c s). now rewrite IH.
Qed.

Lemma ToString_of_Z z : ToString (of_Z z) = int_digits z.
Proof.
  unfold ToString, of_Z, inject_Z. cbn [Qnum Qden].
  rewrite Z.mod_1_r, Z.div_1_r. cbn [Z.eqb]. rewrite append_empty_r.
  destruct z as [|p|p]; reflexivity.
Qed.

Lemma default_compare_of_Z_antisym a b :
  default_compare (of_Z a) (of_Z b) = true ->
  default_compare (of_Z b) (of_Z a) = true -> a = b.
Proof.
  unfold default_compare. rewrite !ToString_of_Z. intros H1 H2.
  apply ms_digits_inj. unfold ms_digits. now apply String.leb_antisym.
Qed.

Lemma array_sort_StronglySorted l :
  StronglySorted (fun a b => default_compare a b = true) (array_sort l).
Proof.
  apply sort_by_StronglySorted;
    [apply default_compare_total|apply default_compare_trans].
Qed.

Lemma StronglySorted_Permutation_eq {A} (R : A -> A -> Prop) (l1 l2 : list A) :
  (forall x1 x2, x1 ∈ l1 -> x2 ∈ l2 -> R x1 x2 -> R x2 x1 -> x1 = x2) ->
  StronglySorted R l1 -> StronglySorted R l2 -> Permutation l1 l2 -> l1 = l2.
Proof.
  intros Hasym Hl1. revert l2 Hasym.
  induction Hl1 as [|x1 l1 ? IH Hx1]; intros l2 Hasym Hl2 E.
  { symmetry. now apply Permutation_nil. }
  destruct Hl2 as [|x2 l2 ? Hx2].
  { now apply Permutation_nil_r in E. }
  assert (x1 = x2) as ->.
  { rewrite Forall_forall in Hx1, Hx2.
    assert (Hx2' : x2 ∈ x1 :: l1) by (rewrite E; left).
    assert (Hx1' : x1 ∈ x2 :: l2) by (rewrite <- E; left).
    apply elem_of_cons in Hx1' as [?|Hx1']; [assumption|].
    apply elem_of_cons in Hx2' as [?|Hx2']; [congruence|].
    apply Hasym; [left|left|auto|auto]. }
  f_equal. apply IH; [|assumption|now apply Permutation_cons_inv in E].
  intros y1 y2 H1 H2. apply Hasym; now right.
Qed.

Lemma array_sort_of_Z_Permutation (l l' : list Z) :
  Permutation l l' -> array_sort (map of_Z l) = array_sort (map of_Z l').
Proof.
  intros P.
  apply (StronglySorted_Permutation_eq
           (fun a b => default_compare a b = true)).
  - intros x y Hx Hy Hxy Hyx.
    apply list_elem_of_In, (Permutation_in _ (array_sort_Permutation _)),
      in_map_iff in Hx as (a & <- & _).
    apply list_elem_of_In, (Permutation_in _ (array_sort_Permutation _)),
      in_map_iff in Hy as (b & <- & _).
    f_equal. now apply default_compare_of_Z_antisym.
  - apply array_sort_StronglySorted.
  - apply array_sort_StronglySorted.
  - rewrite !array_sort_Permutation. now apply Permutation_map.
Qed.

(** X4. The [median] of an array of integers does not depend on the order
    of the array. *)
Theorem median_of_Z_Permutation (l l' : list Z) :
  Permutation l l' -> median (map of_Z l) = median (map of_Z l').
Proof.
  intros P. unfold median. now rewrite (array_sort_of_Z_Permutation l l' P).
Qed.

Lemma median_of_Z_Permutation_witness :
  Permutation [80; 90; 100]%Z [100; 80; 90]%Z /\
  median (map of_Z [80; 90; 100]%Z) = median (map of_Z [100; 80; 90]%Z).
Proof.
  assert (P : Permutation [80; 90; 100]%Z [100; 80; 90]%Z).
  { apply perm_trans with [80; 100; 90]%Z.
    - apply perm_skip, perm_swap.
    - apply perm_swap. }
  split; [exact P|]. exact (median_of_Z_Permutation _ _ P).
Defined.

(** ** Saving a report *)

(** [bind_keep H x Hx]: as [bind_pure], and keeps the equation [Hx] of the
    pure computation. *)
Ltac bind_keep H x Hx :=
  let w1 := fresh "w" in
  apply bind_ok in H as (x & w1 & Hx & H);
  match type of Hx with
  | ?m _ = _ =>
      let P := fresh "P" in
      let E := fresh "E" in
      assert (P : pure m) by auto with pure;
      pose proof (P _ _ _ Hx) as E; clear P; subst w1
  end.

Lemma strip_auditRefs_ok cat w r w' :
  strip_auditRefs cat w = (Ok r, w') -> r = without_auditRefs cat /\ w' = w.
Proof. destruct cat; cbn; intros H; inversion H; auto. Qed.

Lemma append_inj_l p a b : p +:+ a = p +:+ b -> a = b.
Proof.
  induction p as [|c p IH]; [auto|].
  change (String c (p +:+ a) = String c (p +:+ b) -> a = b).
  intros H. inversion H. auto.
Qed.

Section SaveProperties.
Context (toISOString : Date -> string).

(** What [saveReport] puts into the record it returns. *)
Lemma saveReport_data url json replace w data w' :
  saveReport toISOString url json replace w = (Ok data, w') ->
  exists l o w0 cats vals nk,
    p_lhr json = Some l /\ heap w !! l = Some o /\
    clone_categories toISOString o w0 = (Ok cats, w0) /\
    Object_values cats w0 = (Ok vals, w0) /\
    lhrSlim data = map without_auditRefs vals /\
    Object_keys_length (p_crux json) w0 = (Ok nk, w0) /\
    crux data = (if Nat.eqb nk 0 then None else p_crux json) /\
    auditedOn data = clock w.
Proof.
  intros H. unfold saveReport in H.
  apply bind_ok in H as ([l o] & w1 & Hl & H).
  apply lhr_object_ok in Hl as (Hl & Ho & ->).
  apply bind_ok in H as (? & w2 & H2 & H). apply lhr_modify_ok in H2. subst w2.
  bind_keep H cats Hcats. bind_keep H vals Hvals. bind_keep H slim Hslim.
  apply bind_ok in H as (today & w6 & H6 & H). apply new_Date_ok in H6 as [-> ->].
  bind_keep H nk Hnk.
  apply (mapM_ok _ without_auditRefs) in Hslim as [-> _];
    [|apply strip_auditRefs_ok].
  apply bind_ok in H as (docs & w8 & _ & H).
  apply bind_ok in H as (? & w9 & _ & H).
  apply bind_ok in H as (? & w10 & _ & H).
  apply bind_ok in H as (? & w11 & _ & H).
  apply bind_ok in H as (? & w12 & _ & H).
  apply bind_ok in H as (? & w13 & _ & H).
  apply bind_ok in H as (? & w14 & _ & H).
  inversion H; subst data w'. cbn [lhrSlim crux auditedOn fst snd] in *.
  eexists l, o, _, cats, vals, nk. repeat split; eauto.
Qed.

(** X5. The record that [saveReport] stores lists the categories of the
    report in their order, each without its [auditRefs]; the caller's [lhr]
    and the uploaded full report keep the categories as they were. *)
Theorem saveReport_slim_records url json replace w data w' l o cats :
  saveReport toISOString url json replace w = (Ok data, w') ->
  p_lhr json = Some l -> heap w !! l = Some o ->
  get_field "categories" o = Some (FJson (JObj cats)) ->
  lhrSlim data = map (fun kv => without_auditRefs (snd kv)) cats /\
  (exists after, heap w' !! l = Some after /\
     get_field "categories" after = Some (FJson (JObj cats))) /\
  (exists fs, bucket w' !! report_file (slugify url) = Some (JObj fs) /\
     get_field "categories" fs = Some (JObj cats)).
Proof.
  intros H Hl Ho Hc.
  pose proof (saveReport_data _ _ _ _ _ _ H)
    as (l' & o' & w0 & c & vals & nk & Hl' & Ho' & Hcl & Hv & Hs & _).
  pose proof (saveReport_ok _ _ _ _ _ _ _ H)
    as (l'' & o'' & Hl'' & Ho'' & _ & _ & _ & Hh & Hb & _).
  assert (l' = l) by congruence. subst l'.
  assert (l'' = l) by congruence. subst l''.
  assert (o' = o) by congruence. subst o'.
  assert (o'' = o) by congruence. subst o''.
  unfold clone_categories in Hcl. rewrite Hc in Hcl.
  inversion Hcl; subst c. cbn in Hv. inversion Hv; subst vals.
  assert (Hcat : get_field "categories"
            (set_field "auditedOn" (FDate (clock w)) (del_field "i18n" o))
          = Some (FJson (JObj cats))).
  { rewrite get_field_set_field_ne, get_field_del_field_ne, Hc;
      [reflexivity|discriminate|discriminate]. }
  split; [|split].
  - rewrite Hs, map_map. reflexivity.
  - eexists. split; [|exact Hcat].
    rewrite Hh, !list_lookup_alter_eq, Ho. reflexivity.
  - eexists. split.
    + rewrite Hb, lookup_insert_eq. reflexivity.
    + rewrite get_field_JSON_stringify, Hcat. reflexivity.
Qed.

(** X6. Field data without keys is not stored, whatever the save: the
    record returned has no field data. When the save replaces the last
    run, that run gets the slim records and the date of the save and keeps
    the field data it had; when the save appends a run, the new run has
    no field data. *)
Theorem saveReport_empty_crux url json replace w data w' :
  saveReport toISOString url json replace w = (Ok data, w') ->
  p_crux json = Some (JObj []) ->
  crux data = None /\
  match replace, last_doc w (slugify url) with
  | true, Some (i, old) =>
      collection w' (slugify url) !! i
      = Some (mkDoc (lhrSlim data) (Timestamp_fromDate (clock w)) (d_crux old))
  | _, _ =>
      collection w' (slugify url)
      = collection w (slugify url)
        ++ [mkDoc (lhrSlim data) (Timestamp_fromDate (clock w)) None]
  end.
Proof.
  intros H Hc.
  pose proof (saveReport_data _ _ _ _ _ _ H)
    as (l & o & w0 & c & vals & nk & _ & _ & _ & _ & _ & Hnk & Hcrux & Ht).
  pose proof (saveReport_ok _ _ _ _ _ _ _ H)
    as (_ & _ & _ & _ & _ & Hdb & _).
  rewrite Hc in Hnk. cbn in Hnk. inversion Hnk; subst nk. cbn in Hcrux.
  split; [exact Hcrux|].
  rewrite (collection_insert _ _ _ _ Hdb).
  assert (Happ : doc_of_data data
                 = mkDoc (lhrSlim data) (Timestamp_fromDate (clock w)) None).
  { unfold doc_of_data. now rewrite Hcrux, Ht. }
  destruct replace; [|now rewrite Happ].
  destruct (last_doc w (slugify url)) as [[i old]|] eqn:Hlast;
    [|now rewrite Happ].
  apply last_doc_Some in Hlast as [Hi _]. cbn [fst].
  rewrite list_lookup_alter_eq, Hi. cbn. unfold doc_update.
  rewrite Hcrux, Ht. reflexivity.
Qed.

(** X7. After a save, [getFullReport] of the URL gives what
    [JSON.stringify] makes of the caller's [lhr] as the save left it. *)
Theorem saveReport_getFullReport url json replace w data w' :
  saveReport toISOString url json replace w = (Ok data, w') ->
  faulty w' (length (log w')) = false ->
  exists l after,
    p_lhr json = Some l /\ heap w' !! l = Some after /\
    fst (getFullReport url w') = Ok (JSON_stringify toISOString after).
Proof.
  intros H Hf.
  pose proof (saveReport_ok _ _ _ _ _ _ _ H)
    as (l & o & Hl & Ho & _ & _ & _ & Hh & Hb & _).
  exists l, (set_field "auditedOn" (FDate (clock w)) (del_field "i18n" o)).
  split; [exact Hl|]. split.
  - rewrite Hh, !list_lookup_alter_eq, Ho. reflexivity.
  - unfold getFullReport, file_download, io. rewrite Hf. cbn.
    rewrite Hb, lookup_insert_eq. reflexivity.
Qed.

(** X8. A save for one URL leaves the runs, the full report, the
    [lastViewed] date and the cached report list of every other
    identifier, and every other payload object, as they were. *)
Theorem saveReport_other_urls url json replace w data w' id' :
  saveReport toISOString url json replace w = (Ok data, w') ->
  id' <> slugify url ->
  collection w' id' = collection w id' /\
  bucket w' !! report_file id' = bucket w !! report_file id' /\
  meta w' !! id' = meta w !! id' /\
  memcache w' !! ("getReports_" +:+ id') = memcache w !! ("getReports_" +:+ id') /\
  (forall l', p_lhr json <> Some l' -> heap w' !! l' = heap w !! l').
Proof.
  intros H Hne.
  pose proof (saveReport_ok _ _ _ _ _ _ _ H)
    as (l & o & Hl & Ho & _ & Hdb & Hm & Hh & Hb & Hmeta & _).
  split; [|split; [|split; [|split]]].
  - apply (collection_insert_ne _ _ _ _ _ Hdb). congruence.
  - rewrite Hb. apply lookup_insert_ne. intros E.
    apply report_file_inj in E. congruence.
  - rewrite Hmeta. apply lookup_insert_ne. congruence.
  - rewrite Hm.
    rewrite lookup_delete_ne by (apply not_eq_sym, getReports_key_ne_medians).
    rewrite lookup_delete_ne
      by (intros E; apply append_inj_l in E; congruence).
    destruct (last_doc w (slugify url)); [reflexivity|].
    apply lookup_delete_ne, not_eq_sym, getReports_key_ne_urls.
  - intros l' Hl'. rewrite Hh.
    rewrite !list_lookup_alter_ne by congruence. reflexivity.
Qed.

(** X9. With a payload that has no [lhr], or no [crux], [saveReport] throws
    before it calls any external service: the database, the bucket and
    memcache are as they were. Without [lhr] nothing at all has changed. *)
Theorem saveReport_incomplete_payload url json replace w :
  p_lhr json = None \/ p_crux json = None ->
  exists e w',
    saveReport toISOString url json replace w = (Throw e, w') /\
    same_stores w w' /\
    (p_lhr json = None -> w' = w).
Proof.
  intros Hbad. unfold saveReport, bind.
  destruct (lhr_object (p_lhr json) w) as [[[l o]|e] w1] eqn:E1.
  2: { apply pure_lhr_object in E1. subst w1.
       exists e, w. repeat split. }
  apply lhr_object_ok in E1 as (Hl & Ho & ->).
  destruct Hbad as [Hbad|Hbad]; [congruence|].
  cbn [lhr_modify fst snd].
  set (w2 := set_heap (alter (del_field "i18n") l) w).
  assert (S2 : same_stores w w2) by (repeat split).
  assert (N : p_lhr json = None -> w2 = w) by congruence.
  destruct (clone_categories toISOString o w2) as [[cats|e] w3] eqn:E3;
    (apply pure_clone_categories in E3; subst w3); [|eauto].
  destruct (Object_values cats w2) as [[vals|e] w4] eqn:E4;
    (apply pure_Object_values in E4; subst w4); [|eauto].
  destruct (mapM strip_auditRefs vals w2) as [[slim|e] w5] eqn:E5;
    (apply (pure_mapM _ _ pure_strip_auditRefs) in E5; subst w5); [|eauto].
  cbn [new_Date]. rewrite Hbad. cbn [Object_keys_length throw]. eauto.
Qed.

End SaveProperties.

(** ** Retention metadata *)

Lemma meta_call_ok {A} (f : World -> Res A * World) w a w' :
  meta_call f w = (Ok a, w') ->
  faulty w (length (log w)) = false /\ f w = (Ok a, w').
Proof.
  unfold meta_call. destruct (faulty w (length (log w))); [discriminate|]. auto.
Qed.

Lemma NoDup_map_fst_filter {A B} (p : A * B -> bool) (l : list (A * B)) :
  NoDup (map fst l) -> NoDup (map fst (List.filter p l)).
Proof.
  induction l as [|x l IH]; cbn; [auto|].
  intros H. apply NoDup_cons in H as [Hx Hl].
  destruct (p x); [|auto]. cbn. apply NoDup_cons. split; [|auto].
  intros Hin. apply Hx.
  apply list_elem_of_In, in_map_iff in Hin as (y & Ey & Hy).
  apply filter_In in Hy as [Hy _].
  apply list_elem_of_In, in_map_iff. eauto.
Qed.

Lemma getUrlsLastViewedBefore_ok cutoffDate w ids w' :
  getUrlsLastViewedBefore cutoffDate w = (Ok ids, w') ->
  w' = w /\ NoDup ids /\
  forall id, id ∈ ids <->
    exists t, meta w !! id = Some t /\ (t < cutoffDate)%Z.
Proof.
  intros H. apply meta_call_ok in H as [_ H]. inversion H; subst w'. clear H.
  split; [reflexivity|].
  match goal with
  | |- context [map fst (sort_by ?le2 (sort_by ?le1 ?l))] =>
      assert (P : Permutation (map fst (sort_by le2 (sort_by le1 l)))
                              (map fst l))
        by (apply Permutation_map;
            etransitivity; apply sort_by_Permutation)
  end.
  split.
  - rewrite P. apply NoDup_map_fst_filter, NoDup_fst_map_to_list.
  - intros id. rewrite P. rewrite list_elem_of_In, in_map_iff. split.
    + intros ([id' t] & E & Hin). cbn in E. subst id'.
      apply filter_In in Hin as [Hin Ht]. cbn in Ht.
      apply list_elem_of_In, elem_of_map_to_list in Hin.
      exists t. split; [exact Hin|]. now apply Z.ltb_lt.
    + intros (t & Hm & Ht). exists (id, t). split; [reflexivity|].
      apply filter_In. split.
      * now apply list_elem_of_In, elem_of_map_to_list.
      * cbn. now apply Z.ltb_lt.
Qed.

(** X10. [getUrlsLastViewedBefore] changes nothing and returns, each once,
    the identifiers whose [lastViewed] date is strictly before the cutoff
    date. *)
Theorem getUrlsLastViewedBefore_stale cutoffDate w ids w' :
  getUrlsLastViewedBefore cutoffDate w = (Ok ids, w') ->
  w' = w /\ NoDup ids /\
  forall id, id ∈ ids <->
    exists lastViewed,
      meta w !! id = Some lastViewed /\ (lastViewed < cutoffDate)%Z.
Proof. apply getUrlsLastViewedBefore_ok. Qed.

Section RetentionProperties.
Context (toISOString : Date -> string).

(** X11. A URL that was just saved is not stale: after a save, the
    identifier of the URL is not listed for any cutoff date that is not
    after the date of the save, whatever its [lastViewed] date was
    before. *)
Theorem saveReport_then_stale url json replace w data w1 cutoffDate ids w2 :
  saveReport toISOString url json replace w = (Ok data, w1) ->
  getUrlsLastViewedBefore cutoffDate w1 = (Ok ids, w2) ->
  (cutoffDate <= auditedOn data)%Z ->
  slugify url ∉ ids.
Proof.
  intros H1 H2 Hle.
  pose proof (saveReport_ok _ _ _ _ _ _ _ H1)
    as (_ & _ & _ & _ & Hd & _ & _ & _ & _ & Hmeta & _).
  apply getUrlsLastViewedBefore_ok in H2 as (_ & _ & Hin).
  rewrite Hin, Hmeta, lookup_insert_eq.
  intros (t & E & Ht). inversion E; subst t. lia.
Qed.

End RetentionProperties.

(** X12. After [updateLastViewed] at time [t], the identifier of the URL is
    among the stale ones exactly for the cutoff dates after [t], whatever
    its [lastViewed] date was before. *)
Theorem updateLastViewed_then_stale url w u w1 cutoffDate ids w2 :
  updateLastViewed url w = (Ok u, w1) ->
  getUrlsLastViewedBefore cutoffDate w1 = (Ok ids, w2) ->
  (slugify url ∈ ids <-> (clock w < cutoffDate)%Z).
Proof.
  intros H1 H2. apply updateLastViewed_ok in H1. subst w1.
  apply getUrlsLastViewedBefore_ok in H2 as (_ & _ & Hin).
  rewrite Hin. cbn. rewrite lookup_insert_eq. split.
  - intros (t & E & Ht). congruence.
  - intros Ht. eauto.
Qed.

Lemma deleteMetadata_ok url w u w' :
  deleteMetadata url w = (Ok u, w') ->
  w' = set_meta (delete (slugify url)) w.
Proof. intros H. apply meta_call_ok in H as [_ H]. now inversion H. Qed.

(** X13. [deleteMetadata] removes the [lastViewed] date of the URL's
    identifier and nothing else: the identifier is not listed as stale
    afterwards, whatever the cutoff date, the other identifiers are listed
    as before, and the run documents and the full report remain. *)
Theorem deleteMetadata_forgets url w u w1 :
  deleteMetadata url w = (Ok u, w1) ->
  meta w1 = delete (slugify url) (meta w) /\
  db w1 = db w /\ bucket w1 = bucket w /\ memcache w1 = memcache w /\
  forall cutoffDate ids w2,
    getUrlsLastViewedBefore cutoffDate w1 = (Ok ids, w2) ->
    (slugify url ∉ ids) /\
    forall ids0 w0,
      getUrlsLastViewedBefore cutoffDate w = (Ok ids0, w0) ->
      forall id, id ∈ ids <-> id ∈ ids0 /\ id <> slugify url.
Proof.
  intros H. apply deleteMetadata_ok in H. subst w1. cbn.
  repeat (split; [reflexivity|]).
  intros cutoffDate ids w2 H2.
  apply getUrlsLastViewedBefore_ok in H2 as (_ & _ & Hin). cbn in Hin.
  split.
  - rewrite Hin. intros (t & E & _). rewrite lookup_delete_eq in E. discriminate.
  - intros ids0 w0 H0.
    apply getUrlsLastViewedBefore_ok in H0 as (_ & _ & Hin0).
    intros id. rewrite Hin, Hin0. split.
    + intros (t & E & Ht). apply lookup_delete_Some in E as [Hne E].
      split; [eauto|congruence].
    + intros [(t & E & Ht) Hne]. exists t. split; [|exact Ht].
      apply lookup_delete_Some. split; [congruence|exact E].
Qed.

(** ** Frames *)

Section RespectFacts.
Context (R : World -> World -> Prop).
Hypothesis R_refl : forall w, R w w.
Hypothesis R_trans : forall w1 w2 w3, R w1 w2 -> R w2 w3 -> R w1 w3.

Lemma respects_pure {A} (m : M A) : pure m -> respects R m.
Proof. intros P w r w' H. apply P in H. subst. apply R_refl. Qed.

Lemma respects_bind {A B} (m : M A) (k : A -> M B) :
  respects R m -> (forall a, respects R (k a)) -> respects R (bind m k).
Proof.
  intros Hm Hk w r w'. unfold bind.
  destruct (m w) as [[a|e] w1] eqn:E; intros H.
  - eapply R_trans; [eapply Hm, E|eapply Hk, H].
  - inversion H; subst. eapply Hm, E.
Qed.

Lemma respects_try_catch {A B} (m : M A) (k : A -> M B) (h : Err -> M B) :
  respects R m -> (forall a, respects R (k a)) -> (forall e, respects R (h e)) ->
  respects R (try_catch m k h).
Proof.
  intros Hm Hk Hh w r w'. unfold try_catch.
  destruct (m w) as [[a|e] w1] eqn:E; intros H.
  - eapply R_trans; [eapply Hm, E|eapply Hk, H].
  - eapply R_trans; [eapply Hm, E|eapply Hh, H].
Qed.

Lemma respects_promise_all2 (m1 m2 : M unit) :
  respects R m1 -> respects R m2 -> respects R (promise_all2 m1 m2).
Proof.
  intros H1 H2 w r w'. unfold promise_all2.
  destruct (m1 w) as [r1 w1] eqn:E1. destruct (m2 w1) as [r2 w2] eqn:E2.
  intros H. assert (w' = w2) by (destruct r1, r2; now inversion H). subst.
  eapply R_trans; [eapply H1, E1|eapply H2, E2].
Qed.

Lemma respects_mapM {A B} (f : A -> M B) l :
  (forall a, respects R (f a)) -> respects R (mapM f l).
Proof.
  intros Hf. induction l as [|x l IH]; cbn [mapM].
  - apply respects_pure, pure_ret.
  - apply respects_bind; [apply Hf|]. intros y.
    apply respects_bind; [exact IH|]. intros ys. apply respects_pure, pure_ret.
Qed.

Lemma respects_foldM {A B} (f : B -> A -> M B) l b :
  (forall b a, respects R (f b a)) -> respects R (foldM f b l).
Proof.
  intros Hf. revert b. induction l as [|x l IH]; intros b; cbn [foldM].
  - apply respects_pure, pure_ret.
  - apply respects_bind; [apply Hf|]. intros b'. apply IH.
Qed.

(** An external call: its event, then its effect. *)
Lemma respects_io {A} ev (f : World -> Res A * World) :
  (forall w, R w (add_event ev w)) ->
  (forall w r w', f w = (r, w') -> R w w') ->
  respects R (io ev f).
Proof.
  intros Hev Hf w r w'. unfold io.
  destruct (faulty w (length (log w))); intros H.
  - inversion H; subst. apply Hev.
  - eapply R_trans; [apply Hev|eapply Hf, H].
Qed.

End RespectFacts.

Section QueryFrames.
Context (R : World -> World -> Prop).
Hypothesis R_refl : forall w, R w w.
Hypothesis R_trans : forall w1 w2 w3, R w1 w2 -> R w2 w3 -> R w1 w3.
Hypothesis R_event :
  forall ev w, ev <> EvGetCollections -> R w (add_event ev w).
Hypothesis R_insert :
  forall (k : string) (v : CacheVal) w, R w (set_memcache (insert k v) w).

Lemma respects_query_get id o limit : respects R (query_get id o limit).
Proof.
  unfold query_get. destruct limit as [n|].
  - apply respects_io; [exact R_trans|intros w; now apply R_event|].
    intros w r w' H. inversion H. apply R_refl.
  - apply respects_pure; [exact R_refl|apply pure_throw].
Qed.

Lemma respects_memcache_get key : respects R (memcache_get key).
Proof.
  apply respects_io; [exact R_trans|intros w; now apply R_event|].
  intros w r w' H. inversion H. apply R_refl.
Qed.

Lemma respects_memcache_set key v : respects R (memcache_set key v).
Proof.
  apply respects_io; [exact R_trans|intros w; now apply R_event|].
  intros w r w' H. inversion H. apply R_insert.
Qed.

Lemma respects_file_download name : respects R (file_download name).
Proof.
  apply respects_io; [exact R_trans|intros w; now apply R_event|].
  intros w r w' H. destruct (bucket w !! name); inversion H; apply R_refl.
Qed.

Lemma pure_push_score scores cat : pure (push_score scores cat).
Proof. unfold push_score. auto with pure. Qed.

Lemma respects_getAllScores url n : respects R (getAllScores url n).
Proof.
  unfold getAllScores.
  apply respects_bind; [exact R_trans|apply respects_query_get|].
  intros docs. apply respects_pure; [exact R_refl|].
  apply pure_foldM. intros b a. apply pure_foldM. apply pure_push_score.
Qed.

Lemma respects_getMedianScores url n : respects R (getMedianScores url n).
Proof.
  unfold getMedianScores.
  apply respects_bind; [exact R_trans|apply respects_getAllScores|].
  intros scores. apply respects_pure; [exact R_refl|apply pure_ret].
Qed.

Lemma pure_urls_of v : pure (urls_of v).
Proof. destruct v as [| |[|]]; cbn; auto with pure. Qed.

Section WithUrls.
Hypothesis R_urls : respects R (getAllSavedUrls None).

Lemma respects_pooled_medians n uc : respects R (pooled_medians n uc).
Proof.
  unfold pooled_medians.
  apply respects_bind; [exact R_trans|apply R_urls|].
  intros saved.
  apply respects_bind;
    [exact R_trans|apply respects_pure; [exact R_refl|apply pure_urls_of]|].
  intros urls.
  apply respects_bind; [exact R_trans| |].
  - apply respects_foldM; [exact R_refl|exact R_trans|]. intros b a.
    apply respects_bind; [exact R_trans|apply respects_getAllScores|].
    intros s. apply respects_pure; [exact R_refl|apply pure_ret].
  - intros combined.
    apply respects_bind; [exact R_trans| |].
    + destruct (is_true uc);
        [apply respects_memcache_set
        |apply respects_pure; [exact R_refl|apply pure_ret]].
    + intros _. apply respects_pure; [exact R_refl|apply pure_ret].
Qed.

Lemma respects_getMedianScoresOfAllUrls arg :
  respects R (getMedianScoresOfAllUrls arg).
Proof.
  unfold getMedianScoresOfAllUrls.
  destruct (destructure_config arg) as [n uc].
  apply respects_bind; [exact R_trans|apply respects_memcache_get|].
  intros val. destruct (cache_hit val uc).
  - apply respects_pure; [exact R_refl|apply pure_ret].
  - apply respects_pooled_medians.
Qed.

End WithUrls.

Hypothesis R_getCollections : forall w, R w (add_event EvGetCollections w).

Lemma respects_getAllSavedUrls arg : respects R (getAllSavedUrls arg).
Proof.
  unfold getAllSavedUrls.
  apply respects_bind; [exact R_trans|apply respects_memcache_get|].
  intros val. destruct (cache_hit val _).
  - apply respects_pure; [exact R_refl|apply pure_ret].
  - apply respects_bind; [exact R_trans| |].
    + apply respects_io; [exact R_trans|apply R_getCollections|].
      intros w r w' H. inversion H. apply R_refl.
    + intros collections.
      apply respects_bind; [exact R_trans|apply respects_memcache_set|].
      intros _. apply respects_pure; [exact R_refl|apply pure_ret].
Qed.

Hypothesis R_meta : forall f w, R w (set_meta f w).

Lemma respects_updateLastViewed url : respects R (updateLastViewed url).
Proof.
  unfold updateLastViewed.
  apply respects_bind;
    [exact R_trans|apply respects_pure; [exact R_refl|apply pure_new_Date]|].
  intros now. apply respects_io; [exact R_trans|intros w; now apply R_event|].
  intros w r w' H. inversion H. apply R_meta.
Qed.

Lemma respects_getReports toISOString url arg :
  respects R (getReports toISOString url arg).
Proof.
  unfold getReports. destruct (destructure_config arg) as [n uc].
  apply respects_bind; [exact R_trans|apply respects_memcache_get|].
  intros val. destruct (cache_hit val uc).
  - apply respects_bind; [exact R_trans|apply respects_updateLastViewed|].
    intros _. apply respects_pure; [exact R_refl|apply pure_ret].
  - unfold fetch_reports.
    apply respects_bind; [exact R_trans|apply respects_query_get|].
    intros [|d docs]; [apply respects_pure; [exact R_refl|apply pure_ret]|].
    apply respects_bind; [exact R_trans|apply respects_updateLastViewed|].
    intros _.
    apply respects_bind; [exact R_trans|apply respects_file_download|].
    intros lhr.
    apply respects_bind; [exact R_trans| |].
    + apply respects_pure; [exact R_refl|].
      apply pure_mapM. intros doc. unfold attach_lhr. auto with pure.
    + intros runs.
      apply respects_bind; [exact R_trans| |].
      * destruct (is_true uc);
          [apply respects_memcache_set
          |apply respects_pure; [exact R_refl|apply pure_ret]].
      * intros _. apply respects_pure; [exact R_refl|apply pure_ret].
Qed.

End QueryFrames.

Lemma same_data_refl w : same_data w w.
Proof. repeat split. Qed.

Lemma same_data_trans w1 w2 w3 :
  same_data w1 w2 -> same_data w2 w3 -> same_data w1 w3.
Proof. unfold same_data. intros (?&?&?) (?&?&?). repeat split; congruence. Qed.

Lemma respects_meta_call {A} (R : World -> World -> Prop)
  (f : World -> Res A * World) :
  (forall w, R w w) -> (forall w r w', f w = (r, w') -> R w w') ->
  respects R (meta_call f).
Proof.
  intros Hr Hf w r w'. unfold meta_call.
  destruct (faulty w (length (log w))); intros H.
  - inversion H. apply Hr.
  - eapply Hf, H.
Qed.

(** X14. The functions that read the report store never write to it:
    whether they return or throw, the run documents, the files of the
    bucket and the payload objects are as they were. *)
Theorem queries_keep_data toISOString url arg cfg uc n cutoffDate w :
  same_data w (snd (getReports toISOString url arg w)) /\
  same_data w (snd (getFullReport url w)) /\
  same_data w (snd (getAllSavedUrls uc w)) /\
  same_data w (snd (getAllScores url n w)) /\
  same_data w (snd (getMedianScores url n w)) /\
  same_data w (snd (getMedianScoresOfAllUrls cfg w)) /\
  same_data w (snd (updateLastViewed url w)) /\
  same_data w (snd (getUrlsLastViewedBefore cutoffDate w)).
Proof.
  assert (Hev : forall ev w, ev <> EvGetCollections ->
                 same_data w (add_event ev w)) by (repeat split).
  assert (Hgc : forall w, same_data w (add_event EvGetCollections w))
    by (repeat split).
  assert (Hmc : forall (k : string) (v : CacheVal) w,
                 same_data w (set_memcache (insert k v) w)) by (repeat split).
  assert (Hme : forall f w, same_data w (set_meta f w)) by (repeat split).
  assert (Hu : respects same_data (getAllSavedUrls None)).
  { apply respects_getAllSavedUrls;
      first [exact same_data_refl|exact same_data_trans|assumption]. }
  assert (K : forall {A} (m : M A), respects same_data m ->
                same_data w (snd (m w))).
  { intros A m Hm. destruct (m w) as [r w'] eqn:E. exact (Hm _ _ _ E). }
  split.
  { apply K. apply respects_getReports;
      first [exact same_data_refl|exact same_data_trans|assumption]. }
  split.
  { apply K. apply respects_file_download;
      first [exact same_data_refl|exact same_data_trans|assumption]. }
  split.
  { apply K. apply respects_getAllSavedUrls;
      first [exact same_data_refl|exact same_data_trans|assumption]. }
  split.
  { apply K. apply respects_getAllScores;
      first [exact same_data_refl|exact same_data_trans|assumption]. }
  split.
  { apply K. apply respects_getMedianScores;
      first [exact same_data_refl|exact same_data_trans|assumption]. }
  split.
  { apply K. apply respects_getMedianScoresOfAllUrls;
      first [exact same_data_refl|exact same_data_trans|assumption]. }
  split.
  { apply K. apply respects_updateLastViewed;
      first [exact same_data_refl|exact same_data_trans|assumption]. }
  apply K. apply respects_meta_call; [apply same_data_refl|].
  intros w0 r w' H. inversion H. apply same_data_refl.
Qed.

(** X15. Reading the scores or the list of URLs is not a view: the
    [lastViewed] dates are as they were, so that a URL whose scores are
    read but whose reports are not goes stale. *)
Theorem scores_are_not_views url cfg uc n w :
  meta (snd (getAllSavedUrls uc w)) = meta w /\
  meta (snd (getAllScores url n w)) = meta w /\
  meta (snd (getMedianScores url n w)) = meta w /\
  meta (snd (getMedianScoresOfAllUrls cfg w)) = meta w.
Proof.
  set (R := fun w w' : World => meta w' = meta w).
  assert (Hr : forall w, R w w) by reflexivity.
  assert (Ht : forall w1 w2 w3, R w1 w2 -> R w2 w3 -> R w1 w3)
    by (unfold R; congruence).
  assert (Hev : forall ev w, ev <> EvGetCollections -> R w (add_event ev w))
    by reflexivity.
  assert (Hgc : forall w, R w (add_event EvGetCollections w)) by reflexivity.
  assert (Hmc : forall (k : string) (v : CacheVal) w,
                 R w (set_memcache (insert k v) w)) by reflexivity.
  assert (Hu : respects R (getAllSavedUrls None))
    by (now apply respects_getAllSavedUrls).
  assert (K : forall {A} (m : M A), respects R m -> meta (snd (m w)) = meta w).
  { intros A m Hm. destruct (m w) as [r w'] eqn:E. exact (Hm _ _ _ E). }
  split; [apply K; now apply respects_getAllSavedUrls|].
  split; [apply K; now apply respects_getAllScores|].
  split; [apply K; now apply respects_getMedianScores|].
  apply K. now apply respects_getMedianScoresOfAllUrls.
Qed.

(** ** Retention: what [deleteReports] keeps *)

Lemma deleteBatch__keeps fuel id b :
  forall w r w',
    deleteBatch_ fuel (id, b) w = (r, w') ->
    bucket w' = bucket w /\ memcache w' = memcache w /\ meta w' = meta w /\
    heap w' = heap w /\
    (forall id', id' <> id -> collection w' id' = collection w id') /\
    exists k, collection w' id = drop k (collection w id).
Proof.
  induction fuel as [|fuel IH]; intros w r w' H.
  { inversion H; subst. repeat split. now exists 0. }
  assert (Triv : forall ev, w' = add_event ev w ->
    bucket w' = bucket w /\ memcache w' = memcache w /\ meta w' = meta w /\
    heap w' = heap w /\
    (forall id', id' <> id -> collection w' id' = collection w id') /\
    exists k, collection w' id = drop k (collection w id)).
  { intros ev ->. repeat split. now exists 0. }
  cbn [deleteBatch_ fst snd] in H. unfold bind at 1, query_get, io in H.
  destruct (faulty w (length (log w)));
    [inversion H; subst; eapply Triv; reflexivity|].
  cbn [run_order] in H.
  set (w1 := add_event (EvQuery id ByName b) w) in *.
  change (collection w1 id) with (collection w id) in H.
  set (snapshot := take b (index_from 0 (collection w id))) in *.
  unfold bind at 1 in H.
  destruct (Nat.eqb_spec (length snapshot) 0) as [E0|Hne].
  { cbn in H. inversion H; subst. eapply Triv; reflexivity. }
  unfold bind at 1, batch_delete, io in H.
  destruct (faulty w1 (length (log w1))).
  { inversion H; subst. repeat split. now exists 0. }
  unfold ret at 1 in H.
  destruct (Nat.eqb_spec (length snapshot) 0) as [|_]; [contradiction|].
  apply IH in H as (Hb & Hm & Hme & Hh & Ho & k & Hk).
  match type of Hb with
  | bucket w' = bucket ?w3 => set (w3' := w3) in *
  end.
  assert (E3 : collection w3' id = drop b (collection w id)).
  { unfold w3', collection at 1. cbn [db set_db add_event].
    rewrite lookup_insert_eq. cbn [default].
    change (collection (add_event (EvBatchDelete id (length (map fst snapshot))) w1) id)
      with (collection w id).
    unfold snapshot. apply batch_delete_first. }
  split; [rewrite Hb; reflexivity|]. split; [rewrite Hm; reflexivity|].
  split; [rewrite Hme; reflexivity|]. split; [rewrite Hh; reflexivity|].
  split.
  - intros id' Hid. rewrite (Ho id' Hid). unfold w3', collection.
    cbn [db set_db add_event]. now rewrite lookup_insert_ne.
  - exists (b + k). rewrite Hk, E3, drop_drop. reflexivity.
Qed.

Lemma deleteReports_keeps_aux fuel url w :
  let w' := snd (deleteReports fuel url w) in
  bucket w' = bucket w /\ memcache w' = memcache w /\ meta w' = meta w.
Proof.
  intros w'. subst w'.
  destruct (deleteReports fuel url w) as [r w'] eqn:E.
  destruct (deleteBatch__keeps fuel (slugify url) 20 w r w' E)
    as (Hb & Hm & Hme & _).
  repeat split; assumption.
Qed.

(** X16. [deleteReports] of a URL deletes run documents of that URL and
    nothing else: whether it resolves or throws, the documents that are
    left are documents that were there, in their order, and the other
    collections, the full report in the bucket, the caches and the
    [lastViewed] dates are as they were. The [lastViewed] documents are
    the collection [meta] of the same database, so the identifier of the
    URL is taken not to be [meta]. *)
Theorem deleteReports_keeps fuel url w :
  slugify url <> "meta" ->
  let w' := snd (deleteReports fuel url w) in
  sublist (collection w' (slugify url)) (collection w (slugify url)) /\
  (forall id', id' <> slugify url -> collection w' id' = collection w id') /\
  bucket w' = bucket w /\ memcache w' = memcache w /\ meta w' = meta w /\
  heap w' = heap w.
Proof.
  intros _ w'. subst w'.
  destruct (deleteReports fuel url w) as [r w'] eqn:E.
  destruct (deleteBatch__keeps fuel (slugify url) 20 w r w' E)
    as (Hb & Hm & Hme & Hh & Ho & k & Hk).
  cbn [snd]. rewrite Hk.
  repeat split; try assumption. apply sublist_drop.
Qed.

Lemma faulty_add_event ev w :
  faulty (add_event ev w) (length (log (add_event ev w)))
  = faulty w (S (length (log w))).
Proof. cbn. rewrite length_app. cbn. now rewrite Nat.add_1_r. Qed.

Section StaleCache.
Context (toISOString : Date -> string).

Lemma getReports_hit url arg w v :
  cache_hit (memcache w !! ("getReports_" +:+ slugify url))
            (snd (destructure_config arg)) = Some v ->
  faulty w (length (log w)) = false ->
  faulty w (S (length (log w))) = false ->
  getReports toISOString url arg w
  = (Ok v, set_meta (insert (slugify url) (clock w))
             (add_event (EvSetMeta (slugify url))
                (add_event (EvCacheGet ("getReports_" +:+ slugify url)) w))).
Proof.
  intros Hhit Hf1 Hf2. unfold getReports.
  destruct (destructure_config arg) as [n uc]. cbn [snd] in Hhit.
  unfold bind at 1, memcache_get, io. rewrite Hf1.
  change (memcache (add_event (EvCacheGet ("getReports_" +:+ slugify url)) w))
    with (memcache w).
  rewrite Hhit.
  unfold bind at 1, updateLastViewed, bind at 1, new_Date, meta_set, io.
  rewrite faulty_add_event, Hf2. reflexivity.
Qed.

(** X17. The cached report list outlives the run documents: after
    [deleteReports] has emptied the collection of a URL, [getReports] with
    the cache in use still returns the list that was cached before. *)
Theorem deleteReports_leaves_cached_reports fuel url w w1 cached n :
  deleteReports fuel url w = (Ok (Some tt), w1) ->
  memcache w !! ("getReports_" +:+ slugify url) = Some cached ->
  faulty w1 (length (log w1)) = false ->
  faulty w1 (S (length (log w1))) = false ->
  collection w1 (slugify url) = [] /\
  fst (getReports toISOString url (Some (mkConfig n (Some true))) w1) = Ok cached.
Proof.
  intros Hdel Hc Hf1 Hf2.
  pose proof (deleteReports_keeps_aux fuel url w) as K.
  split.
  - unfold deleteReports in Hdel.
    now apply deleteBatch__frame in Hdel as [Hnil _]; [|lia].
  - destruct K as (_ & Hm & _). rewrite Hdel in Hm. cbn [snd] in Hm.
    rewrite getReports_hit with (v := cached); [reflexivity| |assumption..].
    cbn [destructure_config useCache snd]. rewrite Hm, Hc. reflexivity.
Qed.

End StaleCache.

(** ** Reading the reports of a URL *)

Lemma issued_app w w' evs : log w' = log w ++ evs -> issued w w' = evs.
Proof. unfold issued. intros ->. apply drop_app_length. Qed.

Lemma StronglySorted_app_iff {A} (R : A -> A -> Prop) (l1 l2 : list A) :
  StronglySorted R (l1 ++ l2) <->
  StronglySorted R l1 /\ StronglySorted R l2 /\
  forall a b, a ∈ l1 -> b ∈ l2 -> R a b.
Proof.
  induction l1 as [|x l1 IH]; cbn.
  - split.
    + intros H. repeat split; [constructor|exact H|].
      intros a b Ha. now apply elem_of_nil in Ha.
    + now intros (_ & H & _).
  - split.
    + intros H. apply StronglySorted_inv in H as [H Hx].
      apply IH in H as (H1 & H2 & H12).
      apply Forall_app in Hx as [Hx1 Hx2].
      repeat split; [now constructor|exact H2|].
      intros a b Ha Hb. apply elem_of_cons in Ha as [->|Ha]; [|auto].
      rewrite Forall_forall in Hx2. auto.
    + intros (H1 & H2 & H12).
      apply StronglySorted_inv in H1 as [H1 Hx].
      constructor.
      * apply IH. repeat split; [exact H1|exact H2|].
        intros a b Ha Hb. apply H12; [now right|exact Hb].
      * apply Forall_app. split; [exact Hx|].
        apply Forall_forall. intros b Hb. apply H12; [left|exact Hb].
Qed.

Lemma StronglySorted_reverse {A} (R : A -> A -> Prop) (l : list A) :
  StronglySorted R l -> StronglySorted (fun a b => R b a) (reverse l).
Proof.
  induction 1 as [|x l Hl IH Hx]; [constructor|].
  rewrite reverse_cons. apply StronglySorted_app_iff.
  split; [exact IH|]. split; [repeat constructor|].
  intros a b Ha Hb. apply list_elem_of_singleton in Hb. subst b.
  rewrite elem_of_reverse in Ha. rewrite Forall_forall in Hx. auto.
Qed.

Lemma StronglySorted_map_strong {A B} (R : A -> A -> Prop) (R' : B -> B -> Prop)
  (f : A -> B) (l : list A) :
  (forall a b, a ∈ l -> b ∈ l -> R a b -> R' (f a) (f b)) ->
  StronglySorted R l -> StronglySorted R' (map f l).
Proof.
  intros Hf H. induction H as [|x l Hl IH Hx]; cbn; [constructor|].
  constructor.
  - apply IH. intros a b Ha Hb. apply Hf; now right.
  - apply Forall_fmap, Forall_forall. intros b Hb. cbn.
    rewrite Forall_forall in Hx. apply Hf; [left|now right|auto].
Qed.

Section ReadProperties.
Context (toISOString : Date -> string).

Lemma not_cached_miss url arg w :
  not_cached url arg w ->
  cache_hit (memcache w !! ("getReports_" +:+ slugify url))
            (snd (destructure_config arg)) = None.
Proof.
  unfold not_cached, cache_hit. intros [->| ->]; [reflexivity|].
  now destruct (is_true _).
Qed.

(** The report that [getReports] makes of a run document. *)
Lemma getReports_fetched url arg w v w' :
  not_cached url arg w ->
  getReports toISOString url arg w = (Ok v, w') ->
  exists n,
    fst (destructure_config arg) = Some n /\
    let uc := snd (destructure_config arg) in
    let id := slugify url in
    let docs := take n (run_order ByAuditedOnDesc
                          (index_from 0 (collection w id))) in
    db w' = db w /\ bucket w' = bucket w /\
    match docs with
    | [] =>
        v = CReports [] /\ meta w' = meta w /\ memcache w' = memcache w /\
        issued w w' = [EvCacheGet ("getReports_" +:+ id);
                       EvQuery id ByAuditedOnDesc n]
    | _ :: _ =>
        exists lhr,
          bucket w !! report_file id = Some lhr /\
          v = CReports
                (map (fun doc =>
                        mkReport (d_lhrSlim doc) (doc_time doc) (d_crux doc)
                          (if strict_equal_string (stored_auditedOn lhr)
                                (toISOString (doc_time doc))
                           then Some lhr else None))
                     (reverse (map snd docs))) /\
          meta w' = <[id := clock w]> (meta w) /\
          memcache w' = (if is_true uc
                         then <["getReports_" +:+ id := v]> (memcache w)
                         else memcache w)
    end.
Proof.
  intros Hnc Hget. apply not_cached_miss in Hnc. unfold getReports in Hget.
  destruct (destructure_config arg) as [maxResults uc]. cbn [fst snd] in *.
  apply bind_ok in Hget as (val & w1 & Hval & Hget).
  apply memcache_get_ok in Hval as [-> ->].
  rewrite Hnc in Hget. unfold fetch_reports in Hget.
  apply bind_ok in Hget as (docs & w2 & Hq & Hget).
  apply query_get_ok in Hq as (n & -> & Hd & ->).
  change (collection (add_event (EvCacheGet ("getReports_" +:+ slugify url)) w)
            (slugify url)) with (collection w (slugify url)) in Hd.
  exists n. split; [reflexivity|]. cbn zeta. rewrite <- Hd.
  destruct docs as [|p ps].
  { inversion Hget; subst v w'. repeat split.
    apply issued_app. cbn. now rewrite <- app_assoc. }
  apply bind_ok in Hget as (? & w3 & Hv & Hget). apply updateLastViewed_ok in Hv.
  apply bind_ok in Hget as (lhr & w4 & Hl & Hget).
  apply file_download_ok in Hl as [Hl ->]. subst w3.
  cbn [bucket set_meta add_event] in Hl.
  apply bind_ok in Hget as (runs' & w5 & Hm & Hget).
  apply (mapM_ok _ (fun doc => mkReport (d_lhrSlim doc) (doc_time doc) (d_crux doc)
                      (if strict_equal_string (stored_auditedOn lhr)
                                              (toISOString (doc_time doc))
                       then Some lhr else None))) in Hm as [-> ->];
    [|intros; now apply attach_lhr_ok].
  apply bind_ok in Hget as (? & w6 & Hset & Hget).
  inversion Hget; subst v w'. clear Hget.
  destruct (is_true uc).
  - apply memcache_set_ok in Hset. subst w6. cbn.
    repeat split. exists lhr. repeat split. exact Hl.
  - inversion Hset; subst w6. cbn.
    repeat split. exists lhr. repeat split. exact Hl.
Qed.

(** X18. A cache hit returns the cached list as it is, whatever
    [maxResults] asks for, and counts as a view of the URL; the report
    store is not consulted. *)
Theorem getReports_cache_hit url n w cached :
  memcache w !! ("getReports_" +:+ slugify url) = Some cached ->
  faulty w (length (log w)) = false ->
  faulty w (S (length (log w))) = false ->
  let r := getReports toISOString url (Some (mkConfig n (Some true))) w in
  fst r = Ok cached /\
  meta (snd r) = <[slugify url := clock w]> (meta w) /\
  issued w (snd r) = [EvCacheGet ("getReports_" +:+ slugify url);
                      EvSetMeta (slugify url)].
Proof.
  intros Hc Hf1 Hf2 r. subst r.
  rewrite getReports_hit with (v := cached); [|cbn; now rewrite Hc|assumption..].
  repeat split. apply issued_app. cbn. now rewrite <- app_assoc.
Qed.

(** X19. For a URL without run documents, [getReports] returns the empty
    list; this is not a view of the URL and nothing is cached. *)
Theorem getReports_no_runs url arg w v w' :
  not_cached url arg w ->
  collection w (slugify url) = [] ->
  getReports toISOString url arg w = (Ok v, w') ->
  v = CReports [] /\ meta w' = meta w /\ memcache w' = memcache w.
Proof.
  intros Hnc Hnil Hget.
  destruct (getReports_fetched _ _ _ _ _ Hnc Hget) as (n & _ & _ & _ & H).
  rewrite Hnil in H. cbn [index_from run_order reverse] in H.
  change (sort_by _ (reverse [])) with (@nil (nat * Doc)) in H.
  rewrite take_nil in H. destruct H as (-> & Hm & Hc & _). auto.
Qed.

End ReadProperties.

Lemma run_order_desc_nonempty (docs : list Doc) n :
  docs <> [] ->
  take (S n) (run_order ByAuditedOnDesc (index_from 0 docs)) <> [].
Proof.
  intros Hne E. cbn [run_order] in E.
  destruct (sort_by _ (reverse (index_from 0 docs))) as [|x rest] eqn:Es;
    [|discriminate].
  apply sort_by_nil in Es.
  apply (f_equal length) in Es.
  rewrite length_reverse, length_index_from in Es.
  destruct docs; [congruence|discriminate].
Qed.

Lemma run_order_desc_Permutation (docs : list Doc) :
  Permutation (map snd (run_order ByAuditedOnDesc (index_from 0 docs))) docs.
Proof.
  cbn [run_order].
  etransitivity; [apply Permutation_map, sort_by_Permutation|].
  etransitivity; [apply Permutation_map, reverse_Permutation|].
  now rewrite map_snd_index_from.
Qed.

Lemma run_order_desc_sorted (docs : list Doc) :
  StronglySorted
    (fun a b => Timestamp_leb (d_auditedOn b) (d_auditedOn a) = true)
    (map snd (run_order ByAuditedOnDesc (index_from 0 docs))).
Proof.
  cbn [run_order].
  apply (StronglySorted_map_strong
           (fun a b : nat * Doc =>
              Timestamp_leb (d_auditedOn (snd b)) (d_auditedOn (snd a)) = true)).
  - auto.
  - apply (sort_by_StronglySorted
             (fun a b : nat * Doc =>
                Timestamp_leb (d_auditedOn (snd b)) (d_auditedOn (snd a)))).
    + intros a b. apply Timestamp_leb_total.
    + intros a b c H1 H2. exact (Timestamp_leb_trans _ _ _ H2 H1).
Qed.

Lemma io_run {A} ev (f : World -> Res A * World) w :
  faulty w (length (log w)) = false -> io ev f w = f (add_event ev w).
Proof. unfold io. now intros ->. Qed.

Section ReadOrder.
Context (toISOString : Date -> string).

(** X20. When a URL has run documents but no full report in the bucket,
    [getReports] throws; by then it has counted the call as a view, and
    it has cached nothing. *)
Theorem getReports_missing_full_report url arg n w :
  no_faults w ->
  not_cached url arg w ->
  fst (destructure_config arg) = Some (S n) ->
  collection w (slugify url) <> [] ->
  bucket w !! report_file (slugify url) = None ->
  let r := getReports toISOString url arg w in
  (exists e, fst r = Throw e) /\
  meta (snd r) = <[slugify url := clock w]> (meta w) /\
  memcache (snd r) = memcache w /\ db (snd r) = db w.
Proof.
  intros Hnf Hnc Hn Hne Hb r. subst r.
  destruct (getReports toISOString url arg w) as [r w'] eqn:E.
  apply (not_cached_miss) in Hnc. unfold getReports in E.
  destruct (destructure_config arg) as [maxResults uc]. cbn [fst snd] in *.
  subst maxResults.
  unfold bind at 1, memcache_get in E. rewrite io_no_fault in E by exact Hnf.
  change (memcache (add_event (EvCacheGet ("getReports_" +:+ slugify url)) w))
    with (memcache w) in E.
  rewrite Hnc in E. unfold fetch_reports, bind at 1, query_get in E.
  rewrite io_no_fault in E by exact Hnf.
  change (collection (add_event (EvCacheGet ("getReports_" +:+ slugify url)) w)
            (slugify url)) with (collection w (slugify url)) in E.
  pose proof (run_order_desc_nonempty _ n Hne) as Hd.
  destruct (take (S n) _) as [|p ps]; [congruence|].
  unfold bind at 1, updateLastViewed, bind at 1, new_Date, meta_set in E.
  rewrite io_no_fault in E by exact Hnf.
  unfold bind at 1, getFullReport, file_download in E.
  rewrite io_no_fault in E by exact Hnf.
  cbn [bucket set_meta add_event] in E. rewrite Hb in E.
  inversion E; subst r w'. cbn. eauto.
Qed.

(** X21. A list of reports fetched from the store has the [maxResults]
    latest runs of the URL, or all runs when there are fewer, from the
    oldest to the latest: no run that is left out is later than a run of
    the list. *)
Theorem getReports_latest_runs url arg w runs w' :
  not_cached url arg w ->
  getReports toISOString url arg w = (Ok (CReports runs), w') ->
  Forall (fun d => d_auditedOn d = Timestamp_fromDate (doc_time d))
         (collection w (slugify url)) ->
  exists n older,
    fst (destructure_config arg) = Some n /\
    length runs = n `min` length (collection w (slugify url)) /\
    Permutation (map doc_time (collection w (slugify url)))
                (older ++ map r_auditedOn runs) /\
    (forall o t, o ∈ older -> t ∈ map r_auditedOn runs -> (o <= t)%Z) /\
    StronglySorted Z.le (map r_auditedOn runs).
Proof.
  intros Hnc Hget Hwf.
  destruct (getReports_fetched _ _ _ _ _ _ Hnc Hget) as (n & Hn & _ & _ & H).
  cbn zeta in H.
  set (docs := collection w (slugify url)) in *.
  set (sorted := run_order ByAuditedOnDesc (index_from 0 docs)) in *.
  assert (Hruns : map r_auditedOn runs
                  = map doc_time (reverse (map snd (take n sorted)))).
  { destruct (take n sorted) as [|p ps].
    - destruct H as (E & _). inversion E. reflexivity.
    - destruct H as (lhr & _ & E & _). inversion E.
      rewrite map_map. reflexivity. }
  clear H.
  pose proof (run_order_desc_Permutation docs) as P. fold sorted in P.
  pose proof (run_order_desc_sorted docs) as S. fold sorted in S.
  rewrite <- (take_drop n sorted) in P, S.
  rewrite map_app in P, S.
  apply StronglySorted_app_iff in S as (S1 & _ & S12).
  assert (Hin : forall d, d ∈ map snd (take n sorted) \/ d ∈ map snd (drop n sorted) ->
                  d_auditedOn d = Timestamp_fromDate (doc_time d)).
  { intros d Hd. rewrite Forall_forall in Hwf. apply Hwf.
    rewrite <- P. apply elem_of_app. exact Hd. }
  exists n, (map doc_time (map snd (drop n sorted))).
  split; [exact Hn|]. split; [|split; [|split]].
  - apply (f_equal length) in Hruns.
    rewrite !length_map, length_reverse, length_map, length_take in Hruns.
    rewrite Hruns. unfold sorted. cbn [run_order].
    rewrite (Permutation_length (sort_by_Permutation _ _)).
    now rewrite length_reverse, length_index_from.
  - rewrite Hruns, <- P, map_app.
    etransitivity; [apply Permutation_app_comm|].
    apply Permutation_app; [reflexivity|].
    apply Permutation_map. symmetry. apply reverse_Permutation.
  - intros o t Ho Ht. rewrite Hruns in Ht.
    apply list_elem_of_In, in_map_iff in Ho as (b & <- & Hb).
    apply list_elem_of_In, in_map_iff in Ht as (a & <- & Ha).
    apply list_elem_of_In in Ha, Hb. rewrite elem_of_reverse in Ha.
    pose proof (S12 a b Ha Hb) as Hle.
    rewrite (Hin a), (Hin b) in Hle by auto.
    now apply Timestamp_leb_fromDate.
  - rewrite Hruns.
    apply (StronglySorted_map_strong
             (fun a b => Timestamp_leb (d_auditedOn a) (d_auditedOn b) = true)).
    + intros a b Ha Hb Hle. rewrite elem_of_reverse in Ha, Hb.
      rewrite (Hin a), (Hin b) in Hle by auto.
      now apply Timestamp_leb_fromDate.
    + apply (StronglySorted_reverse _ _ S1).
Qed.

(** X22. Asked twice with the default configuration, [getReports] gives
    the same list twice: what the first call fetched, the second finds in
    the cache, or finds as absent as the first did. *)
Theorem getReports_twice url w v w1 :
  getReports toISOString url None w = (Ok v, w1) ->
  faulty w1 (length (log w1)) = false ->
  faulty w1 (S (length (log w1))) = false ->
  fst (getReports toISOString url None w1) = Ok v.
Proof.
  intros Hget Hf1 Hf2.
  destruct (memcache w !! ("getReports_" +:+ slugify url)) as [c|] eqn:Ec.
  - (* found in the cache by the first call *)
    unfold getReports in Hget. cbn [destructure_config] in Hget.
    apply bind_ok in Hget as (val & w0 & Hval & Hget).
    apply memcache_get_ok in Hval as [-> ->]. rewrite Ec in Hget.
    cbn [cache_hit is_true default] in Hget.
    apply bind_ok in Hget as (? & w2 & Hv & Hget).
    apply updateLastViewed_ok in Hv. inversion Hget; subst v w1 w2.
    rewrite getReports_hit with (v := c); [reflexivity| |assumption..].
    cbn. now rewrite Ec.
  - assert (Hnc : not_cached url None w) by (now right).
    destruct (getReports_fetched _ _ _ _ _ _ Hnc Hget)
      as (n & Hn & Hdb & Hb & H).
    cbn [destructure_config fst snd] in Hn, H. inversion Hn; subst n. clear Hn.
    cbn zeta in H.
    destruct (take MAX_REPORTS (run_order ByAuditedOnDesc
                (index_from 0 (collection w (slugify url))))) as [|p ps] eqn:Ed.
    + destruct H as (-> & Hm & Hc & _).
      unfold getReports. cbn [destructure_config].
      unfold bind at 1, memcache_get. rewrite io_run by exact Hf1.
      change (memcache (add_event (EvCacheGet ("getReports_" +:+ slugify url)) w1))
        with (memcache w1).
      rewrite Hc, Ec.
      change (cache_hit None (Some true)) with (@None CacheVal). cbv beta iota.
      unfold fetch_reports, bind at 1, query_get.
      rewrite io_run by (rewrite faulty_add_event; exact Hf2).
      match goal with
      | |- context [collection ?wx (slugify url)] =>
          change (collection wx (slugify url)) with (collection w1 (slugify url))
      end.
      unfold collection at 1. rewrite Hdb. fold (collection w (slugify url)).
      rewrite Ed. reflexivity.
    + destruct H as (lhr & _ & Hv & _ & Hc).
      change (is_true (Some true)) with true in Hc. cbv iota in Hc.
      rewrite getReports_hit with (v := v); [reflexivity| |assumption..].
      change (snd (destructure_config None)) with (Some true).
      rewrite Hc, lookup_insert_eq. reflexivity.
Qed.

End ReadOrder.

(** ** The list of saved URLs *)

Lemma elem_of_getCollections w id :
  id ∈ map fst (List.filter (fun p : string * list Doc =>
                               negb (Nat.eqb (length (snd p)) 0))
                            (map_to_list (db w)))
  <-> collection w id <> [].
Proof.
  rewrite list_elem_of_In, in_map_iff. unfold collection. split.
  - intros ([id' docs] & E & Hin). cbn in E. subst id'.
    apply filter_In in Hin as [Hin Hne]. cbn in Hne.
    apply list_elem_of_In, elem_of_map_to_list in Hin. rewrite Hin. cbn.
    destruct docs; [discriminate|discriminate].
  - intros Hne. destruct (db w !! id) as [docs|] eqn:E; [|now cbn in Hne].
    cbn in Hne. exists (id, docs). split; [reflexivity|].
    apply filter_In. split.
    + now apply list_elem_of_In, elem_of_map_to_list.
    + cbn. destruct docs; [congruence|reflexivity].
Qed.

Lemma getAllSavedUrls_fresh arg w v w' :
  urls_not_cached arg w ->
  getAllSavedUrls arg w = (Ok v, w') ->
  exists urls,
    v = CUrls urls /\
    (forall u, u ∈ urls <->
       exists id, collection w id <> [] /\ startsWith "http" id = true /\
                  u = deslugify id) /\
    StronglySorted (fun a b => String.leb a b = true) urls /\
    memcache w' = <["getAllSavedUrls" := CUrls urls]> (memcache w) /\
    db w' = db w.
Proof.
  intros Hnc H. unfold getAllSavedUrls in H.
  apply bind_ok in H as (val & w1 & Hval & H).
  apply memcache_get_ok in Hval as [-> ->].
  assert (Hmiss : cache_hit (memcache w !! "getAllSavedUrls")
                    (match arg with None => Some true | Some c => c end) = None).
  { unfold cache_hit. destruct Hnc as [->| ->]; [reflexivity|].
    now destruct (is_true _). }
  rewrite Hmiss in H. clear Hmiss.
  apply bind_ok in H as (collections & w2 & Hc & H).
  apply io_ok in Hc as [_ Hc]. inversion Hc; subst collections w2. clear Hc.
  apply bind_ok in H as (? & w3 & Hs & H). apply memcache_set_ok in Hs.
  inversion H; subst v w'. clear H. subst w3.
  eexists. split; [reflexivity|]. split; [|split; [|split; reflexivity]].
  - intros u.
    rewrite (sort_by_Permutation String.leb).
    rewrite list_elem_of_In, in_map_iff. split.
    + intros (id & <- & Hin). apply filter_In in Hin as [Hin Hhttp].
      exists id. split; [|auto].
      apply in_app_or in Hin as [Hin|Hin].
      * now apply list_elem_of_In, elem_of_getCollections in Hin.
      * destruct (bool_decide _); [destruct Hin|].
        destruct Hin as [<-|[]]. discriminate.
    + intros (id & Hne & Hhttp & ->). exists id. split; [reflexivity|].
      apply filter_In. split; [|exact Hhttp].
      apply in_or_app. left.
      now apply list_elem_of_In, elem_of_getCollections.
  - apply sort_by_StronglySorted; [apply String.leb_total|apply String_leb_trans].
Qed.

(** X23. When [getAllSavedUrls] goes to the database, it returns, in
    ascending order, the URLs of the identifiers that start with [http]
    and have run documents; and it writes the list to the cache even when
    it was told not to use the cache. *)
Theorem getAllSavedUrls_lists arg w v w' :
  urls_not_cached arg w ->
  getAllSavedUrls arg w = (Ok v, w') ->
  exists urls,
    v = CUrls urls /\
    (forall u, u ∈ urls <->
       exists id, collection w id <> [] /\ startsWith "http" id = true /\
                  u = deslugify id) /\
    StronglySorted (fun a b => String.leb a b = true) urls /\
    memcache w' !! "getAllSavedUrls" = Some (CUrls urls).
Proof.
  intros Hnc H.
  destruct (getAllSavedUrls_fresh _ _ _ _ Hnc H) as (urls & -> & Hin & Hs & Hm & _).
  exists urls. repeat split; try apply Hin; [exact Hs|].
  rewrite Hm. apply lookup_insert_eq.
Qed.

Section FirstSave.
Context (toISOString : Date -> string).

(** X24. The first save of a URL makes [getAllSavedUrls] list it: the save
    drops the cached list, so the next call goes to the database; the URL
    itself is listed when [deslugify] gives it back. *)
Theorem first_save_is_listed url json replace w data w1 v w2 :
  collection w (slugify url) = [] ->
  startsWith "http" url = true ->
  saveReport toISOString url json replace w = (Ok data, w1) ->
  getAllSavedUrls None w1 = (Ok v, w2) ->
  exists urls,
    v = CUrls urls /\ deslugify (slugify url) ∈ urls /\
    (includes "__" url = false -> includes "_/" url = false -> url ∈ urls).
Proof.
  intros Hnil Hhttp Hsave Hget.
  pose proof (saveReport_ok _ _ _ _ _ _ _ Hsave)
    as (_ & _ & _ & _ & _ & Hdb & Hm & _).
  apply last_doc_None in Hnil. rewrite Hnil in Hdb, Hm.
  assert (Hnc : urls_not_cached None w1).
  { right. rewrite Hm.
    rewrite lookup_delete_ne by discriminate.
    rewrite lookup_delete_ne by apply getReports_key_ne_urls.
    apply lookup_delete_eq. }
  destruct (getAllSavedUrls_fresh _ _ _ _ Hnc Hget) as (urls & -> & Hin & _).
  assert (Hu : deslugify (slugify url) ∈ urls).
  { apply Hin. exists (slugify url). split; [|split; [|reflexivity]].
    - rewrite (collection_insert _ _ _ _ Hdb).
      destruct replace; now destruct (collection w (slugify url)).
    - now rewrite startsWith_http_slugify. }
  exists urls. split; [reflexivity|]. split; [exact Hu|].
  intros H1 H2. now rewrite deslugify_slugify in Hu.
Qed.

End FirstSave.

(** ** The scores of a URL *)

Lemma elem_of_set_field_keys {V} k (v : V) fs x :
  x ∈ map fst (set_field k v fs) -> x = k \/ x ∈ map fst fs.
Proof.
  induction fs as [|[k' v'] fs IH]; cbn.
  - intros H. apply list_elem_of_singleton in H. auto.
  - destruct (String.eqb k' k); cbn; intros H.
    + right. exact H.
    + apply elem_of_cons in H as [->|H]; [right; left|].
      destruct (IH H); [auto|right; now right].
Qed.

Lemma NoDup_set_field {V} k (v : V) fs :
  NoDup (map fst fs) -> NoDup (map fst (set_field k v fs)).
Proof.
  induction fs as [|[k' v'] fs IH]; cbn; intros H.
  - apply NoDup_singleton.
  - apply NoDup_cons in H as [Hk' H].
    destruct (String.eqb_spec k' k) as [->|Hne]; cbn.
    + now apply NoDup_cons.
    + apply NoDup_cons. split; [|auto].
      intros Hin. apply elem_of_set_field_keys in Hin as [E|Hin]; auto.
Qed.

Lemma Forall_set_field {V} (P : string * V -> Prop) k (v : V) fs :
  NoDup (map fst fs) ->
  Forall (fun kv => fst kv <> k -> P kv) fs ->
  P (k, v) ->
  Forall P (set_field k v fs).
Proof.
  intros Hnd Hall Hkv. induction fs as [|[k' v'] fs IH]; cbn.
  - repeat constructor. exact Hkv.
  - cbn in Hnd. apply NoDup_cons in Hnd as [Hk' Hnd].
    apply Forall_cons in Hall as [Hh Hall].
    destruct (String.eqb_spec k' k) as [->|Hne].
    + constructor; [exact Hkv|].
      rewrite Forall_forall in Hall. apply Forall_forall.
      intros [k1 v1] Hin. apply Hall; [exact Hin|].
      cbn. intros ->. apply Hk'.
      apply list_elem_of_In, in_map_iff. exists (k, v1).
      split; [reflexivity|now apply list_elem_of_In].
    + constructor; [now apply Hh|auto].
Qed.

Lemma total_set_field k v (fs : list (string * list number)) :
  total_scores (set_field k v fs) + length (default [] (get_field k fs))
  = total_scores fs + length v.
Proof.
  unfold total_scores, list_sum. induction fs as [|[k' v'] fs IH]; cbn.
  - lia.
  - destruct (String.eqb k' k); cbn; lia.
Qed.

Lemma push_score_ok scores cat w scores' w' :
  push_score scores cat w = (Ok scores', w') ->
  NoDup (map fst scores) -> Forall (fun cs => snd cs <> []) scores ->
  NoDup (map fst scores') /\ Forall (fun cs => snd cs <> []) scores' /\
  total_scores scores' = S (total_scores scores).
Proof.
  intros H Hnd Hall. unfold push_score in H.
  bind_pure H cid. bind_pure H score. inversion H; subst scores' w'. clear H.
  set (key := to_string cid) in *.
  set (scores1 := match get_field key scores with
                  | Some _ => scores
                  | None => set_field key [] scores
                  end) in *.
  assert (Hnd1 : NoDup (map fst scores1)).
  { unfold scores1. destruct (get_field key scores); [exact Hnd|].
    now apply NoDup_set_field. }
  assert (Hall1 : Forall (fun kv => fst kv <> key -> snd kv <> []) scores1).
  { unfold scores1. destruct (get_field key scores).
    - eapply Forall_impl; [exact Hall|]. auto.
    - apply Forall_set_field; [exact Hnd| |cbn; congruence].
      eapply Forall_impl; [exact Hall|]. auto. }
  assert (Htot1 : total_scores scores1 = total_scores scores /\
                  exists old, get_field key scores1 = Some old /\
                    length old = length (default [] (get_field key scores1))).
  { unfold scores1. destruct (get_field key scores) as [old|] eqn:E.
    - split; [reflexivity|]. exists old. rewrite E. auto.
    - pose proof (total_set_field key [] scores) as T. rewrite E in T.
      cbn in T. split; [lia|]. exists [].
      rewrite get_field_set_field_eq. auto. }
  destruct Htot1 as [Htot1 _].
  split; [now apply NoDup_set_field|]. split.
  - apply Forall_set_field; [exact Hnd1|exact Hall1|]. cbn.
    intros E. now apply app_eq_nil in E as [_ E].
  - pose proof (total_set_field key
                  (default [] (get_field key scores1) ++
                   [nmul (to_number score) (of_Z 100)]) scores1) as T.
    rewrite length_app in T. cbn [length] in T. lia.
Qed.

Lemma foldM_push_score_ok cats : forall scores w scores' w',
  foldM push_score scores cats w = (Ok scores', w') ->
  NoDup (map fst scores) -> Forall (fun cs => snd cs <> []) scores ->
  NoDup (map fst scores') /\ Forall (fun cs => snd cs <> []) scores' /\
  total_scores scores' = total_scores scores + length cats.
Proof.
  induction cats as [|cat cats IH]; intros scores w scores' w' H Hnd Hall.
  - inversion H; subst. repeat split; auto.
  - cbn [foldM] in H. apply bind_ok in H as (s1 & w1 & H1 & H).
    apply push_score_ok in H1 as (Hnd1 & Hall1 & Ht1); [|assumption..].
    apply IH in H as (Hnd2 & Hall2 & Ht2); [|assumption..].
    repeat split; [assumption..|]. cbn [length]. lia.
Qed.

Lemma foldM_runs_ok (runs : list (nat * Doc)) : forall scores w scores' w',
  foldM (fun scores doc => foldM push_score scores (d_lhrSlim (snd doc)))
        scores runs w = (Ok scores', w') ->
  NoDup (map fst scores) -> Forall (fun cs => snd cs <> []) scores ->
  NoDup (map fst scores') /\ Forall (fun cs => snd cs <> []) scores' /\
  total_scores scores'
  = total_scores scores
    + list_sum (map (fun doc => length (d_lhrSlim (snd doc))) runs).
Proof.
  induction runs as [|doc runs IH]; intros scores w scores' w' H Hnd Hall.
  - inversion H; subst. repeat split; auto; cbn; lia.
  - cbn [foldM] in H. apply bind_ok in H as (s1 & w1 & H1 & H).
    apply foldM_push_score_ok in H1 as (Hnd1 & Hall1 & Ht1); [|assumption..].
    apply IH in H as (Hnd2 & Hall2 & Ht2); [|assumption..].
    repeat split; [assumption..|].
    cbn [map]. unfold list_sum in *. cbn [fold_right]. lia.
Qed.

(** X25. In what [getAllScores] returns, every category has its own
    sequence, no sequence is empty, and the sequences hold one score for
    each category of each run that was read: none is dropped. *)
Theorem getAllScores_sequences url maxResults w scores w' :
  getAllScores url maxResults w = (Ok scores, w') ->
  NoDup (map fst scores) /\
  Forall (fun cs => snd cs <> []) scores /\
  total_scores scores
  = list_sum (map (fun doc => length (d_lhrSlim (snd doc)))
                (take (default MAX_REPORTS maxResults)
                   (run_order ByAuditedOnDesc
                      (index_from 0 (collection w (slugify url)))))).
Proof.
  intros H. unfold getAllScores in H.
  apply bind_ok in H as (docs & w1 & Hq & H).
  apply query_get_ok in Hq as (n & [= <-] & -> & ->).
  apply foldM_runs_ok in H as (Hnd & Hall & Ht);
    [|apply NoDup_nil_2|constructor].
  split; [exact Hnd|]. split; [exact Hall|].
  rewrite Ht. change (total_scores []) with 0. cbn [Nat.add].
  apply Permutation_list_sum, Permutation_map, reverse_Permutation.
Qed.

(** ** Medians of all URLs *)

(** X26. When the list of URLs is in the cache, [getMedianScoresOfAllUrls]
    takes it from there and never lists the collections of the database:
    also when it is told not to use the cache. *)
Theorem medians_use_cached_urls cfg w :
  memcache w !! "getAllSavedUrls" <> None ->
  EvGetCollections ∉ issued w (snd (getMedianScoresOfAllUrls cfg w)).
Proof.
  set (R := fun w w' : World =>
              memcache w !! "getAllSavedUrls" <> None ->
              memcache w' !! "getAllSavedUrls" <> None /\
              exists evs, log w' = log w ++ evs /\ EvGetCollections ∉ evs).
  assert (Hr : forall w, R w w).
  { intros w0 H. split; [exact H|]. exists []. rewrite app_nil_r.
    split; [reflexivity|apply not_elem_of_nil]. }
  assert (Ht : forall w1 w2 w3, R w1 w2 -> R w2 w3 -> R w1 w3).
  { intros w1 w2 w3 H12 H23 H1.
    destruct (H12 H1) as (H2 & evs & E & Hn).
    destruct (H23 H2) as (H3 & evs' & E' & Hn').
    split; [exact H3|]. exists (evs ++ evs'). rewrite E', E, app_assoc.
    split; [reflexivity|]. rewrite elem_of_app. tauto. }
  assert (Hev : forall ev w, ev <> EvGetCollections -> R w (add_event ev w)).
  { intros ev w0 Hne H. split; [exact H|]. exists [ev].
    split; [reflexivity|]. rewrite list_elem_of_singleton. congruence. }
  assert (Hmc : forall (k : string) (v : CacheVal) w,
                 R w (set_memcache (insert k v) w)).
  { intros k v w0 H. split.
    - cbn. destruct (decide (k = "getAllSavedUrls")) as [->|Hk].
      + now rewrite lookup_insert_eq.
      + now rewrite lookup_insert_ne.
    - exists []. cbn. rewrite app_nil_r.
      split; [reflexivity|apply not_elem_of_nil]. }
  assert (Hu : respects R (getAllSavedUrls None)).
  { intros w0 r w' H Hpre. unfold getAllSavedUrls, bind, memcache_get, io in H.
    destruct (faulty w0 (length (log w0))).
    - inversion H; subst. now apply Hev.
    - cbn [memcache add_event] in H.
      destruct (memcache w0 !! "getAllSavedUrls") as [v|] eqn:E; [|congruence].
      cbn in H. inversion H; subst. apply Hev; [discriminate|].
      now rewrite E. }
  intros Hpre.
  destruct (getMedianScoresOfAllUrls cfg w) as [r w'] eqn:E. cbn [snd].
  assert (HR : R w w').
  { eapply respects_getMedianScoresOfAllUrls; [| | | | |exact E]; assumption. }
  destruct (HR Hpre) as (_ & evs & El & Hn).
  now rewrite (issued_app _ _ _ El).
Qed.

(** ** Audits that report a run-time error *)

Section AuditErrors.
Context (toISOString : Date -> string).

(** X27. When the audit comes back with a run-time error whose code is not
    [NO_ERROR], [runLighthouseAPI] stores nothing: no run document, no full
    report, no [lastViewed] date, no cache entry is touched, the only call
    made is the audit, and the [lhr] of the response is as the API gave
    it. The value returned is the response with the error as [errors]. *)
Theorem runLighthouseAPI_runtimeError url replace w o crux fs code message :
  faulty w (length (log w)) = false ->
  api w url = Ok (Some o, crux) ->
  get_field "runtimeError" o = Some (FJson (JObj fs)) ->
  get_field "code" fs = Some (JStr code) -> code <> "NO_ERROR" ->
  get_field "message" fs = Some (JStr message) ->
  let r := runLighthouseAPI toISOString url replace w in
  fst r = Ok (WithErrors (Some (mkPayload (Some (length (heap w))) crux))
                         ("Error: " +:+ code +:+ " " +:+ message)) /\
  db (snd r) = db w /\ bucket (snd r) = bucket w /\ meta (snd r) = meta w /\
  memcache (snd r) = memcache w /\
  heap (snd r) = heap w ++ [o] /\
  issued w (snd r) = [EvAudit url].
Proof.
  intros Hf Hapi Hr Hc Hne Hm r. subst r.
  destruct (runLighthouseAPI toISOString url replace w) as [r w'] eqn:E.
  unfold runLighthouseAPI, try_catch, api_audit in E.
  rewrite io_run in E by exact Hf.
  change (api (add_event (EvAudit url) w)) with (api w) in E.
  rewrite Hapi in E. unfold bind in E.
  rewrite (check_runtimeError_throws _ _ (length (heap w)) o fs code message)
    in E; [|reflexivity| |assumption..].
  - cbn in E. inversion E; subst r w'. cbn.
    rewrite err_to_string_Error by (destruct code; discriminate).
    repeat split. apply issued_app. reflexivity.
  - cbn. rewrite lookup_app_r by lia. now rewrite Nat.sub_diag.
Qed.

End AuditErrors.

(** ** A save, then a read *)

Section SaveThenRead.
Context (toISOString : Date -> string).

(** X28. After a save, a read of the URL's reports with the default
    configuration goes to the store, and the last run of its list is the
    run of the save: it has the date of the save and carries the full
    report that the save uploaded. The runs found in the store are taken
    to be no later than the save. *)
Theorem saveReport_then_getReports url json replace w data w1 v w2 :
  Forall (fun d => d_auditedOn d = Timestamp_fromDate (doc_time d) /\
                   (doc_time d <= clock w)%Z) (collection w (slugify url)) ->
  saveReport toISOString url json replace w = (Ok data, w1) ->
  getReports toISOString url None w1 = (Ok v, w2) ->
  exists runs latest lhr,
    v = CReports (runs ++ [latest]) /\
    r_auditedOn latest = auditedOn data /\
    bucket w1 !! report_file (slugify url) = Some lhr /\
    r_lhr latest = Some lhr.
Proof.
  intros Hwf Hsave Hget.
  pose proof (saveReport_ok _ _ _ _ _ _ _ Hsave)
    as (l & o & _ & _ & Hd & Hdb & Hm & _ & Hb & _).
  set (id := slugify url) in *.
  assert (Hnc : not_cached url None w1).
  { right. fold id. rewrite Hm.
    rewrite lookup_delete_ne by (apply not_eq_sym, getReports_key_ne_medians).
    apply lookup_delete_eq. }
  (* the collection after the save *)
  assert (Hwf1 : Forall (fun d => d_auditedOn d = Timestamp_fromDate (doc_time d) /\
                                  (doc_time d <= clock w)%Z) (collection w1 id)).
  { rewrite (collection_insert _ _ _ _ Hdb).
    assert (Hnew : forall old,
              d_auditedOn (doc_update data old)
              = Timestamp_fromDate (doc_time (doc_update data old)) /\
              (doc_time (doc_update data old) <= clock w)%Z).
    { intros old. rewrite doc_time_doc_update, Hd. split; [|lia].
      cbn. now rewrite Hd. }
    assert (Happ : Forall (fun d => d_auditedOn d = Timestamp_fromDate (doc_time d) /\
                                    (doc_time d <= clock w)%Z)
                     (collection w id ++ [doc_of_data data])).
    { apply Forall_app. split; [exact Hwf|]. repeat constructor.
      - rewrite doc_time_doc_of_data. cbn. reflexivity.
      - rewrite doc_time_doc_of_data, Hd. lia. }
    destruct replace; [|exact Happ].
    destruct (last_doc w id) as [[i last]|]; [|exact Happ].
    apply Forall_alter_intro; [exact Hwf|]. intros x _. apply Hnew. }
  assert (Hin : exists j d0, collection w1 id !! j = Some d0 /\
                  d_auditedOn d0 = Timestamp_fromDate (clock w)).
  { rewrite (collection_insert _ _ _ _ Hdb).
    assert (Happ : exists j d0,
              (collection w id ++ [doc_of_data data]) !! j = Some d0 /\
              d_auditedOn d0 = Timestamp_fromDate (clock w)).
    { exists (length (collection w id)), (doc_of_data data). split.
      - rewrite lookup_app_r by lia. now rewrite Nat.sub_diag.
      - cbn. now rewrite Hd. }
    destruct replace; [|exact Happ].
    destruct (last_doc w id) as [[i last]|] eqn:El; [|exact Happ].
    apply last_doc_Some in El as [Hi _].
    exists i, (doc_update data last). split.
    - cbn [fst]. rewrite list_lookup_alter_eq, Hi. reflexivity.
    - cbn. now rewrite Hd. }
  destruct Hin as (j & d0 & Hj & Hd0).
  destruct (getReports_fetched _ _ _ _ _ _ Hnc Hget) as (n & Hn & _ & _ & H).
  cbn zeta in H. fold id in H.
  destruct (take n (run_order ByAuditedOnDesc (index_from 0 (collection w1 id))))
    as [|p ps] eqn:Ed.
  { exfalso. cbn in Hn. inversion Hn; subst n.
    revert Ed. apply run_order_desc_nonempty.
    intros E. rewrite E in Hj. discriminate. }
  destruct H as (lhr & Hl & -> & _).
  (* the first document of the query has the date of the save *)
  cbn [run_order] in Ed.
  destruct (sort_by _ (reverse (index_from 0 (collection w1 id))))
    as [|x rest] eqn:Es; [now rewrite take_nil in Ed|].
  destruct n as [|n]; [discriminate|]. cbn [take] in Ed.
  inversion Ed; subst p ps. clear Ed.
  assert (Hx : snd x ∈ collection w1 id).
  { rewrite <- (map_snd_index_from (collection w1 id) 0).
    apply list_elem_of_In, in_map.
    apply list_elem_of_In. rewrite <- reverse_Permutation.
    rewrite <- (sort_by_Permutation
                  (fun a b : nat * Doc =>
                     Timestamp_leb (d_auditedOn (snd b)) (d_auditedOn (snd a)))).
    rewrite Es. left. }
  assert (Hle : Timestamp_leb (d_auditedOn d0) (d_auditedOn (snd x)) = true).
  { apply (sort_by_head
             (fun a b : nat * Doc =>
                Timestamp_leb (d_auditedOn (snd b)) (d_auditedOn (snd a)))
             (fun a b => Timestamp_leb_total _ _)
             (fun a b c H1 H2 => Timestamp_leb_trans _ _ _ H2 H1) _ _ _ Es (j, d0)).
    rewrite reverse_Permutation. apply elem_of_index_from.
    split; [lia|]. now rewrite Nat.sub_0_r. }
  rewrite Forall_forall in Hwf1. destruct (Hwf1 _ Hx) as [Hwx Hlex].
  rewrite Hd0, Hwx in Hle. apply Timestamp_leb_fromDate in Hle.
  assert (Et : doc_time (snd x) = clock w) by lia.
  cbn [map]. rewrite reverse_cons, map_app. cbn [map].
  eexists _, _, lhr. split; [reflexivity|]. cbn [r_auditedOn r_lhr].
  split; [congruence|]. split; [exact Hl|].
  rewrite Et. rewrite Hb, lookup_insert_eq in Hl. inversion Hl; subst lhr.
  unfold JSON_stringify, stored_auditedOn.
  rewrite get_field_JSON_stringify, get_field_set_field_eq. cbn.
  now rewrite String.eqb_refl.
Qed.

End SaveThenRead.

(** ** Pooling *)

Lemma elem_of_set_field_keys_iff {V} k (v : V) fs x :
  x ∈ map fst (set_field k v fs) <-> x = k \/ x ∈ map fst fs.
Proof.
  split; [apply elem_of_set_field_keys|].
  induction fs as [|[k' v'] fs IH]; cbn.
  - intros [->|H]; [left|now apply elem_of_nil in H].
  - destruct (String.eqb_spec k' k) as [->|Hne]; cbn.
    + intros [->|H]; [left|exact H].
    + intros [->|H].
      * right. apply IH. now left.
      * apply elem_of_cons in H as [->|H]; [left|right; apply IH; now right].
Qed.

(** X29. Pooling the sequences of a URL into the combined sequences loses
    no score and makes none up, keeps one sequence for each category, and
    has the categories of both. *)
Theorem combine_scores_keeps_scores combinedScores urlScores :
  total_scores (combine_scores combinedScores urlScores)
  = total_scores combinedScores + total_scores urlScores /\
  (NoDup (map fst combinedScores) ->
   NoDup (map fst (combine_scores combinedScores urlScores))) /\
  (forall cat, cat ∈ map fst (combine_scores combinedScores urlScores) <->
               cat ∈ map fst combinedScores \/ cat ∈ map fst urlScores).
Proof.
  unfold combine_scores. revert combinedScores.
  induction urlScores as [|[k v] urlScores IH]; intros combined.
  - cbn [foldl]. split; [change (total_scores []) with 0; lia|].
    split; [auto|].
    intros cat. split; [auto|]. intros [H|H]; [exact H|].
    now apply elem_of_nil in H.
  - cbn [foldl fst snd].
    destruct (IH (set_field k (default [] (get_field k combined) ++ v) combined))
      as (Ht & Hnd & Hk).
    split; [|split].
    + rewrite Ht.
      pose proof (total_set_field k (default [] (get_field k combined) ++ v)
                    combined) as T.
      rewrite length_app in T.
      unfold total_scores at 4. cbn [map list_sum snd].
      fold (total_scores urlScores).
      change (list_sum (length v :: map (fun cs : string * list number => length (snd cs)) urlScores))
        with (length v + total_scores urlScores).
      lia.
    + intros H. apply Hnd. now apply NoDup_set_field.
    + intros cat. rewrite Hk, elem_of_set_field_keys_iff. cbn [map fst].
      rewrite elem_of_cons. tauto.
Qed.

(** ** Medians of a URL *)

Lemma get_field_elem {V} k (fs : list (string * V)) v :
  get_field k fs = Some v -> (k, v) ∈ fs.
Proof.
  induction fs as [|[k' v'] fs IH]; cbn; [discriminate|].
  destruct (String.eqb_spec k' k) as [->|Hne].
  - intros [= ->]. left.
  - intros H. right. auto.
Qed.

Lemma push_score_Forall (Q : number -> Prop) scores cat w scores' w' :
  push_score scores cat w = (Ok scores', w') ->
  NoDup (map fst scores) ->
  Forall (fun cs => Forall Q (snd cs)) scores ->
  Q (nmul (cat_score cat) (of_Z 100)) ->
  Forall (fun cs => Forall Q (snd cs)) scores'.
Proof.
  intros H Hnd Hall Hq. unfold push_score in H.
  bind_keep H cid Hid. bind_keep H score Hscore.
  inversion H; subst scores' w'. clear H.
  assert (Es : to_number score = cat_score cat).
  { destruct cat; cbn in Hscore; inversion Hscore; reflexivity. }
  rewrite Es. clear Es Hscore Hid.
  set (key := to_string cid) in *.
  set (scores1 := match get_field key scores with
                  | Some _ => scores
                  | None => set_field key [] scores
                  end) in *.
  assert (Hnd1 : NoDup (map fst scores1)).
  { unfold scores1. destruct (get_field key scores); [exact Hnd|].
    now apply NoDup_set_field. }
  assert (Hall1 : Forall (fun cs => Forall Q (snd cs)) scores1).
  { unfold scores1. destruct (get_field key scores); [exact Hall|].
    apply Forall_set_field; [exact Hnd| |constructor].
    eapply Forall_impl; [exact Hall|]. auto. }
  apply Forall_set_field; [exact Hnd1| |].
  - eapply Forall_impl; [exact Hall1|]. auto.
  - cbn. apply Forall_app. split; [|repeat constructor; exact Hq].
    destruct (get_field key scores1) as [old|] eqn:E; [|constructor].
    apply get_field_elem in E. rewrite Forall_forall in Hall1.
    exact (Hall1 _ E).
Qed.

Lemma foldM_push_score_Forall (Q : number -> Prop) cats :
  forall scores w scores' w',
    foldM push_score scores cats w = (Ok scores', w') ->
    NoDup (map fst scores) ->
    Forall (fun cs => snd cs <> []) scores ->
    Forall (fun cs => Forall Q (snd cs)) scores ->
    Forall (fun cat => Q (nmul (cat_score cat) (of_Z 100))) cats ->
    Forall (fun cs => Forall Q (snd cs)) scores'.
Proof.
  induction cats as [|cat cats IH]; intros scores w scores' w' H Hnd Hne Hall Hq.
  - now inversion H; subst.
  - cbn [foldM] in H. apply bind_ok in H as (s1 & w1 & H1 & H).
    apply Forall_cons in Hq as [Hq1 Hq].
    pose proof (push_score_Forall Q _ _ _ _ _ H1 Hnd Hall Hq1) as Hall1.
    apply push_score_ok in H1 as (Hnd1 & Hne1 & _); [|assumption..].
    eapply IH; eassumption.
Qed.

Lemma foldM_runs_Forall (Q : number -> Prop) (runs : list (nat * Doc)) :
  forall scores w scores' w',
    foldM (fun scores doc => foldM push_score scores (d_lhrSlim (snd doc)))
          scores runs w = (Ok scores', w') ->
    NoDup (map fst scores) ->
    Forall (fun cs => snd cs <> []) scores ->
    Forall (fun cs => Forall Q (snd cs)) scores ->
    Forall (fun doc => Forall (fun cat => Q (nmul (cat_score cat) (of_Z 100)))
                              (d_lhrSlim (snd doc))) runs ->
    Forall (fun cs => Forall Q (snd cs)) scores'.
Proof.
  induction runs as [|doc runs IH]; intros scores w scores' w' H Hnd Hne Hall Hq.
  - now inversion H; subst.
  - cbn [foldM] in H. apply bind_ok in H as (s1 & w1 & H1 & H).
    apply Forall_cons in Hq as [Hq1 Hq].
    pose proof (foldM_push_score_Forall Q _ _ _ _ _ H1 Hnd Hne Hall Hq1) as Hall1.
    apply foldM_push_score_ok in H1 as (Hnd1 & Hne1 & _); [|assumption..].
    eapply IH; eassumption.
Qed.

Lemma between_nmul_100 x : between 0 1 x -> between 0 100 (nmul x (of_Z 100)).
Proof.
  destruct x as [q|]; [|auto]. intros [H0 H1]. cbn [nmul of_Z between].
  rewrite Qred_correct. split.
  - apply Qmult_le_0_compat; [exact H0|discriminate].
  - apply (Qle_trans _ (1 * inject_Z 100)).
    + apply Qmult_le_compat_r; [exact H1|discriminate].
    + rewrite Qmult_1_l. apply Qle_refl.
Qed.

Lemma between_mean lo hi a b :
  between lo hi a -> between lo hi b ->
  between lo hi (ndiv (nadd a b) (of_Z 2)).
Proof.
  destruct a as [x|]; [|intros []]. destruct b as [y|]; [|intros _ []].
  intros [Hx1 Hx2] [Hy1 Hy2]. cbn [nadd ndiv of_Z].
  change (Qeq_bool (inject_Z 2) 0) with false. cbn [between].
  rewrite !Qred_correct. split.
  - apply Qle_shift_div_l; [reflexivity|].
    apply (Qle_trans _ (lo + lo)).
    + assert (E : lo * inject_Z 2 == lo + lo) by ring. rewrite E. apply Qle_refl.
    + now apply Qplus_le_compat.
  - apply Qle_shift_div_r; [reflexivity|].
    apply (Qle_trans _ (hi + hi)).
    + now apply Qplus_le_compat.
    + assert (E : hi * inject_Z 2 == hi + hi) by ring. rewrite E. apply Qle_refl.
Qed.

Lemma median_between lo hi (numbers : list number) :
  numbers <> [] -> Forall (between lo hi) numbers ->
  between lo hi (median numbers).
Proof.
  intros Hne Hnum. unfold median.
  pose proof (array_sort_Permutation numbers) as P.
  set (sorted := array_sort numbers) in *.
  assert (Hs : Forall (between lo hi) sorted) by (now rewrite P).
  assert (Hn : length sorted <> 0).
  { rewrite P. destruct numbers; [congruence|discriminate]. }
  destruct (half_bounds _ Hn) as [Hodd Heven].
  rewrite Forall_forall in Hs.
  destruct (Nat.eqb_spec (length sorted mod 2) 0) as [E|_].
  - destruct (Heven E) as [H1 H2].
    apply between_mean; apply Hs, at_index_elem; assumption.
  - apply Hs, at_index_elem, Hodd.
Qed.

(** X30. When every category of every run document of the URL has a score
    from 0 to 1, [getMedianScores] gives each category one median, and
    every median is a number from 0 to 100. *)
Theorem getMedianScores_between url maxResults w medians w' :
  getMedianScores url maxResults w = (Ok medians, w') ->
  Forall (fun d => Forall (fun cat => between 0 1 (cat_score cat)) (d_lhrSlim d))
         (collection w (slugify url)) ->
  NoDup (map fst medians) /\ Forall (fun cm => between 0 100 (snd cm)) medians.
Proof.
  intros H Hnum. unfold getMedianScores in H.
  apply bind_ok in H as (scores & w1 & Hs & H). inversion H; subst medians w'.
  clear H. unfold getAllScores in Hs.
  apply bind_ok in Hs as (docs & w2 & Hq & Hs).
  apply query_get_ok in Hq as (n & _ & -> & ->).
  change (collection (add_event _ w) (slugify url))
    with (collection w (slugify url)) in Hs.
  assert (Hdocs : Forall (fun doc : nat * Doc =>
                    Forall (fun cat => between 0 100 (nmul (cat_score cat) (of_Z 100)))
                           (d_lhrSlim (snd doc)))
                    (reverse (take n (run_order ByAuditedOnDesc
                       (index_from 0 (collection w (slugify url))))))).
  { apply Forall_forall. intros doc Hin. rewrite elem_of_reverse in Hin.
    apply elem_of_take in Hin as (i & Hin & _).
    apply list_elem_of_lookup_2 in Hin.
    assert (Hd : snd doc ∈ collection w (slugify url)).
    { rewrite <- (run_order_desc_Permutation (collection w (slugify url))).
      apply list_elem_of_In, in_map. now apply list_elem_of_In. }
    rewrite Forall_forall in Hnum.
    eapply Forall_impl; [exact (Hnum _ Hd)|].
    intros cat. apply between_nmul_100. }
  assert (Hall : Forall (fun cs : string * list number =>
                            Forall (between 0 100) (snd cs)) scores).
  { apply (foldM_runs_Forall (between 0 100) _ _ _ _ _ Hs);
      [apply NoDup_nil_2|constructor|constructor|exact Hdocs]. }
  apply foldM_runs_ok in Hs as (Hnd & Hne & _);
    [|apply NoDup_nil_2|constructor].
  unfold medians_of. split.
  - rewrite map_map. cbn [fst]. exact Hnd.
  - apply Forall_fmap, Forall_forall. intros cs Hin. cbn [snd].
    rewrite Forall_forall in Hne, Hall.
    apply median_between; [apply Hne, Hin|apply Hall, Hin].
Qed.

Lemma saveReport_slim_records_witness :
  let w := set_clock 1000 payload_world in
  let r := saveReport ms_digits "http://b.example/" (sample_payload 0) true w in
  let data := returned (mkRunData [] 0 None) r in
  let cats := [("performance", sample_category "performance" (8 # 10))] in
  r = (Ok data, snd r) /\
  lhrSlim data = map (fun kv => without_auditRefs (snd kv)) cats /\
  (exists after, heap (snd r) !! 0 = Some after /\
     get_field "categories" after = Some (FJson (JObj cats))) /\
  (exists fs, bucket (snd r) !! report_file (slugify "http://b.example/")
              = Some (JObj fs) /\
     get_field "categories" fs = Some (JObj cats)).
Proof.
  intros w r data cats.
  assert (H : r = (Ok data, snd r)) by (vm_compute; reflexivity).
  split; [exact H|].
  assert (Hl : p_lhr (sample_payload 0) = Some 0) by reflexivity.
  assert (Ho : heap w !! 0 = Some (sample_lhr (8 # 10))) by reflexivity.
  assert (Hc : get_field "categories" (sample_lhr (8 # 10))
               = Some (FJson (JObj cats))) by (vm_compute; reflexivity).
  exact (saveReport_slim_records ms_digits "http://b.example/"
           (sample_payload 0) true w data (snd r) 0 (sample_lhr (8 # 10))
           cats H Hl Ho Hc).
Defined.

Lemma saveReport_empty_crux_witness :
  let w := set_clock 2000 after_crux_save in
  let r := saveReport ms_digits "http://b.example/" (sample_payload 1) true w in
  let data := returned (mkRunData [] 0 None) r in
  let old := mkDoc [without_auditRefs (sample_category "performance" (8 # 10))]
                   (Timestamp_fromDate 1000)
                   (Some (JObj [("record", JObj [("key", JStr "origin")])])) in
  r = (Ok data, snd r) /\
  p_crux (sample_payload 1) = Some (JObj []) /\
  last_doc w (slugify "http://b.example/") = Some (0, old) /\
  crux data = None /\
  collection (snd r) (slugify "http://b.example/") !! 0
  = Some (mkDoc (lhrSlim data) (Timestamp_fromDate (clock w)) (d_crux old)).
Proof.
  intros w r data old.
  assert (H : r = (Ok data, snd r)) by (vm_compute; reflexivity).
  assert (Hl : last_doc w (slugify "http://b.example/") = Some (0, old))
    by (vm_compute; reflexivity).
  split; [exact H|]. split; [reflexivity|]. split; [exact Hl|].
  pose proof (saveReport_empty_crux ms_digits "http://b.example/"
                (sample_payload 1) true w data (snd r) H eq_refl) as [Hc Hd].
  rewrite Hl in Hd. split; [exact Hc|exact Hd].
Defined.

Lemma saveReport_getFullReport_witness :
  let w := set_clock 1000 payload_world in
  let r := saveReport ms_digits "http://b.example/" (sample_payload 0) true w in
  let data := returned (mkRunData [] 0 None) r in
  r = (Ok data, snd r) /\
  faulty (snd r) (length (log (snd r))) = false /\
  exists l after,
    p_lhr (sample_payload 0) = Some l /\ heap (snd r) !! l = Some after /\
    fst (getFullReport "http://b.example/" (snd r))
    = Ok (JSON_stringify ms_digits after).
Proof.
  intros w r data.
  assert (H : r = (Ok data, snd r)) by (vm_compute; reflexivity).
  assert (Hf : faulty (snd r) (length (log (snd r))) = false)
    by (vm_compute; reflexivity).
  split; [exact H|]. split; [exact Hf|].
  exact (saveReport_getFullReport ms_digits "http://b.example/"
           (sample_payload 0) true w data (snd r) H Hf).
Defined.

Lemma saveReport_other_urls_witness :
  let w := set_clock 1000 two_urls_world in
  let w0 := set_heap (fun _ => [sample_lhr 1]) w in
  let r := saveReport ms_digits "http://b.example/" (sample_payload 0) false w0 in
  let data := returned (mkRunData [] 0 None) r in
  r = (Ok data, snd r) /\
  "http:____a.example__" <> slugify "http://b.example/" /\
  collection (snd r) "http:____a.example__" = collection w0 "http:____a.example__".
Proof.
  intros w w0 r data.
  assert (H : r = (Ok data, snd r)) by (vm_compute; reflexivity).
  assert (Hne : "http:____a.example__" <> slugify "http://b.example/")
    by (apply String.eqb_neq; vm_compute; reflexivity).
  split; [exact H|]. split; [exact Hne|].
  exact (proj1 (saveReport_other_urls ms_digits "http://b.example/"
                  (sample_payload 0) false w0 data (snd r)
                  "http:____a.example__" H Hne)).
Defined.

Lemma saveReport_incomplete_payload_witness :
  (p_lhr (mkPayload (Some 0) None) = None \/
   p_crux (mkPayload (Some 0) None) = None) /\
  exists e w',
    saveReport ms_digits "http://b.example/" (mkPayload (Some 0) None) true
      payload_world = (Throw e, w') /\
    same_stores payload_world w'.
Proof.
  split; [right; reflexivity|].
  destruct (saveReport_incomplete_payload ms_digits "http://b.example/"
              (mkPayload (Some 0) None) true payload_world (or_intror eq_refl))
    as (e & w' & H & S & _).
  exists e, w'. split; [exact H|exact S].
Defined.

(** ** The further properties on sample data *)

Lemma getUrlsLastViewedBefore_stale_witness :
  let w := after_second_save in
  let r := getUrlsLastViewedBefore 2500 w in
  let ids := returned [] r in
  r = (Ok ids, snd r) /\
  snd r = w /\ NoDup ids /\
  forall id, id ∈ ids <->
    exists lastViewed, meta w !! id = Some lastViewed /\ (lastViewed < 2500)%Z.
Proof.
  intros w r ids.
  assert (H : r = (Ok ids, snd r)) by (vm_compute; reflexivity).
  split; [exact H|].
  exact (getUrlsLastViewedBefore_stale 2500 w ids (snd r) H).
Defined.

Lemma saveReport_then_stale_witness :
  let w := set_clock 1000 payload_world in
  let r1 := saveReport ms_digits "http://b.example/" (sample_payload 0) true w in
  let data := returned (mkRunData [] 0 None) r1 in
  let r2 := getUrlsLastViewedBefore 1000 (snd r1) in
  let ids := returned [] r2 in
  r1 = (Ok data, snd r1) /\ r2 = (Ok ids, snd r2) /\
  (1000 <= auditedOn data)%Z /\
  slugify "http://b.example/" ∉ ids.
Proof.
  intros w r1 data r2 ids.
  assert (H1 : r1 = (Ok data, snd r1)) by (vm_compute; reflexivity).
  assert (H2 : r2 = (Ok ids, snd r2)) by (vm_compute; reflexivity).
  assert (H3 : (1000 <= auditedOn data)%Z) by (vm_compute; discriminate).
  split; [exact H1|]. split; [exact H2|]. split; [exact H3|].
  exact (saveReport_then_stale ms_digits "http://b.example/" (sample_payload 0)
           true w data (snd r1) 1000 ids (snd r2) H1 H2 H3).
Defined.

Lemma deleteReports_keeps_witness :
  let w := cached_world in
  let w' := snd (deleteReports 5 "http://b.example/" w) in
  slugify "http://b.example/" <> "meta" /\
  sublist (collection w' (slugify "http://b.example/"))
          (collection w (slugify "http://b.example/")) /\
  (forall id', id' <> slugify "http://b.example/" ->
     collection w' id' = collection w id') /\
  bucket w' = bucket w /\ memcache w' = memcache w /\ meta w' = meta w /\
  heap w' = heap w.
Proof.
  intros w w'.
  assert (Hne : slugify "http://b.example/" <> "meta")
    by (apply String.eqb_neq; vm_compute; reflexivity).
  split; [exact Hne|].
  exact (deleteReports_keeps 5 "http://b.example/" w Hne).
Defined.

Lemma updateLastViewed_then_stale_witness :
  let w := set_clock 7000 after_second_save in
  let r1 := updateLastViewed "http://b.example/" w in
  let r2 := getUrlsLastViewedBefore 6000 (snd r1) in
  let ids := returned [] r2 in
  r1 = (Ok tt, snd r1) /\ r2 = (Ok ids, snd r2) /\
  (slugify "http://b.example/" ∈ ids <-> (clock w < 6000)%Z).
Proof.
  intros w r1 r2 ids.
  assert (H1 : r1 = (Ok tt, snd r1)) by (vm_compute; reflexivity).
  assert (H2 : r2 = (Ok ids, snd r2)) by (vm_compute; reflexivity).
  split; [exact H1|]. split; [exact H2|].
  exact (updateLastViewed_then_stale "http://b.example/" w tt (snd r1) 6000
           ids (snd r2) H1 H2).
Defined.

Lemma deleteMetadata_forgets_witness :
  let w := after_second_save in
  let r := deleteMetadata "http://b.example/" w in
  r = (Ok tt, snd r) /\
  meta (snd r) = delete (slugify "http://b.example/") (meta w) /\
  db (snd r) = db w /\ bucket (snd r) = bucket w.
Proof.
  intros w r.
  assert (H : r = (Ok tt, snd r)) by (vm_compute; reflexivity).
  split; [exact H|].
  destruct (deleteMetadata_forgets "http://b.example/" w tt (snd r) H)
    as (Hm & Hd & Hb & _).
  split; [exact Hm|]. split; [exact Hd|exact Hb].
Defined.

Lemma deleteReports_leaves_cached_reports_witness :
  let w := cached_world in
  let r := deleteReports 5 "http://b.example/" w in
  let cached := match memcache w !! ("getReports_" +:+ slugify "http://b.example/") with
                | Some c => c
                | None => CReports []
                end in
  r = (Ok (Some tt), snd r) /\
  memcache w !! ("getReports_" +:+ slugify "http://b.example/") = Some cached /\
  faulty (snd r) (length (log (snd r))) = false /\
  faulty (snd r) (S (length (log (snd r)))) = false /\
  collection (snd r) (slugify "http://b.example/") = [] /\
  fst (getReports ms_digits "http://b.example/"
         (Some (mkConfig (Some 3) (Some true))) (snd r)) = Ok cached.
Proof.
  intros w r cached.
  assert (H : r = (Ok (Some tt), snd r)) by (vm_compute; reflexivity).
  assert (Hc : memcache w !! ("getReports_" +:+ slugify "http://b.example/")
               = Some cached) by (vm_compute; reflexivity).
  assert (Hf1 : faulty (snd r) (length (log (snd r))) = false)
    by (vm_compute; reflexivity).
  assert (Hf2 : faulty (snd r) (S (length (log (snd r)))) = false)
    by (vm_compute; reflexivity).
  split; [exact H|]. split; [exact Hc|]. split; [exact Hf1|].
  split; [exact Hf2|].
  exact (deleteReports_leaves_cached_reports ms_digits 5 "http://b.example/"
           w (snd r) cached (Some 3) H Hc Hf1 Hf2).
Defined.

Lemma getReports_cache_hit_witness :
  let w := cached_world in
  let cached := match memcache w !! ("getReports_" +:+ slugify "http://b.example/") with
                | Some c => c
                | None => CReports []
                end in
  let r := getReports ms_digits "http://b.example/"
             (Some (mkConfig (Some 1) (Some true))) w in
  memcache w !! ("getReports_" +:+ slugify "http://b.example/") = Some cached /\
  faulty w (length (log w)) = false /\
  faulty w (S (length (log w))) = false /\
  fst r = Ok cached /\
  meta (snd r) = <[slugify "http://b.example/" := clock w]> (meta w) /\
  issued w (snd r) = [EvCacheGet ("getReports_" +:+ slugify "http://b.example/");
                      EvSetMeta (slugify "http://b.example/")].
Proof.
  intros w cached r.
  assert (Hc : memcache w !! ("getReports_" +:+ slugify "http://b.example/")
               = Some cached) by (vm_compute; reflexivity).
  assert (Hf1 : faulty w (length (log w)) = false) by (vm_compute; reflexivity).
  assert (Hf2 : faulty w (S (length (log w))) = false)
    by (vm_compute; reflexivity).
  split; [exact Hc|]. split; [exact Hf1|]. split; [exact Hf2|].
  exact (getReports_cache_hit ms_digits "http://b.example/" (Some 1) w cached
           Hc Hf1 Hf2).
Defined.

Lemma getReports_no_runs_witness :
  let w := two_urls_world in
  let r := getReports ms_digits "http://c.example/" None w in
  let v := returned (CReports []) r in
  not_cached "http://c.example/" None w /\
  collection w (slugify "http://c.example/") = [] /\
  r = (Ok v, snd r) /\
  v = CReports [] /\ meta (snd r) = meta w /\ memcache (snd r) = memcache w.
Proof.
  intros w r v.
  assert (Hnc : not_cached "http://c.example/" None w)
    by (right; vm_compute; reflexivity).
  assert (Hnil : collection w (slugify "http://c.example/") = [])
    by (vm_compute; reflexivity).
  assert (H : r = (Ok v, snd r)) by (vm_compute; reflexivity).
  split; [exact Hnc|]. split; [exact Hnil|]. split; [exact H|].
  exact (getReports_no_runs ms_digits "http://c.example/" None w v (snd r)
           Hnc Hnil H).
Defined.

Lemma getReports_missing_full_report_witness :
  let w := two_urls_world in
  let r := getReports ms_digits "http://b.example/" None w in
  no_faults w /\
  not_cached "http://b.example/" None w /\
  fst (destructure_config None) = Some 10 /\
  collection w (slugify "http://b.example/") <> [] /\
  bucket w !! report_file (slugify "http://b.example/") = None /\
  (exists e, fst r = Throw e) /\
  meta (snd r) = <[slugify "http://b.example/" := clock w]> (meta w) /\
  memcache (snd r) = memcache w /\ db (snd r) = db w.
Proof.
  intros w r.
  assert (Hnf : no_faults w) by (intros n; reflexivity).
  assert (Hnc : not_cached "http://b.example/" None w)
    by (right; vm_compute; reflexivity).
  assert (Hn : fst (destructure_config None) = Some 10) by reflexivity.
  assert (Hne : collection w (slugify "http://b.example/") <> [])
    by (vm_compute; discriminate).
  assert (Hb : bucket w !! report_file (slugify "http://b.example/") = None)
    by (vm_compute; reflexivity).
  split; [exact Hnf|]. split; [exact Hnc|]. split; [exact Hn|].
  split; [exact Hne|]. split; [exact Hb|].
  exact (getReports_missing_full_report ms_digits "http://b.example/" None 9 w
           Hnf Hnc Hn Hne Hb).
Defined.

Lemma getReports_latest_runs_witness :
  let w := set_clock 3000 after_second_save in
  let r := getReports ms_digits "http://b.example/"
             (Some (mkConfig (Some 1) None)) w in
  let runs := match returned (CReports []) r with
              | CReports runs => runs
              | _ => []
              end in
  not_cached "http://b.example/" (Some (mkConfig (Some 1) None)) w /\
  r = (Ok (CReports runs), snd r) /\
  Forall (fun d => d_auditedOn d = Timestamp_fromDate (doc_time d))
         (collection w (slugify "http://b.example/")) /\
  exists n older,
    fst (destructure_config (Some (mkConfig (Some 1) None))) = Some n /\
    length runs = n `min` length (collection w (slugify "http://b.example/")) /\
    Permutation (map doc_time (collection w (slugify "http://b.example/")))
                (older ++ map r_auditedOn runs) /\
    (forall o t, o ∈ older -> t ∈ map r_auditedOn runs -> (o <= t)%Z) /\
    StronglySorted Z.le (map r_auditedOn runs).
Proof.
  intros w r runs.
  assert (Hnc : not_cached "http://b.example/" (Some (mkConfig (Some 1) None)) w)
    by (left; reflexivity).
  assert (H : r = (Ok (CReports runs), snd r)) by (vm_compute; reflexivity).
  assert (Hwf : Forall (fun d => d_auditedOn d = Timestamp_fromDate (doc_time d))
                  (collection w (slugify "http://b.example/"))).
  { replace (collection w (slugify "http://b.example/"))
      with [sample_run (8 # 10) 1000; sample_run (9 # 10) 2000]
      by (vm_compute; reflexivity).
    repeat (constructor; [vm_compute; reflexivity|]). constructor. }
  split; [exact Hnc|]. split; [exact H|]. split; [exact Hwf|].
  exact (getReports_latest_runs ms_digits "http://b.example/"
           (Some (mkConfig (Some 1) None)) w runs (snd r) Hnc H Hwf).
Defined.

Lemma getReports_twice_witness :
  let w := set_clock 3000 after_second_save in
  let r := getReports ms_digits "http://b.example/" None w in
  let v := returned (CReports []) r in
  r = (Ok v, snd r) /\
  faulty (snd r) (length (log (snd r))) = false /\
  faulty (snd r) (S (length (log (snd r)))) = false /\
  fst (getReports ms_digits "http://b.example/" None (snd r)) = Ok v.
Proof.
  intros w r v.
  assert (H : r = (Ok v, snd r)) by (vm_compute; reflexivity).
  assert (Hf1 : faulty (snd r) (length (log (snd r))) = false)
    by (vm_compute; reflexivity).
  assert (Hf2 : faulty (snd r) (S (length (log (snd r)))) = false)
    by (vm_compute; reflexivity).
  split; [exact H|]. split; [exact Hf1|]. split; [exact Hf2|].
  exact (getReports_twice ms_digits "http://b.example/" w v (snd r) H Hf1 Hf2).
Defined.

Lemma getAllSavedUrls_lists_witness :
  let w := two_urls_world in
  let r := getAllSavedUrls (Some (Some false)) w in
  let v := returned (CUrls []) r in
  urls_not_cached (Some (Some false)) w /\
  r = (Ok v, snd r) /\
  exists urls,
    v = CUrls urls /\
    (forall u, u ∈ urls <->
       exists id, collection w id <> [] /\ startsWith "http" id = true /\
                  u = deslugify id) /\
    StronglySorted (fun a b => String.leb a b = true) urls /\
    memcache (snd r) !! "getAllSavedUrls" = Some (CUrls urls).
Proof.
  intros w r v.
  assert (Hnc : urls_not_cached (Some (Some false)) w) by (left; reflexivity).
  assert (H : r = (Ok v, snd r)) by (vm_compute; reflexivity).
  split; [exact Hnc|]. split; [exact H|].
  exact (getAllSavedUrls_lists (Some (Some false)) w v (snd r) Hnc H).
Defined.

Lemma first_save_is_listed_witness :
  let w := set_clock 1000 payload_world in
  let r1 := saveReport ms_digits "http://b.example/" (sample_payload 0) true w in
  let data := returned (mkRunData [] 0 None) r1 in
  let r2 := getAllSavedUrls None (snd r1) in
  let v := returned (CUrls []) r2 in
  collection w (slugify "http://b.example/") = [] /\
  startsWith "http" "http://b.example/" = true /\
  r1 = (Ok data, snd r1) /\ r2 = (Ok v, snd r2) /\
  exists urls,
    v = CUrls urls /\ deslugify (slugify "http://b.example/") ∈ urls /\
    (includes "__" "http://b.example/" = false ->
     includes "_/" "http://b.example/" = false -> "http://b.example/" ∈ urls).
Proof.
  intros w r1 data r2 v.
  assert (Hnil : collection w (slugify "http://b.example/") = [])
    by (vm_compute; reflexivity).
  assert (Hh : startsWith "http" "http://b.example/" = true)
    by (vm_compute; reflexivity).
  assert (H1 : r1 = (Ok data, snd r1)) by (vm_compute; reflexivity).
  assert (H2 : r2 = (Ok v, snd r2)) by (vm_compute; reflexivity).
  split; [exact Hnil|]. split; [exact Hh|]. split; [exact H1|].
  split; [exact H2|].
  exact (first_save_is_listed ms_digits "http://b.example/" (sample_payload 0)
           true w data (snd r1) v (snd r2) Hnil Hh H1 H2).
Defined.

Lemma getAllScores_sequences_witness :
  let w := two_urls_world in
  let r := getAllScores "http://b.example/" None w in
  let scores := returned [] r in
  r = (Ok scores, snd r) /\
  NoDup (map fst scores) /\
  Forall (fun cs => snd cs <> []) scores /\
  total_scores scores
  = list_sum (map (fun doc => length (d_lhrSlim (snd doc)))
                (take (default MAX_REPORTS None)
                   (run_order ByAuditedOnDesc
                      (index_from 0 (collection w (slugify "http://b.example/")))))).
Proof.
  intros w r scores.
  assert (H : r = (Ok scores, snd r)) by (vm_compute; reflexivity).
  split; [exact H|].
  exact (getAllScores_sequences "http://b.example/" None w scores (snd r) H).
Defined.

Lemma medians_use_cached_urls_witness :
  memcache urls_cached_world !! "getAllSavedUrls" <> None /\
  EvGetCollections ∉
    issued urls_cached_world
      (snd (getMedianScoresOfAllUrls (Some (mkConfig (Some 10) (Some false)))
              urls_cached_world)).
Proof.
  assert (H : memcache urls_cached_world !! "getAllSavedUrls" <> None)
    by (vm_compute; discriminate).
  split; [exact H|].
  exact (medians_use_cached_urls (Some (mkConfig (Some 10) (Some false)))
           urls_cached_world H).
Defined.

Lemma runLighthouseAPI_runtimeError_witness :
  let w := failed_audit_world in
  let url := "http://a.example/" in
  let fs := [("code", JStr "NO_FCP");
             ("message", JStr "The page did not paint any content.")] in
  let r := runLighthouseAPI ms_digits url (Some false) w in
  faulty w (length (log w)) = false /\
  api w url = Ok (Some failed_audit_lhr, Some (JObj [])) /\
  get_field "runtimeError" failed_audit_lhr = Some (FJson (JObj fs)) /\
  get_field "code" fs = Some (JStr "NO_FCP") /\
  "NO_FCP" <> "NO_ERROR" /\
  get_field "message" fs = Some (JStr "The page did not paint any content.") /\
  fst r = Ok (WithErrors (Some (mkPayload (Some (length (heap w))) (Some (JObj []))))
                ("Error: " +:+ "NO_FCP" +:+ " " +:+
                 "The page did not paint any content.")) /\
  db (snd r) = db w /\ bucket (snd r) = bucket w /\ meta (snd r) = meta w /\
  memcache (snd r) = memcache w /\
  heap (snd r) = heap w ++ [failed_audit_lhr] /\
  issued w (snd r) = [EvAudit url].
Proof.
  intros w url fs r.
  assert (Hf : faulty w (length (log w)) = false) by reflexivity.
  assert (Ha : api w url = Ok (Some failed_audit_lhr, Some (JObj [])))
    by reflexivity.
  assert (Hr : get_field "runtimeError" failed_audit_lhr = Some (FJson (JObj fs)))
    by (vm_compute; reflexivity).
  assert (Hc : get_field "code" fs = Some (JStr "NO_FCP"))
    by (vm_compute; reflexivity).
  assert (Hne : "NO_FCP" <> "NO_ERROR")
    by (apply String.eqb_neq; vm_compute; reflexivity).
  assert (Hm : get_field "message" fs
               = Some (JStr "The page did not paint any content."))
    by (vm_compute; reflexivity).
  split; [exact Hf|]. split; [exact Ha|]. split; [exact Hr|].
  split; [exact Hc|]. split; [exact Hne|]. split; [exact Hm|].
  exact (runLighthouseAPI_runtimeError ms_digits url (Some false) w
           failed_audit_lhr (Some (JObj [])) fs "NO_FCP"
           "The page did not paint any content." Hf Ha Hr Hc Hne Hm).
Defined.

Lemma saveReport_then_getReports_witness :
  let w := set_clock 2000 after_first_save in
  let r1 := saveReport ms_digits "http://b.example/" (sample_payload 1) false w in
  let data := returned (mkRunData [] 0 None) r1 in
  let r2 := getReports ms_digits "http://b.example/" None (snd r1) in
  let v := returned (CReports []) r2 in
  Forall (fun d => d_auditedOn d = Timestamp_fromDate (doc_time d) /\
                   (doc_time d <= clock w)%Z)
         (collection w (slugify "http://b.example/")) /\
  r1 = (Ok data, snd r1) /\ r2 = (Ok v, snd r2) /\
  exists runs latest lhr,
    v = CReports (runs ++ [latest]) /\
    r_auditedOn latest = auditedOn data /\
    bucket (snd r1) !! report_file (slugify "http://b.example/") = Some lhr /\
    r_lhr latest = Some lhr.
Proof.
  intros w r1 data r2 v.
  assert (Hwf : Forall (fun d => d_auditedOn d = Timestamp_fromDate (doc_time d) /\
                                 (doc_time d <= clock w)%Z)
                  (collection w (slugify "http://b.example/"))).
  { replace (collection w (slugify "http://b.example/"))
      with [sample_run (8 # 10) 1000] by (vm_compute; reflexivity).
    repeat (constructor;
            [split; [vm_compute; reflexivity|vm_compute; discriminate]|]).
    constructor. }
  assert (H1 : r1 = (Ok data, snd r1)) by (vm_compute; reflexivity).
  assert (H2 : r2 = (Ok v, snd r2)) by (vm_compute; reflexivity).
  split; [exact Hwf|]. split; [exact H1|]. split; [exact H2|].
  exact (saveReport_then_getReports ms_digits "http://b.example/"
           (sample_payload 1) false w data (snd r1) v (snd r2) Hwf H1 H2).
Defined.

Lemma getMedianScores_between_witness :
  let w := two_urls_world in
  let r := getMedianScores "http://b.example/" None w in
  let medians := returned [] r in
  r = (Ok medians, snd r) /\
  Forall (fun d => Forall (fun cat => between 0 1 (cat_score cat)) (d_lhrSlim d))
         (collection w (slugify "http://b.example/")) /\
  NoDup (map fst medians) /\ Forall (fun cm => between 0 100 (snd cm)) medians.
Proof.
  intros w r medians.
  assert (H : r = (Ok medians, snd r)) by (vm_compute; reflexivity).
  assert (Hn : Forall (fun d => Forall (fun cat => between 0 1 (cat_score cat)) (d_lhrSlim d))
                 (collection w (slugify "http://b.example/"))).
  { replace (collection w (slugify "http://b.example/"))
      with [sample_run (9 # 10) 2000; sample_run 1 3000]
      by (vm_compute; reflexivity).
    repeat (constructor;
            [repeat constructor; vm_compute; discriminate|]).
    constructor. }
  split; [exact H|]. split; [exact Hn|].
  exact (getMedianScores_between "http://b.example/" None w medians (snd r) H Hn).
Defined.
